(** * Basketball team statistics: the aggregation and write paths

    A shallow embedding of the computational parts of the application:

    - the averages page ([calculateAverages], [getPlayerStats]),
    - the game form ([onSubmit] and its inline result derivation),
    - the attendance page ([loadPlayers], [loadEventAttendance],
      [loadAttendanceHistory], [togglePresence], [createNewEvent],
      [saveAttendance]),
    - the per-game statistics form ([loadData], [handleStatChange],
      [saveAllStats]),
    - the games page ([loadGames], [deleteGame]) and its list
      ([getResultBadge], [getResultClass]),
    - the players page ([onSubmit], [deletePlayer]),
    - the calendar ([onSubmit], [deleteEvent], [groupEventsByDate]),
    - the statistics page ([prepareStatViews], [calculateTotals],
      [getChartData]),
    - the dashboard ([loadDashboardData]).

    Conventions of the embedding.

    - A JavaScript number that holds an integer (a count, a score, a running
      sum, an array length) is a [Z].  Sums of such numbers are exact in
      JavaScript as long as they stay within the safe-integer range (below
      2^53): [JsNumberFacts.js_sum_exact] relates the sum of the numbers to
      the number of the sum.  The statements about the running sums of the
      averages page carry that bound as a hypothesis ([Spec.small]).
    - The quotient of two such numbers, and its product with 100 on the
      dashboard, is an IEEE 754 binary64 value.  It is modelled with the
      executable specification of binary floating point of the standard
      library ([SpecFloat], precision 53, [emax] 1024).
    - [Number.prototype.toFixed(1)] followed by unary [+] yields the number
      closest to a decimal with one fractional digit; the embedding keeps
      that decimal, as a number of tenths.
    - Identifiers are strings.  An object used as a dictionary is an
      association list of its own properties in the order of their
      creation.  [Object.keys], [Object.values] and a [for] loop over them
      list the array indices first, in ascending order, and then the other
      keys in the order of their creation: [JsObject.enumerate].  A read
      [o[k]] that finds no own property finds the property every object
      inherits under [k], if [k] is such a name ([JsObject.inherited]).
      A write under ["__proto__"] replaces the prototype instead of
      creating a property; the statements about the averages page exclude
      that identifier by hypothesis ([Spec.no_proto]).
    - [null] and [undefined] in a nullable column or optional field are
      [None].
    - The remote store is a record of tables; a request is a function on it.
      Requests are taken to reach the store: the only request errors that
      are modelled are those the store state itself determines.  The store
      refuses an attendance row whose event or player it does not hold
      (the foreign keys of the table).  A deletion the store refuses is a
      handler run with [accepted = false]; a run of [saveAllStats] in
      which the store refuses a write is [StatsForm.saveAllStats_refused].
      A selection without [.order] returns the rows in the order of the
      table; the statements that depend on which of several rows is read
      first assume at most one row per key. *)

From Stdlib Require Import ZArith NArith List String Bool Lia Permutation FinFun.
From Stdlib Require Import Sorted.
From Stdlib Require Import DecimalString DecimalNat DecimalN.
From Stdlib Require Import Floats.SpecFloat.
Import ListNotations.

Local Open Scope string_scope.
Local Open Scope list_scope.
Local Open Scope Z_scope.

(** ** JavaScript numbers: division and [toFixed(1)] *)

Module JsNumber.

(** Binary64. *)
Definition prec : Z := 53.
Definition emax : Z := 1024.

Definition number := spec_float.

(** The number denoted by an integer literal or integer-valued
    variable. *)
Definition of_int (z : Z) : number := binary_normalize prec emax z 0 false.

(** [x / y]. *)
Definition js_div (x y : number) : number := SFdiv prec emax x y.

(** [x + y], and a running sum [acc += x] over integer-valued [x]. *)
Definition js_add (x y : number) : number := SFadd prec emax x y.

Definition js_sum (acc : number) (xs : list Z) : number :=
  fold_left (fun acc x => js_add acc (of_int x)) xs acc.

(** A decimal with one fractional digit, counted in tenths, or the
    outcome of formatting [NaN] or an infinity. *)
Inductive decimal1 : Type :=
| Tenths (t : Z)
| NonFinite.

(** The integer [n] for which [n / 10 - m * 2^e] is as close to zero as
    possible, the larger one if there are two such [n]
    (Number.prototype.toFixed, step "Let n be an integer for which
    n / 10^f - x is as close to zero as possible").  That is
    [floor (10 * m * 2^e + 1/2)]. *)
Definition nearest_tenths (m : positive) (e : Z) : Z :=
  match e with
  | Zneg p => (20 * Zpos m + 2 ^ Zpos p) / 2 ^ (Zpos p + 1)
  | _ => 10 * Zpos m * 2 ^ e
  end.

(** [+x.toFixed(1)].  A negative [x] is formatted as ["-"] followed by
    the digits of [-x].  From [10^21] on [toFixed] prints the number
    itself, an integer, which is the value [nearest_tenths] gives as
    well.  [NaN] and the infinities print as such and read back as such. *)
Definition toFixed1 (x : number) : decimal1 :=
  match x with
  | S754_zero _ => Tenths 0
  | S754_finite s m e => Tenths (cond_Zopp s (nearest_tenths m e))
  | S754_infinity _ => NonFinite
  | S754_nan => NonFinite
  end.

(** [+(s / n).toFixed(1)] for integer-valued [s] and [n]: the rounding
    step shared by the player and the team averages. *)
Definition round1 (s n : Z) : decimal1 :=
  toFixed1 (js_div (of_int s) (of_int n)).

(** What a rounding location says of the remainder [r] of a division by
    [d]: the discarded part [r / d] of the quotient is zero, below one
    half, one half, or above one half. *)
Definition loc_ok (l : location) (r d : Z) : Prop :=
  match l with
  | loc_Exact => r = 0
  | loc_Inexact Lt => 0 < 2 * r < d
  | loc_Inexact Eq => 2 * r = d
  | loc_Inexact Gt => d < 2 * r
  end.

(** [x || 1] and [x || 0] on a number that is not [NaN]. *)
Definition or_one (x : Z) : Z := if x =? 0 then 1 else x.

Definition or_zero (x : option Z) : Z :=
  match x with
  | Some v => v
  | None => 0
  end.

End JsNumber.

Import JsNumber.

(** ** Objects used as dictionaries *)

Module JsObject.

Section Obj.
Context {V : Type}.

Definition obj := list (string * V).

(** [o[k]] *)
Fixpoint get (o : obj) (k : string) : option V :=
  match o with
  | [] => None
  | (k', v) :: o' => if String.eqb k' k then Some v else get o' k
  end.

(** [o[k] = v]: an existing key keeps its place, a new key goes last. *)
Fixpoint set (o : obj) (k : string) (v : V) : obj :=
  match o with
  | [] => [(k, v)]
  | (k', v') :: o' =>
      if String.eqb k' k then (k', v) :: o' else (k', v') :: set o' k v
  end.

(** The own keys and values of [o], in the order of the list. *)
Definition keys (o : obj) : list string := map fst o.
Definition values (o : obj) : list V := map snd o.

End Obj.

Arguments obj V : clear implicits.

(** The names every object inherits from [Object.prototype].  For such a
    [k] and an object without own property [k], [o[k]] is a function of
    the prototype (the prototype itself for ["__proto__"]), which is
    truthy. *)
Definition inherited (k : string) : bool :=
  existsb (String.eqb k)
    [ "constructor"; "hasOwnProperty"; "isPrototypeOf";
      "propertyIsEnumerable"; "toLocaleString"; "toString"; "valueOf";
      "__proto__"; "__defineGetter__"; "__defineSetter__";
      "__lookupGetter__"; "__lookupSetter__" ].

(** The key whose assignment replaces the prototype of an object and
    creates no own property: [set] is [o[k] = v] for every other key. *)
Definition proto_key : string := "__proto__".

(** An array index: the canonical decimal numeral of an integer below
    [2^32 - 1]. *)
Definition array_index (k : string) : option N :=
  match NilEmpty.uint_of_string k with
  | Some d =>
      if String.eqb (NilEmpty.string_of_uint (Decimal.unorm d)) k
      then if (N.of_uint d <? 4294967295)%N then Some (N.of_uint d) else None
      else None
  | None => None
  end.

Definition is_index (k : string) : bool :=
  match array_index k with
  | Some _ => true
  | None => false
  end.


Section Enumerate.
Context {V : Type}.

Fixpoint insert_index (n : N) (e : string * V) (l : list (N * (string * V)))
  : list (N * (string * V)) :=
  match l with
  | [] => [(n, e)]
  | (m, e') :: l' =>
      if (n <? m)%N then (n, e) :: l else (m, e') :: insert_index n e l'
  end.

(** The entries under an array index, in ascending order of the
    index. *)
Definition indexed (o : obj V) : list (N * (string * V)) :=
  fold_right (fun e acc =>
                match array_index (fst e) with
                | Some n => insert_index n e acc
                | None => acc
                end)
             [] o.

(** The own properties in the order in which [Object.keys],
    [Object.values] and [Object.entries] list them: the array indices
    in ascending order, then the other keys in the order of their
    creation. *)
Definition enumerate (o : obj V) : obj V :=
  map snd (indexed o) ++ filter (fun e => negb (is_index (fst e))) o.

End Enumerate.

End JsObject.

(** ** The averages page *)

Module Averages.

(** [interface Player], [interface Stat], [interface Event] of the page.
    The five counts are nullable columns of the statistics table. *)
Record Player : Type := {
  player_id : string;
  player_name : string
}.

Record Stat : Type := {
  stat_id : string;
  stat_player_id : string;
  stat_event_id : string;
  stat_points : option Z;
  stat_rebounds : option Z;
  stat_assists : option Z;
  stat_steals : option Z;
  stat_blocks : option Z
}.

Record Event : Type := {
  event_id : string;
  event_title : string;
  event_date : string;
  event_type : string
}.

(** An entry of [playerStats] while it holds running totals. *)
Record PlayerTotals : Type := {
  pt_name : string;
  pt_points : Z;
  pt_rebounds : Z;
  pt_assists : Z;
  pt_steals : Z;
  pt_blocks : Z;
  pt_gamesPlayed : Z
}.

(** [interface PlayerAverage] once the five fields hold averages. *)
Record PlayerAverage : Type := {
  pa_name : string;
  pa_points : decimal1;
  pa_rebounds : decimal1;
  pa_assists : decimal1;
  pa_steals : decimal1;
  pa_blocks : decimal1;
  pa_gamesPlayed : Z
}.

(** [teamTotals] *)
Record TeamTotals : Type := {
  tt_points : Z;
  tt_rebounds : Z;
  tt_assists : Z;
  tt_steals : Z;
  tt_blocks : Z;
  tt_gamesCount : Z
}.

(** [interface TeamAverage] *)
Record TeamAverage : Type := {
  ta_points : decimal1;
  ta_rebounds : decimal1;
  ta_assists : decimal1;
  ta_steals : decimal1;
  ta_blocks : decimal1;
  ta_games : Z
}.

Definition teamTotals0 : TeamTotals :=
  {| tt_points := 0; tt_rebounds := 0; tt_assists := 0;
     tt_steals := 0; tt_blocks := 0; tt_gamesCount := 0 |}.

(** [players.forEach(player => { playerStats[player.id] = {...} })] *)
Definition playerTotals0 (name : string) : PlayerTotals :=
  {| pt_name := name;
     pt_points := 0; pt_rebounds := 0; pt_assists := 0;
     pt_steals := 0; pt_blocks := 0; pt_gamesPlayed := 0 |}.

(** One turn of the first loop, for a player whose identifier is not
    [JsObject.proto_key]. *)
Definition init_player (playerStats : JsObject.obj PlayerTotals) (player : Player)
  : JsObject.obj PlayerTotals :=
  JsObject.set playerStats (player_id player) (playerTotals0 (player_name player)).

Definition init_playerStats (players : list Player) : JsObject.obj PlayerTotals :=
  fold_left init_player players [].

(** The six [playerStats[playerId].f += ...] statements.  The sums are
    those of the integers, which the running sums of the page are as
    long as they stay below [2^53]. *)
Definition pt_add (p : PlayerTotals) (stat : Stat) : PlayerTotals :=
  {| pt_name := pt_name p;
     pt_points := pt_points p + or_zero (stat_points stat);
     pt_rebounds := pt_rebounds p + or_zero (stat_rebounds stat);
     pt_assists := pt_assists p + or_zero (stat_assists stat);
     pt_steals := pt_steals p + or_zero (stat_steals stat);
     pt_blocks := pt_blocks p + or_zero (stat_blocks stat);
     pt_gamesPlayed := pt_gamesPlayed p + 1 |}.

(** The six [teamTotals.f += ...] statements, with the same reading of
    the sums. *)
Definition tt_add (teamTotals : TeamTotals) (stat : Stat) : TeamTotals :=
  {| tt_points := tt_points teamTotals + or_zero (stat_points stat);
     tt_rebounds := tt_rebounds teamTotals + or_zero (stat_rebounds stat);
     tt_assists := tt_assists teamTotals + or_zero (stat_assists stat);
     tt_steals := tt_steals teamTotals + or_zero (stat_steals stat);
     tt_blocks := tt_blocks teamTotals + or_zero (stat_blocks stat);
     tt_gamesCount := tt_gamesCount teamTotals + 1 |}.

(** The body of [stats.forEach(stat => { ... })]: both the player's
    entry and the team totals are updated under the guard
    [if (playerStats[playerId])].  The guard also passes when
    [playerId] is not a key of the dictionary but the name of an
    inherited property: the six [+=] on [playerStats[playerId]] then
    write to that inherited object and leave the dictionary as it is,
    and the team totals are updated all the same. *)
Definition add_stat (acc : JsObject.obj PlayerTotals * TeamTotals) (stat : Stat)
  : JsObject.obj PlayerTotals * TeamTotals :=
  let '(playerStats, teamTotals) := acc in
  let playerId := stat_player_id stat in
  match JsObject.get playerStats playerId with
  | Some p => (JsObject.set playerStats playerId (pt_add p stat),
               tt_add teamTotals stat)
  | None =>
      if JsObject.inherited playerId
      then (playerStats, tt_add teamTotals stat)
      else (playerStats, teamTotals)
  end.

(** The state of [playerStats] and [teamTotals] after both loops. *)
Definition accumulate (players : list Player) (stats : list Stat)
  : JsObject.obj PlayerTotals * TeamTotals :=
  fold_left add_stat stats (init_playerStats players, teamTotals0).

(** The function mapped over [Object.values(playerStats)]. *)
Definition average (player : PlayerTotals) : PlayerAverage :=
  let gamesPlayed := or_one (pt_gamesPlayed player) in
  {| pa_name := pt_name player;
     pa_points := round1 (pt_points player) gamesPlayed;
     pa_rebounds := round1 (pt_rebounds player) gamesPlayed;
     pa_assists := round1 (pt_assists player) gamesPlayed;
     pa_steals := round1 (pt_steals player) gamesPlayed;
     pa_blocks := round1 (pt_blocks player) gamesPlayed;
     pa_gamesPlayed := pt_gamesPlayed player |}.

Definition team_average (teamTotals : TeamTotals) (events : list Event)
  : TeamAverage :=
  let totalGames := or_one (Z.of_nat (List.length events)) in
  {| ta_points := round1 (tt_points teamTotals) totalGames;
     ta_rebounds := round1 (tt_rebounds teamTotals) totalGames;
     ta_assists := round1 (tt_assists teamTotals) totalGames;
     ta_steals := round1 (tt_steals teamTotals) totalGames;
     ta_blocks := round1 (tt_blocks teamTotals) totalGames;
     ta_games := totalGames |}.

(** [calculateAverages(players, stats, events)]: the pair of values it
    passes to [setPlayerAverages] and [setTeamAverage]. *)
Definition calculateAverages
    (players : list Player) (stats : list Stat) (events : list Event)
  : list PlayerAverage * TeamAverage :=
  let '(playerStats, teamTotals) := accumulate players stats in
  let averages :=
    map average (JsObject.values (JsObject.enumerate playerStats)) in
  let playersWithStats := filter (fun player => 0 <? pa_gamesPlayed player) averages in
  (playersWithStats, team_average teamTotals events).



(** One point of a player's series. *)
Record SeriesPoint : Type := {
  sp_event : string;
  sp_date : string;
  sp_points : Z;
  sp_rebounds : Z;
  sp_assists : Z;
  sp_steals : Z;
  sp_blocks : Z
}.

(** [s || d] on strings: the empty string is falsy. *)
Definition str_or (s : option string) (d : string) : string :=
  match s with
  | Some "" => d
  | Some v => v
  | None => d
  end.

Section Series.

(** [new Date(d).toLocaleDateString()]: depends on the locale of the
    browser. *)
Variable toLocaleDateString : string -> string.

(** [getPlayerStats(playerId)], with the page state [statistics] and
    [events] it reads made explicit. *)
Definition getPlayerStats
    (statistics : list Stat) (events : list Event) (playerId : string)
  : list SeriesPoint :=
  let playerStats :=
    filter (fun stat => String.eqb (stat_player_id stat) playerId) statistics in
  if Nat.eqb (List.length playerStats) 0 then []
  else
    map (fun stat =>
           let event :=
             find (fun e => String.eqb (event_id e) (stat_event_id stat)) events in
           {| sp_event := str_or (option_map event_title event) "Match inconnu";
              sp_date :=
                match option_map event_date event with
                | Some "" => ""
                | Some d => toLocaleDateString d
                | None => ""
                end;
              sp_points := or_zero (stat_points stat);
              sp_rebounds := or_zero (stat_rebounds stat);
              sp_assists := or_zero (stat_assists stat);
              sp_steals := or_zero (stat_steals stat);
              sp_blocks := or_zero (stat_blocks stat) |})
        playerStats.

Definition getPlayerSeries := getPlayerStats.

End Series.

End Averages.

(** ** The remote store *)

Module Store.

(** Rows of the four tables the pages read and write
    ([Database.public.Tables] of the generated types; [created_at] is
    neither read nor written by the pages and is left out). *)
Record PlayerRow : Type := {
  pl_id : string;
  pl_name : string;
  pl_position : option string;
  pl_jersey_number : option Z;
  pl_updated_at : string;
  pl_user_id : string
}.

Inductive GameResult : Type := win | loss | draw.

Record EventRow : Type := {
  ev_id : string;
  ev_title : string;
  ev_type : string;
  ev_date : string;
  ev_location : option string;
  ev_opponent : option string;
  ev_team_score : option Z;
  ev_opponent_score : option Z;
  ev_result : option GameResult;
  ev_updated_at : string;
  ev_user_id : string
}.

Record AttendanceRow : Type := {
  at_id : string;
  at_event_id : string;
  at_player_id : string;
  at_present : bool;
  at_updated_at : string;
  at_user_id : string
}.

Record StatisticRow : Type := {
  st_id : string;
  st_event_id : string;
  st_player_id : string;
  st_points : option Z;
  st_rebounds : option Z;
  st_assists : option Z;
  st_steals : option Z;
  st_blocks : option Z;
  st_updated_at : string;
  st_user_id : string
}.

(** The tables, and the counter from which the store draws the
    identifier of the next inserted row. *)
Record store : Type := {
  players : list PlayerRow;
  events : list EventRow;
  attendance : list AttendanceRow;
  statistics : list StatisticRow;
  next_id : nat
}.

(** The identifier the store gives to the next inserted row. *)
Definition new_id (st : store) : string :=
  NilEmpty.string_of_uint (Nat.to_uint (next_id st)).

(** The natural key of an attendance or statistics row. *)
Definition triple : Type := string * string * string.

Definition triple_eqb (a b : triple) : bool :=
  let '(e1, p1, u1) := a in
  let '(e2, p2, u2) := b in
  String.eqb e1 e2 && String.eqb p1 p2 && String.eqb u1 u2.

Definition at_key (r : AttendanceRow) : triple :=
  (at_event_id r, at_player_id r, at_user_id r).

Definition st_key (r : StatisticRow) : triple :=
  (st_event_id r, st_player_id r, st_user_id r).

(** Outcome of [.maybeSingle()]: no row, the row, or the error the
    client reports when several rows match. *)
Inductive maybe_single (A : Type) : Type :=
| NoRow
| OneRow (r : A)
| SeveralRows.

Arguments NoRow {A}.
Arguments OneRow {A} r.
Arguments SeveralRows {A}.

Definition maybeSingle {A : Type} (rows : list A) : maybe_single A :=
  match rows with
  | [] => NoRow
  | [r] => OneRow r
  | _ :: _ :: _ => SeveralRows
  end.

(** [.from('events').insert(row)] and [.update(f).eq('id', id)] *)
Definition insert_event (mk : string -> EventRow) (st : store) : store :=
  {| players := players st;
     events := events st ++ [mk (new_id st)];
     attendance := attendance st;
     statistics := statistics st;
     next_id := S (next_id st) |}.

Definition update_event (id : string) (f : EventRow -> EventRow) (st : store)
  : store :=
  {| players := players st;
     events := map (fun r => if String.eqb (ev_id r) id then f r else r) (events st);
     attendance := attendance st;
     statistics := statistics st;
     next_id := next_id st |}.

(** The foreign keys of the attendance table
    ([attendance_event_id_fkey], [attendance_player_id_fkey]) and of the
    statistics table ([statistics_event_id_fkey],
    [statistics_player_id_fkey]): the event and the player a row refers
    to exist. *)
Definition references (event_id player_id : string) (st : store) : bool :=
  existsb (fun e => String.eqb (ev_id e) event_id) (events st)
  && existsb (fun p => String.eqb (pl_id p) player_id) (players st).

(** [.from('attendance').insert(row)]: [None] when the store refuses the
    row because it refers to no event or to no player; and
    [.update(f).eq('id', id)]. *)
Definition insert_attendance (mk : string -> AttendanceRow) (st : store)
  : option store :=
  let row := mk (new_id st) in
  if references (at_event_id row) (at_player_id row) st
  then Some {| players := players st;
               events := events st;
               attendance := attendance st ++ [row];
               statistics := statistics st;
               next_id := S (next_id st) |}
  else None.

Definition update_attendance (id : string) (f : AttendanceRow -> AttendanceRow)
    (st : store) : store :=
  {| players := players st;
     events := events st;
     attendance :=
       map (fun r => if String.eqb (at_id r) id then f r else r) (attendance st);
     statistics := statistics st;
     next_id := next_id st |}.

(** [.from('statistics').insert(row)], once the store has accepted the
    row, and [.update(f).eq('id', id)].  A run of [saveAllStats] in
    which the store refuses a write is [StatsForm.saveAllStats_refused]. *)
Definition insert_statistic (mk : string -> StatisticRow) (st : store) : store :=
  {| players := players st;
     events := events st;
     attendance := attendance st;
     statistics := statistics st ++ [mk (new_id st)];
     next_id := S (next_id st) |}.

Definition update_statistic (id : string) (f : StatisticRow -> StatisticRow)
    (st : store) : store :=
  {| players := players st;
     events := events st;
     attendance := attendance st;
     statistics :=
       map (fun r => if String.eqb (st_id r) id then f r else r) (statistics st);
     next_id := next_id st |}.

(** [.delete().eq(column, v)] on the three tables the players page
    touches: the rows for which [sel] holds are removed. *)
Definition delete_statistics (sel : StatisticRow -> bool) (st : store) : store :=
  {| players := players st;
     events := events st;
     attendance := attendance st;
     statistics := filter (fun r => negb (sel r)) (statistics st);
     next_id := next_id st |}.

Definition delete_attendance (sel : AttendanceRow -> bool) (st : store) : store :=
  {| players := players st;
     events := events st;
     attendance := filter (fun r => negb (sel r)) (attendance st);
     statistics := statistics st;
     next_id := next_id st |}.

Definition delete_players (sel : PlayerRow -> bool) (st : store) : store :=
  {| players := filter (fun r => negb (sel r)) (players st);
     events := events st;
     attendance := attendance st;
     statistics := statistics st;
     next_id := next_id st |}.

End Store.

Import Store.

(** ** The game form *)

Module GameForm.

(** A score as the result derivation may meet it: a number, or one of
    the two absent values of the language.  The validated form values
    are numbers or [undefined]; the stored columns are numbers or
    [null]. *)
Inductive Score : Type :=
| Undefined
| Null
| Num (n : Z).

(** [ToNumber]: [null] converts to [0], [undefined] to [NaN] ([None]). *)
Definition to_number (s : Score) : option Z :=
  match s with
  | Undefined => None
  | Null => Some 0
  | Num n => Some n
  end.

(** [a > b] and [a < b]: false as soon as one side is [NaN]. *)
Definition js_gt (a b : Score) : bool :=
  match to_number a, to_number b with
  | Some x, Some y => y <? x
  | _, _ => false
  end.

Definition js_lt (a b : Score) : bool :=
  match to_number a, to_number b with
  | Some x, Some y => x <? y
  | _, _ => false
  end.

(** [s !== undefined] *)
Definition is_defined (s : Score) : bool :=
  match s with
  | Undefined => false
  | _ => true
  end.

(** The result derivation at the head of [onSubmit]. *)
Definition deriveGameResult (team_score opponent_score : Score)
  : option GameResult :=
  if is_defined team_score && is_defined opponent_score then
    if js_gt team_score opponent_score then Some win
    else if js_lt team_score opponent_score then Some loss
    else Some draw
  else None.

(** [GameFormValues], the output type of the form schema: a score is a
    number or [undefined]; [date] is kept as its ISO string. *)
Record GameFormValues : Type := {
  gv_title : string;
  gv_date : string;
  gv_location : option string;
  gv_opponent : option string;
  gv_team_score : option Z;
  gv_opponent_score : option Z
}.

Definition score_of (v : option Z) : Score :=
  match v with
  | Some n => Num n
  | None => Undefined
  end.

(** [interface Game] *)
Record Game : Type := {
  game_id : string;
  game_title : string;
  game_date : string;
  game_location : option string;
  game_opponent : option string;
  game_team_score : option Z;
  game_opponent_score : option Z;
  game_result : option GameResult
}.

(** [s || null] on an optional string. *)
Definition nonempty (s : option string) : option string :=
  match s with
  | Some "" => None
  | Some v => Some v
  | None => None
  end.

(** [n || undefined] on a nullable number. *)
Definition nonzero (n : option Z) : option Z :=
  match n with
  | Some 0 => None
  | Some v => Some v
  | None => None
  end.

(** The values [form.reset] installs when the dialog opens on
    [editingGame]. *)
Definition form_values_of (editingGame : Game) : GameFormValues :=
  {| gv_title := game_title editingGame;
     gv_date := game_date editingGame;
     gv_location := Some (match game_location editingGame with
                          | Some l => l
                          | None => ""
                          end);
     gv_opponent := Some (match game_opponent editingGame with
                          | Some o => o
                          | None => ""
                          end);
     gv_team_score := nonzero (game_team_score editingGame);
     gv_opponent_score := nonzero (game_opponent_score editingGame) |}.

(** [gameData], written over the row [r]. *)
Definition gameData (user_id : string) (values : GameFormValues)
    (result : option GameResult) (r : EventRow) : EventRow :=
  {| ev_id := ev_id r;
     ev_title := gv_title values;
     ev_type := "game";
     ev_date := gv_date values;
     ev_location := nonempty (gv_location values);
     ev_opponent := nonempty (gv_opponent values);
     ev_team_score := gv_team_score values;
     ev_opponent_score := gv_opponent_score values;
     ev_result := result;
     ev_updated_at := ev_updated_at r;
     ev_user_id := user_id |}.

(** The columns of a fresh row before [gameData] is written over it;
    [now] is the clock of the store. *)
Definition blank_event (now id : string) : EventRow :=
  {| ev_id := id; ev_title := ""; ev_type := ""; ev_date := "";
     ev_location := None; ev_opponent := None;
     ev_team_score := None; ev_opponent_score := None;
     ev_result := None; ev_updated_at := now; ev_user_id := "" |}.

(** [onSubmit(values)], with the signed-in user and [editingGame] it
    closes over. *)
Definition onSubmit (user : option string) (editingGame : option Game)
    (now : string) (values : GameFormValues) (st : store) : store :=
  match user with
  | None => st
  | Some user_id =>
      let result :=
        deriveGameResult (score_of (gv_team_score values))
                         (score_of (gv_opponent_score values)) in
      match editingGame with
      | Some g => update_event (game_id g) (gameData user_id values result) st
      | None =>
          insert_event
            (fun id => gameData user_id values result (blank_event now id)) st
      end
  end.

End GameForm.

(** ** The attendance page *)

Module AttendancePage.

(** How a handler ends: normally, or in its [catch] block. *)
Inductive outcome : Type := Done | Caught.

(** The rows [.eq('event_id', e).eq('player_id', p).eq('user_id', u)]
    selects. *)
Definition select_attendance (event_id player_id user_id : string) (st : store)
  : list AttendanceRow :=
  filter (fun r => triple_eqb (at_key r) (event_id, player_id, user_id))
         (attendance st).

(** One turn of the loop of [saveAttendance]: look the row up, then
    update it or insert a new one.  [None] when the lookup or the insert
    reports an error, which the handler throws. *)
Definition save_one (event_id user_id now : string)
    (playerId : string) (present : bool) (st : store) : option store :=
  match maybeSingle (select_attendance event_id playerId user_id st) with
  | SeveralRows => None
  | OneRow existingData =>
      Some (update_attendance (at_id existingData)
              (fun r => {| at_id := at_id r;
                           at_event_id := at_event_id r;
                           at_player_id := at_player_id r;
                           at_present := present;
                           at_updated_at := now;
                           at_user_id := at_user_id r |}) st)
  | NoRow =>
      insert_attendance
        (fun id => {| at_id := id;
                      at_event_id := event_id;
                      at_player_id := playerId;
                      at_present := present;
                      at_updated_at := now;
                      at_user_id := user_id |}) st
  end.

(** [for (const playerId of Object.keys(playerAttendance)) { ... }],
    each turn reading [playerAttendance[playerId]], over the entries in
    the order [Object.keys] lists them.  A thrown error leaves the
    writes already made in place. *)
Fixpoint save_loop (event_id user_id now : string)
    (entries : list (string * bool)) (st : store) : store * outcome :=
  match entries with
  | [] => (st, Done)
  | (playerId, present) :: rest =>
      match save_one event_id user_id now playerId present st with
      | Some st' => save_loop event_id user_id now rest st'
      | None => (st, Caught)
      end
  end.

(** [saveAttendance()], with the page state it reads: the selected
    event, the signed-in user and the [playerAttendance] dictionary. *)
Definition saveAttendance (selectedEvent : option string) (user_id now : string)
    (playerAttendance : JsObject.obj bool) (st : store) : store * outcome :=
  match selectedEvent with
  | None => (st, Done)
  | Some event_id =>
      save_loop event_id user_id now (JsObject.enumerate playerAttendance) st
  end.

End AttendancePage.

(** ** The per-game statistics form *)

Module StatsForm.

(** [interface PlayerStat].  An entry copied from the store carries the
    row's [id]; an entry the form created does not. *)
Record PlayerStat : Type := {
  ps_id : option string;
  ps_player_id : option string;
  ps_points : option Z;
  ps_rebounds : option Z;
  ps_assists : option Z;
  ps_steals : option Z;
  ps_blocks : option Z;
  ps_event_id : option string
}.

Inductive StatName : Type := points | rebounds | assists | steals | blocks.

(** The entry [loadData] copies from an existing row. *)
Definition of_row (r : StatisticRow) : PlayerStat :=
  {| ps_id := Some (st_id r);
     ps_player_id := Some (st_player_id r);
     ps_points := st_points r;
     ps_rebounds := st_rebounds r;
     ps_assists := st_assists r;
     ps_steals := st_steals r;
     ps_blocks := st_blocks r;
     ps_event_id := Some (st_event_id r) |}.

(** The entry [loadData] creates for a player without a row. *)
Definition zero_entry (player_id gameId : string) : PlayerStat :=
  {| ps_id := None;
     ps_player_id := Some player_id;
     ps_points := Some 0;
     ps_rebounds := Some 0;
     ps_assists := Some 0;
     ps_steals := Some 0;
     ps_blocks := Some 0;
     ps_event_id := Some gameId |}.

(** The entry [loadData] installs for a player: the existing row that
    [statsData.find] returns for the player, or else an entry with all
    counts at zero. *)
Definition initial_entry (statsData : list StatisticRow) (gameId player_id : string)
  : PlayerStat :=
  let existingStat :=
    find (fun stat => String.eqb (st_player_id stat) player_id) statsData in
  match existingStat with
  | Some row => of_row row
  | None => zero_entry player_id gameId
  end.

Section Form.

(** [.order('name', { ascending: true })]: the store returns the
    selected rows in the order of its collation. *)
Variable order_by_name : list PlayerRow -> list PlayerRow.

(** [loadData()]: the value it passes to [setPlayerStats].  When the
    lookup of the game by [.single()] does not find exactly one row it
    throws before that, and the state keeps its initial value [{}].
    The rows of the game are read in the order of the table; the store
    promises no order, which matters to [statsData.find] only when the
    table holds several rows of one player for the game. *)
Definition loadData (user_id gameId : string) (st : store)
  : JsObject.obj PlayerStat :=
  match filter (fun e => String.eqb (ev_id e) gameId) (events st) with
  | [_] =>
      let playersData :=
        order_by_name
          (filter (fun p => String.eqb (pl_user_id p) user_id) (players st)) in
      let statsData :=
        filter (fun s => String.eqb (st_event_id s) gameId
                         && String.eqb (st_user_id s) user_id)
               (statistics st) in
      fold_left
        (fun initialStats player =>
           JsObject.set initialStats (pl_id player)
             (initial_entry statsData gameId (pl_id player)))
        playersData []
  | _ => []
  end.

End Form.

(** [{ ...prev[playerId], [statName]: numValue }] *)
Definition with_stat (prev : option PlayerStat) (statName : StatName)
    (numValue : Z) : PlayerStat :=
  let e :=
    match prev with
    | Some e => e
    | None =>
        {| ps_id := None; ps_player_id := None; ps_points := None;
           ps_rebounds := None; ps_assists := None; ps_steals := None;
           ps_blocks := None; ps_event_id := None |}
    end in
  {| ps_id := ps_id e;
     ps_player_id := ps_player_id e;
     ps_points := match statName with points => Some numValue | _ => ps_points e end;
     ps_rebounds := match statName with rebounds => Some numValue | _ => ps_rebounds e end;
     ps_assists := match statName with assists => Some numValue | _ => ps_assists e end;
     ps_steals := match statName with steals => Some numValue | _ => ps_steals e end;
     ps_blocks := match statName with blocks => Some numValue | _ => ps_blocks e end;
     ps_event_id := ps_event_id e |}.

(** [handleStatChange(playerId, statName, value)]; [parsed] is
    [parseInt(value, 10)], [None] standing for [NaN]. *)
Definition handleStatChange (playerId : string) (statName : StatName)
    (parsed : option Z) (prev : JsObject.obj PlayerStat)
  : JsObject.obj PlayerStat :=
  let numValue := or_zero parsed in
  JsObject.set prev playerId
    (with_stat (JsObject.get prev playerId) statName numValue).

(** A sequence of edits of the inputs of the form, each a call of
    [handleStatChange]. *)
Definition handleStatChanges
    (edits : list (string * StatName * option Z))
    (playerStats : JsObject.obj PlayerStat) : JsObject.obj PlayerStat :=
  fold_left (fun prev '(playerId, statName, parsed) =>
               handleStatChange playerId statName parsed prev)
            edits playerStats.

(** One turn of the loop of [saveAllStats]: the entry's [id] alone
    decides between update and insert. *)
Definition save_stat (user_id gameId now : string)
    (playerId : string) (playerStat : PlayerStat) (st : store) : store :=
  let update id :=
    update_statistic id
      (fun r => {| st_id := st_id r;
                   st_event_id := st_event_id r;
                   st_player_id := st_player_id r;
                   st_points := ps_points playerStat;
                   st_rebounds := ps_rebounds playerStat;
                   st_assists := ps_assists playerStat;
                   st_steals := ps_steals playerStat;
                   st_blocks := ps_blocks playerStat;
                   st_updated_at := now;
                   st_user_id := st_user_id r |}) st in
  let insert :=
    insert_statistic
      (fun id => {| st_id := id;
                    st_event_id := gameId;
                    st_player_id := playerId;
                    st_points := ps_points playerStat;
                    st_rebounds := ps_rebounds playerStat;
                    st_assists := ps_assists playerStat;
                    st_steals := ps_steals playerStat;
                    st_blocks := ps_blocks playerStat;
                    st_updated_at := now;
                    st_user_id := user_id |}) st in
  match ps_id playerStat with
  | Some "" => insert
  | Some id => update id
  | None => insert
  end.

(** [saveAllStats()], with the signed-in user, the [gameId] and the
    [playerStats] dictionary it reads.  The loop
    [for (const playerId of Object.keys(playerStats))] visits the
    entries in the order of the list [playerStats], which is the order
    of [Object.keys] when no player identifier is an array index; a
    statement that is to hold whatever the identifiers are takes the
    entries in an arbitrary order.  The store accepts every write of the
    run. *)
Definition saveAllStats (user : option string) (gameId now : string)
    (playerStats : JsObject.obj PlayerStat) (st : store) : store :=
  match user with
  | None => st
  | Some "" => st
  | Some user_id =>
      fold_left (fun st' '(playerId, playerStat) =>
                   save_stat user_id gameId now playerId playerStat st')
                playerStats st
  end.

(** A run of [saveAllStats] in which the store refuses the write of
    turn [k] (counted from zero): the handler throws there, the writes of
    the turns before stay in the store, and the form stays open with
    [playerStats] as it was. *)
Definition saveAllStats_refused (k : nat) (user : option string)
    (gameId now : string) (playerStats : JsObject.obj PlayerStat) (st : store)
  : store :=
  saveAllStats user gameId now (firstn k playerStats) st.

End StatsForm.

(** ** The averages page on the store *)

Module AveragesPage.

Import Averages.

(** The columns the page selects. *)
Definition player_of (r : PlayerRow) : Player :=
  {| player_id := pl_id r; player_name := pl_name r |}.

Definition stat_of (r : StatisticRow) : Stat :=
  {| stat_id := st_id r;
     stat_player_id := st_player_id r;
     stat_event_id := st_event_id r;
     stat_points := st_points r;
     stat_rebounds := st_rebounds r;
     stat_assists := st_assists r;
     stat_steals := st_steals r;
     stat_blocks := st_blocks r |}.

Definition event_of (r : EventRow) : Event :=
  {| event_id := ev_id r; event_title := ev_title r;
     event_date := ev_date r; event_type := ev_type r |}.

Section Page.

Variable order_by_name : list PlayerRow -> list PlayerRow.

(** The three selections of [loadData]. *)
Definition playersData (user_id : string) (st : store) : list Player :=
  map player_of
    (order_by_name
       (filter (fun p => String.eqb (pl_user_id p) user_id) (players st))).

Definition statsData (user_id : string) (st : store) : list Stat :=
  map stat_of
    (filter (fun s => String.eqb (st_user_id s) user_id) (statistics st)).

Definition eventsData (user_id : string) (st : store) : list Event :=
  map event_of
    (filter (fun e => String.eqb (ev_user_id e) user_id
                      && String.eqb (ev_type e) "game")
            (events st)).

(** [loadData()]: what the page computes from the store. *)
Definition loadData (user_id : string) (st : store)
  : list PlayerAverage * TeamAverage :=
  calculateAverages (playersData user_id st) (statsData user_id st)
                    (eventsData user_id st).

End Page.

End AveragesPage.

(** ** The players page *)

Module PlayersPage.

(** [deletePlayer()], with the [playerToDelete] it reads. *)
Definition deletePlayer (playerToDelete : option string) (st : store) : store :=
  match playerToDelete with
  | None => st
  | Some "" => st
  | Some id =>
      let st1 := delete_statistics (fun r => String.eqb (st_player_id r) id) st in
      let st2 := delete_attendance (fun r => String.eqb (at_player_id r) id) st1 in
      delete_players (fun r => String.eqb (pl_id r) id) st2
  end.

End PlayersPage.

(** ** The operations as the specification words them *)

Module Spec.

Import Averages.

(** The statistic rows of one player, in the order of the collection. *)
Definition rows_of (playerId : string) (stats : list Stat) : list Stat :=
  filter (fun stat => String.eqb (stat_player_id stat) playerId) stats.

(** The sum of one count over a collection, absent counts being zero. *)
Definition sum_of (field : Stat -> option Z) (stats : list Stat) : Z :=
  fold_right Z.add 0 (map (fun stat => or_zero (field stat)) stats).

Definition count_of (stats : list Stat) : Z := Z.of_nat (List.length stats).

(** [s / n] rounded half-up to one decimal, in tenths:
    [floor (10 * s / n + 1/2)]. *)
Definition half_up_tenths (s n : Z) : Z := (20 * s + n) / (2 * n).

(** The rows whose player belongs to the players collection. *)
Definition known_player (players : list Player) (stat : Stat) : bool :=
  existsb (fun p => String.eqb (player_id p) (stat_player_id stat)) players.

Definition counted (players : list Player) (stats : list Stat) : list Stat :=
  filter (known_player players) stats.

(** The rows that enter the team sums: those of a player of the
    collection, and those whose [player_id] is the name of an inherited
    property. *)
Definition summed (players : list Player) (stats : list Stat) : list Stat :=
  filter (fun stat => known_player players stat
                      || JsObject.inherited (stat_player_id stat))
         stats.

(** The rows that enter the team sums and the totals of no player. *)
Definition stray (players : list Player) (stats : list Stat) : list Stat :=
  filter (fun stat => negb (known_player players stat)
                      && JsObject.inherited (stat_player_id stat))
         stats.






Definition team_totals_over (rows : list Stat) : TeamTotals :=
  {| tt_points := sum_of stat_points rows;
     tt_rebounds := sum_of stat_rebounds rows;
     tt_assists := sum_of stat_assists rows;
     tt_steals := sum_of stat_steals rows;
     tt_blocks := sum_of stat_blocks rows;
     tt_gamesCount := count_of rows |}.

(** The five counts of a statistic row. *)
Definition stat_fields : list (Stat -> option Z) :=
  [stat_points; stat_rebounds; stat_assists; stat_steals; stat_blocks].

(** Counts the page adds up without rounding: none is negative, and
    each of the five sums and the number of rows stay below [bound]. *)
Definition small (bound : Z) (stats : list Stat) : Prop :=
  (forall field r, In field stat_fields -> In r stats ->
                   0 <= or_zero (field r))
  /\ (forall field, In field stat_fields -> sum_of field stats < bound)
  /\ count_of stats < bound.

(** No player has the identifier that replaces the prototype of the
    dictionary. *)
Definition no_proto (players : list Player) : Prop :=
  ~ In JsObject.proto_key (map player_id players).

(** The running sum [acc += x] of one count over [rows], in the numbers
    of the language, is the integer sum. *)
Definition exact_sum (field : Stat -> option Z) (rows : list Stat) : Prop :=
  js_sum (of_int 0) (map (fun r => or_zero (field r)) rows)
  = of_int (sum_of field rows).

(** The result the scores call for. *)
Definition expected_result (team_score opponent_score : option Z)
  : option GameResult :=
  match team_score, opponent_score with
  | Some t, Some o =>
      Some (if o <? t then win else if t <? o then loss else draw)
  | _, _ => None
  end.

Definition result_consistent (r : EventRow) : Prop :=
  ev_result r = expected_result (ev_team_score r) (ev_opponent_score r).

(** What an event row holds once the form values have been written
    over it: the scores of the form and the result they call for. *)
Definition written (values : GameForm.GameFormValues) (r : EventRow) : Prop :=
  ev_team_score r = GameForm.gv_team_score values
  /\ ev_opponent_score r = GameForm.gv_opponent_score values
  /\ ev_result r =
     expected_result (GameForm.gv_team_score values)
                     (GameForm.gv_opponent_score values).

(** The keys a save of the attendance dictionary has to create: those of
    the players, in the order of the dictionary, for which no row exists
    yet, neither in the store nor from an earlier turn of the loop. *)
Fixpoint missing_keys (event_id user_id : string) (playerIds : list string)
    (present : list triple) : list triple :=
  match playerIds with
  | [] => []
  | p :: rest =>
      if existsb (triple_eqb (event_id, p, user_id)) present
      then missing_keys event_id user_id rest present
      else (event_id, p, user_id)
           :: missing_keys event_id user_id rest
                (present ++ [(event_id, p, user_id)])
  end.

(** An entry of the statistics form that [saveAllStats] inserts: one
    without a (non-empty) [id]. *)
Definition without_id (entry : string * StatsForm.PlayerStat) : bool :=
  match StatsForm.ps_id (snd entry) with
  | Some "" => true
  | Some _ => false
  | None => true
  end.

(** Two states of the statistics form with the same players and the
    same row identifiers: they differ by edits of counts only. *)
Definition same_rows (f g : JsObject.obj StatsForm.PlayerStat) : Prop :=
  map (fun e => (fst e, StatsForm.ps_id (snd e))) f
  = map (fun e => (fst e, StatsForm.ps_id (snd e))) g.


Definition entry_content (gameId user_id : string)
    (e : string * StatsForm.PlayerStat)
  : triple * (option Z * option Z * option Z * option Z * option Z) :=
  ((gameId, fst e, user_id),
   (StatsForm.ps_points (snd e), StatsForm.ps_rebounds (snd e),
    StatsForm.ps_assists (snd e), StatsForm.ps_steals (snd e),
    StatsForm.ps_blocks (snd e))).


(** At most one record per (event, player, owner) triple. *)
Definition unique_attendance (st : store) : Prop :=
  NoDup (map at_key (attendance st)).

Definition unique_statistics (st : store) : Prop :=
  NoDup (map st_key (statistics st)).

End Spec.

(** ** Sample data *)

Module Samples.

Import Averages.

Definition stat (id player event : string) (pts reb ast stl blk : Z) : Stat :=
  {| stat_id := id; stat_player_id := player; stat_event_id := event;
     stat_points := Some pts; stat_rebounds := Some reb;
     stat_assists := Some ast; stat_steals := Some stl;
     stat_blocks := Some blk |}.

Definition game (id title date : string) : Event :=
  {| event_id := id; event_title := title; event_date := date;
     event_type := "game" |}.

(** The end-to-end scenario of the specification. *)
Definition playerA : Player := {| player_id := "p1"; player_name := "A" |}.
Definition playerB : Player := {| player_id := "p2"; player_name := "B" |}.
Definition roster : list Player := [playerA; playerB].

Definition statA1 : Stat := stat "s1" "p1" "e1" 10 5 2 1 0.
Definition statA2 : Stat := stat "s2" "p1" "e2" 20 3 4 0 1.
Definition season : list Stat := [statA1; statA2].

Definition game1 : Event := game "e1" "Match 1" "2024-03-01T18:00:00Z".
Definition game2 : Event := game "e2" "Match 2" "2024-03-08T18:00:00Z".
Definition games : list Event := [game1; game2].

(** A row whose player is not in the players collection. *)
Definition statX : Stat := stat "s3" "p9" "e1" 10 4 3 2 1.

(** A row whose player identifier is the name of a property every
    object inherits. *)
Definition statT : Stat := stat "s5" "toString" "e1" 10 4 3 2 1.


(** A row whose event is not in the events collection. *)
Definition statA3 : Stat := stat "s4" "p1" "e7" 7 1 1 1 1.

(** A store with two players of user ["u1"] and one game without
    scores. *)
Definition player_row (id name : string) : PlayerRow :=
  {| pl_id := id; pl_name := name; pl_position := None;
     pl_jersey_number := None; pl_updated_at := ""; pl_user_id := "u1" |}.

Definition game_row (id title : string) (team opp : option Z)
    (result : option GameResult) : EventRow :=
  {| ev_id := id; ev_title := title; ev_type := "game";
     ev_date := "2024-03-01T18:00:00Z"; ev_location := None;
     ev_opponent := None; ev_team_score := team; ev_opponent_score := opp;
     ev_result := result; ev_updated_at := ""; ev_user_id := "u1" |}.

Definition store0 : store :=
  {| players := [player_row "p1" "A"; player_row "p2" "B"];
     events := [game_row "e1" "Match 1" None None None];
     attendance := [];
     statistics := [];
     next_id := 0 |}.

Definition final_score (team opp : option Z) : GameForm.GameFormValues :=
  {| GameForm.gv_title := "Match 1";
     GameForm.gv_date := "2024-03-01T18:00:00Z";
     GameForm.gv_location := Some "";
     GameForm.gv_opponent := Some "";
     GameForm.gv_team_score := team;
     GameForm.gv_opponent_score := opp |}.

Definition game_e1 : GameForm.Game :=
  {| GameForm.game_id := "e1"; GameForm.game_title := "Match 1";
     GameForm.game_date := "2024-03-01T18:00:00Z";
     GameForm.game_location := None; GameForm.game_opponent := None;
     GameForm.game_team_score := None; GameForm.game_opponent_score := None;
     GameForm.game_result := None |}.

(** The attendance dictionary of the two players. *)
Definition presence : JsObject.obj bool := [("p1", true); ("p2", false)].

(** The statistics form opened on game ["e1"] of [store0], and the store
    after that form is saved. *)
Definition form0 : JsObject.obj StatsForm.PlayerStat :=
  StatsForm.loadData (fun rows => rows) "u1" "e1" store0.

Definition store_saved : store :=
  StatsForm.saveAllStats (Some "u1") "e1" "t1" form0 store0.

(** A save of [form0] whose second write is refused, and the store after
    the save is tried again from the form, which is still open and
    unchanged. *)
Definition store1 : store :=
  StatsForm.saveAllStats_refused 1 (Some "u1") "e1" "t1" form0 store0.

Definition store2 : store :=
  StatsForm.saveAllStats (Some "u1") "e1" "t2" form0 store1.

(** The saved store once attendance is recorded as well. *)
Definition store3 : store :=
  fst (AttendancePage.saveAttendance (Some "e1") "u1" "t3" presence store_saved).

End Samples.

(** ** Keys in order of first appearance *)

Module Keys.

(** The keys of a dictionary after a write under [k]; also the elements
    of a [Set] after [k] is added. *)
Definition add_key (ks : list string) (k : string) : list string :=
  if existsb (String.eqb k) ks then ks else ks ++ [k].

(** [[...new Set(l)]] *)
Definition distinct (l : list string) : list string :=
  fold_left add_key l [].

End Keys.

(** ** Further requests on the tables *)

Module Requests.

(** [.from('events').delete().eq(column, v)] *)
Definition delete_events (sel : EventRow -> bool) (st : store) : store :=
  {| players := players st;
     events := filter (fun r => negb (sel r)) (events st);
     attendance := attendance st;
     statistics := statistics st;
     next_id := next_id st |}.

(** [.from('players').insert(row)] and [.update(f).eq('id', id)] *)
Definition insert_player (mk : string -> PlayerRow) (st : store) : store :=
  {| players := players st ++ [mk (new_id st)];
     events := events st;
     attendance := attendance st;
     statistics := statistics st;
     next_id := S (next_id st) |}.

Definition update_player (id : string) (f : PlayerRow -> PlayerRow) (st : store)
  : store :=
  {| players := map (fun r => if String.eqb (pl_id r) id then f r else r) (players st);
     events := events st;
     attendance := attendance st;
     statistics := statistics st;
     next_id := next_id st |}.

End Requests.

(** ** The attendance page: its state *)

Module AttendanceState.

Import Averages.

(** [initialAttendance], and [resetAttendance] before the rows of the
    event are read: [false] for each player. *)
Definition all_absent (players : list PlayerRow) : JsObject.obj bool :=
  fold_left (fun initialAttendance player =>
               JsObject.set initialAttendance (pl_id player) false)
            players [].

Section Page.

Variable order_by_name : list PlayerRow -> list PlayerRow.

(** [loadPlayers()]: the values it passes to [setPlayers] and
    [setPlayerAttendance]. *)
Definition loadPlayers (user_id : string) (st : store)
  : list PlayerRow * JsObject.obj bool :=
  let data :=
    order_by_name
      (filter (fun p => String.eqb (pl_user_id p) user_id) (players st)) in
  (data, all_absent data).

End Page.




(** [interface AttendanceRecord] *)
Record AttendanceRecord : Type := {
  ar_id : string;
  ar_eventId : string;
  ar_eventTitle : string;
  ar_eventDate : string;
  ar_playerName : string;
  ar_playerId : string;
  ar_present : bool
}.

(** [loadAttendanceHistory()]: the value it passes to
    [setAttendanceRecords]. *)
Definition loadAttendanceHistory (user_id : string) (st : store)
  : list AttendanceRecord :=
  let attendanceData :=
    filter (fun r => String.eqb (at_user_id r) user_id) (attendance st) in
  if Nat.eqb (List.length attendanceData) 0 then []
  else
    let playersData :=
      filter (fun p => String.eqb (pl_user_id p) user_id) (players st) in
    let eventsData :=
      filter (fun e => String.eqb (ev_user_id e) user_id) (events st) in
    map (fun record =>
           let player :=
             find (fun p => String.eqb (pl_id p) (at_player_id record))
                  playersData in
           let event :=
             find (fun e => String.eqb (ev_id e) (at_event_id record))
                  eventsData in
           {| ar_id := at_id record;
              ar_eventId := at_event_id record;
              ar_eventTitle :=
                str_or (option_map ev_title event) "Événement inconnu";
              ar_eventDate := str_or (option_map ev_date event) "";
              ar_playerName :=
                str_or (option_map pl_name player) "Joueur inconnu";
              ar_playerId := at_player_id record;
              ar_present := at_present record |})
        attendanceData.

(** The output of [eventFormSchema]. *)
Record EventFormData : Type := {
  ef_eventId : option string;
  ef_date : string;
  ef_time : option string;
  ef_title : option string;
  ef_eventType : string
}.

Section Create.

(** [new Date(d).toISOString()], and the same after
    [setHours(hours, minutes)] with the two numbers read from the time
    text: both depend on the time zone of the browser. *)
Variable toISOString : string -> string.
Variable toISOString_at : string -> string -> string.

(** [createNewEvent(data)]: the store after it.  Without a title the
    handler returns before any request. *)
Definition createNewEvent (user_id now : string) (data : EventFormData)
    (st : store) : store :=
  match ef_title data with
  | None => st
  | Some "" => st
  | Some title =>
      let dateTime :=
        match ef_time data with
        | None => toISOString (ef_date data)
        | Some "" => toISOString (ef_date data)
        | Some time => toISOString_at (ef_date data) time
        end in
      insert_event
        (fun id =>
           let r := GameForm.blank_event now id in
           {| ev_id := ev_id r;
              ev_title := title;
              ev_type := ef_eventType data;
              ev_date := dateTime;
              ev_location := ev_location r;
              ev_opponent := ev_opponent r;
              ev_team_score := ev_team_score r;
              ev_opponent_score := ev_opponent_score r;
              ev_result := ev_result r;
              ev_updated_at := ev_updated_at r;
              ev_user_id := user_id |})
        st
  end.

End Create.

End AttendanceState.

(** ** The games page and its list *)

Module GamesPage.

Import GameForm Requests.

(** [data as Game[]]: the columns of [interface Game]. *)
Definition game_of (r : EventRow) : Game :=
  {| game_id := ev_id r;
     game_title := ev_title r;
     game_date := ev_date r;
     game_location := ev_location r;
     game_opponent := ev_opponent r;
     game_team_score := ev_team_score r;
     game_opponent_score := ev_opponent_score r;
     game_result := ev_result r |}.

Section Page.

(** [.order('date', { ascending: false })] *)
Variable order_by_date_desc : list EventRow -> list EventRow.

(** [loadGames()]: the value it passes to [setGames]. *)
Definition loadGames (user_id : string) (st : store) : list Game :=
  map game_of
    (order_by_date_desc
       (filter (fun e => String.eqb (ev_user_id e) user_id
                         && String.eqb (ev_type e) "game")
               (events st))).

End Page.

(** [deleteGame(gameId)].  The outcome of the first request is not
    looked at; [accepted] tells whether the store carries out the second
    one, the handler throwing its error otherwise. *)
Definition deleteGame (accepted : bool) (gameId : string) (st : store) : store :=
  let st1 := delete_statistics (fun r => String.eqb (st_event_id r) gameId) st in
  if accepted then delete_events (fun r => String.eqb (ev_id r) gameId) st1
  else st1.

End GamesPage.

Module GamesList.

Import GameForm.

(** The text the store holds for a result. *)
Definition result_name (r : GameResult) : string :=
  match r with
  | win => "win"
  | loss => "loss"
  | draw => "draw"
  end.

(** [getResultBadge(result)]: the label of the badge, [None] for
    [null]. *)
Definition getResultBadge (result : option string) : option string :=
  match result with
  | None => None
  | Some "" => None
  | Some r =>
      if String.eqb r "win" then Some "Victoire"
      else if String.eqb r "loss" then Some "Défaite"
      else if String.eqb r "draw" then Some "Égalité"
      else None
  end.

(** [getResultClass(result)] *)
Definition getResultClass (result : option string) : string :=
  match result with
  | None => ""
  | Some "" => ""
  | Some r =>
      if String.eqb r "win" then "text-green-600 dark:text-green-400"
      else if String.eqb r "loss" then "text-red-600 dark:text-red-400"
      else if String.eqb r "draw" then "text-amber-600 dark:text-amber-400"
      else ""
  end.

(** What a cell of the table shows: a dash, a value, or nothing. *)
Inductive cell (A : Type) : Type :=
| Dash
| Shown (a : A)
| Blank.

Arguments Dash {A}.
Arguments Shown {A} a.
Arguments Blank {A}.

(** The score cell: both scores and the class of the result, when both
    scores are not [null]. *)
Definition score_cell (game : Game) : cell (Z * Z * string) :=
  match game_team_score game, game_opponent_score game with
  | Some team_score, Some opponent_score =>
      Shown (team_score, opponent_score,
             getResultClass (option_map result_name (game_result game)))
  | _, _ => Dash
  end.

(** The result cell: [game.result ? getResultBadge(game.result) : "-"]. *)
Definition result_cell (game : Game) : cell string :=
  match option_map result_name (game_result game) with
  | None => Dash
  | Some "" => Dash
  | Some r =>
      match getResultBadge (Some r) with
      | Some badge => Shown badge
      | None => Blank
      end
  end.

End GamesList.

(** ** The calendar page *)

Module CalendarPage.

Import GameForm Requests.

(** The output of the form schema of the page; [date] is kept as its
    ISO string. *)
Record EventFormValues : Type := {
  cv_title : string;
  cv_type : string;
  cv_date : string;
  cv_location : option string;
  cv_opponent : option string
}.

(** [onSubmit(data)], with the signed-in user and the [editingEvent] it
    reads. *)
Definition onSubmit (user_id : string) (editingEvent : option string)
    (now : string) (data : EventFormValues) (st : store) : store :=
  match editingEvent with
  | Some id =>
      update_event id
        (fun r => {| ev_id := ev_id r;
                     ev_title := cv_title data;
                     ev_type := cv_type data;
                     ev_date := cv_date data;
                     ev_location := nonempty (cv_location data);
                     ev_opponent := nonempty (cv_opponent data);
                     ev_team_score := ev_team_score r;
                     ev_opponent_score := ev_opponent_score r;
                     ev_result := ev_result r;
                     ev_updated_at := now;
                     ev_user_id := ev_user_id r |})
        st
  | None =>
      insert_event
        (fun id =>
           let r := blank_event now id in
           {| ev_id := ev_id r;
              ev_title := cv_title data;
              ev_type := cv_type data;
              ev_date := cv_date data;
              ev_location := nonempty (cv_location data);
              ev_opponent := nonempty (cv_opponent data);
              ev_team_score := ev_team_score r;
              ev_opponent_score := ev_opponent_score r;
              ev_result := ev_result r;
              ev_updated_at := ev_updated_at r;
              ev_user_id := user_id |})
        st
  end.

(** [deleteEvent(eventId)]; [accepted] tells whether the store carries
    out the request. *)
Definition deleteEvent (accepted : bool) (eventId : string) (st : store) : store :=
  if accepted then delete_events (fun r => String.eqb (ev_id r) eventId) st
  else st.

Section Group.

(** [format(new Date(date), 'yyyy-MM-dd')]: the day of the event in the
    time zone of the browser. *)
Variable dateKey : string -> string.

(** [groupEventsByDate()], with the [events] of the page state. *)
Definition groupEventsByDate (events : list EventRow)
  : JsObject.obj (list EventRow) :=
  fold_left (fun grouped event =>
               let k := dateKey (ev_date event) in
               match JsObject.get grouped k with
               | None => JsObject.set grouped k [event]
               | Some dateEvents => JsObject.set grouped k (dateEvents ++ [event])
               end)
            events [].

(** [groupedEvents[formattedDate]?.length > 0] in the day cell of the
    calendar. *)
Definition hasEvents (events : list EventRow) (formattedDate : string) : bool :=
  match JsObject.get (groupEventsByDate events) formattedDate with
  | Some dateEvents => (0 <? List.length dateEvents)%nat
  | None => false
  end.

End Group.

End CalendarPage.

(** ** The players page: its form *)

Module PlayerForm.

Import GameForm Requests.

(** The output of [playerFormSchema]. *)
Record PlayerFormValues : Type := {
  pv_name : string;
  pv_position : option string;
  pv_jersey_number : option Z
}.

(** [onSubmit(values)], with the signed-in user and the [editingPlayer]
    it reads. *)
Definition onSubmit (user_id : string) (editingPlayer : option string)
    (now : string) (values : PlayerFormValues) (st : store) : store :=
  match editingPlayer with
  | Some id =>
      update_player id
        (fun r => {| pl_id := pl_id r;
                     pl_name := pv_name values;
                     pl_position := nonempty (pv_position values);
                     pl_jersey_number := nonzero (pv_jersey_number values);
                     pl_updated_at := now;
                     pl_user_id := pl_user_id r |})
        st
  | None =>
      insert_player
        (fun id => {| pl_id := id;
                      pl_name := pv_name values;
                      pl_position := nonempty (pv_position values);
                      pl_jersey_number := nonzero (pv_jersey_number values);
                      pl_updated_at := now;
                      pl_user_id := user_id |})
        st
  end.

End PlayerForm.

(** ** The statistics page *)

Module StatisticsPage.

Import Averages.



Section Views.

(** [format(new Date(date), 'PPP', { locale: fr })] *)
Variable format_PPP : string -> string.


End Views.






End StatisticsPage.

(** ** The dashboard *)

Module Dashboard.

(** [x * y] *)
Definition js_mul (x y : number) : number := SFmul prec emax x y.

(** [interface DashboardStats] *)
Record DashboardStats : Type := {
  playerCount : Z;
  gameCount : Z;
  victories : Z;
  defeats : Z;
  attendanceRate : decimal1;
  lastAttendanceDate : option string
}.

(** [game.result === r] *)
Definition result_is (r : GameResult) (game : EventRow) : bool :=
  match ev_result game, r with
  | Some win, win => true
  | Some loss, loss => true
  | Some draw, draw => true
  | _, _ => false
  end.

Section Page.

(** [.order('date', { ascending: false })] *)
Variable order_by_date_desc : list EventRow -> list EventRow.

(** [loadDashboardData()]: the value it passes to [setStats]. *)
Definition loadDashboardData (user_id : string) (st : store) : DashboardStats :=
  let players :=
    filter (fun p => String.eqb (pl_user_id p) user_id) (Store.players st) in
  let games :=
    filter (fun e => String.eqb (ev_user_id e) user_id
                     && String.eqb (ev_type e) "game")
           (events st) in
  let victories := List.length (filter (result_is win) games) in
  let defeats := List.length (filter (result_is loss) games) in
  let attendanceData :=
    filter (fun r => String.eqb (at_user_id r) user_id) (attendance st) in
  let attendanceRate :=
    if Nat.eqb (List.length attendanceData) 0 then of_int 0
    else
      let presentCount := List.length (filter at_present attendanceData) in
      js_mul (js_div (of_int (Z.of_nat presentCount))
                     (of_int (Z.of_nat (List.length attendanceData))))
             (of_int 100) in
  let lastAttendanceDate :=
    if Nat.eqb (List.length attendanceData) 0 then None
    else
      let eventIds := Keys.distinct (map at_event_id attendanceData) in
      match order_by_date_desc
              (filter (fun e => existsb (String.eqb (ev_id e)) eventIds)
                      (events st)) with
      | [] => None
      | e :: _ => Some (ev_date e)
      end in
  {| playerCount := Z.of_nat (List.length players);
     gameCount := Z.of_nat (List.length games);
     victories := Z.of_nat victories;
     defeats := Z.of_nat defeats;
     attendanceRate := toFixed1 attendanceRate;
     lastAttendanceDate := lastAttendanceDate |}.

End Page.

End Dashboard.

(** ** The write handlers of the pages, in sequence *)

Module Session.

(** A write handler of a page, with the page state and the input it
    reads. *)
Inductive request : Type :=
| SubmitPlayer (user_id : string) (editingPlayer : option string)
    (now : string) (values : PlayerForm.PlayerFormValues)
| DeletePlayer (playerToDelete : option string)
| SubmitGame (user : option string) (editingGame : option GameForm.Game)
    (now : string) (values : GameForm.GameFormValues)
| DeleteGame (accepted : bool) (gameId : string)
| SubmitEvent (user_id : string) (editingEvent : option string)
    (now : string) (data : CalendarPage.EventFormValues)
| DeleteEvent (accepted : bool) (eventId : string)
| CreateEvent (user_id now : string) (data : AttendanceState.EventFormData)
| SaveAttendance (selectedEvent : option string) (user_id now : string)
    (playerAttendance : JsObject.obj bool)
| SaveStats (user : option string) (gameId now : string)
    (playerStats : JsObject.obj StatsForm.PlayerStat)
| SaveStatsRefused (k : nat) (user : option string) (gameId now : string)
    (playerStats : JsObject.obj StatsForm.PlayerStat).

Section Run.

Variable toISOString : string -> string.
Variable toISOString_at : string -> string -> string.

(** The store after a handler has run. *)
Definition perform (r : request) (st : store) : store :=
  match r with
  | SubmitPlayer user_id editingPlayer now values =>
      PlayerForm.onSubmit user_id editingPlayer now values st
  | DeletePlayer playerToDelete => PlayersPage.deletePlayer playerToDelete st
  | SubmitGame user editingGame now values =>
      GameForm.onSubmit user editingGame now values st
  | DeleteGame accepted gameId => GamesPage.deleteGame accepted gameId st
  | SubmitEvent user_id editingEvent now data =>
      CalendarPage.onSubmit user_id editingEvent now data st
  | DeleteEvent accepted eventId => CalendarPage.deleteEvent accepted eventId st
  | CreateEvent user_id now data =>
      AttendanceState.createNewEvent toISOString toISOString_at user_id now
                                     data st
  | SaveAttendance selectedEvent user_id now playerAttendance =>
      fst (AttendancePage.saveAttendance selectedEvent user_id now
                                         playerAttendance st)
  | SaveStats user gameId now playerStats =>
      StatsForm.saveAllStats user gameId now playerStats st
  | SaveStatsRefused k user gameId now playerStats =>
      StatsForm.saveAllStats_refused k user gameId now playerStats st
  end.

Definition run (requests : list request) (st : store) : store :=
  fold_left (fun st r => perform r st) requests st.

End Run.

(** The store of a new installation. *)
Definition empty : store :=
  {| players := []; events := []; attendance := []; statistics := [];
     next_id := 0 |}.

End Session.

(** ** What the handlers keep *)

Module Invariants.

Import Averages.

(** The sum of one running total over the entries of [playerStats]. *)
Definition total (f : PlayerTotals -> Z) (playerStats : JsObject.obj PlayerTotals)
  : Z :=
  fold_right Z.add 0 (map (fun e => f (snd e)) playerStats).

(** The players' totals add up to the team totals. *)
Definition balanced (acc : JsObject.obj PlayerTotals * TeamTotals) : Prop :=
  let '(playerStats, teamTotals) := acc in
  total pt_points playerStats = tt_points teamTotals
  /\ total pt_rebounds playerStats = tt_rebounds teamTotals
  /\ total pt_assists playerStats = tt_assists teamTotals
  /\ total pt_steals playerStats = tt_steals teamTotals
  /\ total pt_blocks playerStats = tt_blocks teamTotals
  /\ total pt_gamesPlayed playerStats = tt_gamesCount teamTotals.

(** The team totals are the players' totals and the sums over the rows
    [extra] together. *)
Definition balanced_up_to (extra : list Stat)
    (acc : JsObject.obj PlayerTotals * TeamTotals) : Prop :=
  let '(playerStats, teamTotals) := acc in
  tt_points teamTotals
  = total pt_points playerStats + Spec.sum_of stat_points extra
  /\ tt_rebounds teamTotals
     = total pt_rebounds playerStats + Spec.sum_of stat_rebounds extra
  /\ tt_assists teamTotals
     = total pt_assists playerStats + Spec.sum_of stat_assists extra
  /\ tt_steals teamTotals
     = total pt_steals playerStats + Spec.sum_of stat_steals extra
  /\ tt_blocks teamTotals
     = total pt_blocks playerStats + Spec.sum_of stat_blocks extra
  /\ tt_gamesCount teamTotals
     = total pt_gamesPlayed playerStats + Spec.count_of extra.

(** The five counts of a statistic row next to the five averages of a
    player. *)
Definition fields : list ((Stat -> option Z) * (PlayerAverage -> decimal1)) :=
  [ (stat_points, pa_points); (stat_rebounds, pa_rebounds);
    (stat_assists, pa_assists); (stat_steals, pa_steals);
    (stat_blocks, pa_blocks) ].

(** The five running totals of a player next to the five averages. *)
Definition total_fields
  : list ((PlayerTotals -> Z) * (PlayerAverage -> decimal1)) :=
  [ (pt_points, pa_points); (pt_rebounds, pa_rebounds);
    (pt_assists, pa_assists); (pt_steals, pa_steals);
    (pt_blocks, pa_blocks) ].

(** The identifier the store issues for the counter value [n]. *)
Definition id_of (n : nat) : string :=
  NilEmpty.string_of_uint (Nat.to_uint n).

(** The identifiers of a table are those of a primary key the store
    issues: distinct, and none is one the store has yet to issue. *)
Definition issued {A : Type} (id : A -> string) (rows : list A) (next : nat)
  : Prop :=
  NoDup (map id rows)
  /\ forall n, (next <= n)%nat -> ~ In (id_of n) (map id rows).

(** The attendance table holds one row for the player [k] at the event
    [e] of the user [u], and it records [v]. *)
Definition recorded (e u : string) (st : store) (k : string) (v : bool) : Prop :=
  exists r,
    filter (fun r => triple_eqb (at_key r) (e, k, u)) (attendance st) = [r]
    /\ at_present r = v.

(** The row [loadData] finds for a player of the game: the first row of
    the game and the user that has the player. *)
Definition first_row (g u : string) (st : store) (k : string)
  : option StatisticRow :=
  find (fun stat => String.eqb (st_player_id stat) k)
       (filter (fun s => String.eqb (st_event_id s) g
                         && String.eqb (st_user_id s) u)
               (statistics st)).

(** The five counts of a row, and of an entry of the statistics form. *)
Definition row_counts (r : StatisticRow)
  : option Z * option Z * option Z * option Z * option Z :=
  (st_points r, st_rebounds r, st_assists r, st_steals r, st_blocks r).

Definition entry_counts (e : StatsForm.PlayerStat)
  : option Z * option Z * option Z * option Z * option Z :=
  (StatsForm.ps_points e, StatsForm.ps_rebounds e, StatsForm.ps_assists e,
   StatsForm.ps_steals e, StatsForm.ps_blocks e).

(** One count of an entry of the statistics form. *)
Definition stat_of (statName : StatsForm.StatName) (e : StatsForm.PlayerStat)
  : option Z :=
  match statName with
  | StatsForm.points => StatsForm.ps_points e
  | StatsForm.rebounds => StatsForm.ps_rebounds e
  | StatsForm.assists => StatsForm.ps_assists e
  | StatsForm.steals => StatsForm.ps_steals e
  | StatsForm.blocks => StatsForm.ps_blocks e
  end.

Definition same_stat (a b : StatsForm.StatName) : bool :=
  match a, b with
  | StatsForm.points, StatsForm.points => true
  | StatsForm.rebounds, StatsForm.rebounds => true
  | StatsForm.assists, StatsForm.assists => true
  | StatsForm.steals, StatsForm.steals => true
  | StatsForm.blocks, StatsForm.blocks => true
  | _, _ => false
  end.

(** The parsed value of the last edit of the count [s] of the player
    [k] in a sequence of edits, if there is one. *)
Fixpoint last_edit (k : string) (s : StatsForm.StatName)
    (edits : list (string * StatsForm.StatName * option Z))
  : option (option Z) :=
  match edits with
  | [] => None
  | (k', s', parsed) :: rest =>
      match last_edit k s rest with
      | Some v => Some v
      | None => if String.eqb k' k && same_stat s' s then Some parsed else None
      end
  end.

(** The identifiers of each table are a primary key, and those of the
    statistic rows are not empty. *)
Definition keyed (st : store) : Prop :=
  issued pl_id (players st) (next_id st)
  /\ issued ev_id (events st) (next_id st)
  /\ issued at_id (attendance st) (next_id st)
  /\ issued st_id (statistics st) (next_id st)
  /\ Forall (fun r => st_id r <> "") (statistics st).

(** What every write handler keeps: the keys, the agreement of the
    result of each event with its scores, and at most one attendance
    row per (event, player, owner) triple. *)
Definition sound (st : store) : Prop :=
  keyed st
  /\ Forall Spec.result_consistent (events st)
  /\ Spec.unique_attendance st.



(** The result cell of a game of the list shows the badge [label]. *)
Definition shows (label : string) (game : GameForm.Game) : bool :=
  match GamesList.result_cell game with
  | GamesList.Shown badge => String.eqb badge label
  | _ => false
  end.

(** Both scores of a game are known and the first of [a] and [b] is
    the larger one. *)
Definition outscores (a b : GameForm.Game -> option Z) (game : GameForm.Game)
  : bool :=
  match a game, b game with
  | Some x, Some y => y <? x
  | _, _ => false
  end.

(** The number of elements of a list that satisfy a test. *)
Definition count {A : Type} (test : A -> bool) (l : list A) : Z :=
  Z.of_nat (List.length (filter test l)).

(** A shift record holds the quotient of [x] by [d], and its two
    bits say where the discarded part [x mod d] lies in a unit. *)
Definition shifted (mrs : shr_record) (x d : Z) : Prop :=
  shr_m mrs = x / d /\ loc_ok (loc_of_shr_record mrs) (x mod d) d.

End Invariants.

(** * Properties *)

(** ** Dictionaries *)

Module JsObjectFacts.

Import JsObject.

Section Facts.
Context {V : Type}.
Implicit Types (o : obj V) (k : string) (v : V).

Lemma get_in_keys o k : get o k <> None <-> In k (keys o).
Proof.
  induction o as [|[k' v'] o IH]; simpl.
  - split; [congruence | tauto].
  - destruct (String.eqb_spec k' k) as [->|Hne].
    + split; [auto | congruence].
    + rewrite IH. split; [auto | intros [?|?]; [congruence | assumption]].
Qed.

Lemma get_none_not_in o k : get o k = None <-> ~ In k (keys o).
Proof.
  rewrite <- get_in_keys. destruct (get o k); split; try congruence.
  intros H. exfalso. apply H. congruence.
Qed.

Lemma set_absent o k v : ~ In k (keys o) -> set o k v = o ++ [(k, v)].
Proof.
  induction o as [|[k' v'] o IH]; simpl; intros Hk; [reflexivity|].
  destruct (String.eqb_spec k' k) as [->|Hne]; [tauto|].
  rewrite IH by tauto. reflexivity.
Qed.

Lemma keys_set_present o k v : In k (keys o) -> keys (set o k v) = keys o.
Proof.
  induction o as [|[k' v'] o IH]; simpl; intros Hk; [tauto|].
  destruct (String.eqb_spec k' k) as [->|Hne]; simpl; [reflexivity|].
  f_equal. apply IH. destruct Hk; [congruence | assumption].
Qed.

(** Writing a key of a dictionary rewrites that entry and no other. *)
Lemma set_present_map o k v :
  NoDup (keys o) -> In k (keys o) ->
  set o k v = map (fun e => if String.eqb (fst e) k then (fst e, v) else e) o.
Proof.
  induction o as [|[k' v'] o IH]; simpl; intros Hnd Hk; [tauto|].
  inversion Hnd as [|? ? Hnotin Hnd']; subst.
  destruct (String.eqb_spec k' k) as [->|Hne]; simpl.
  - f_equal. rewrite <- (map_id o) at 1. apply map_ext_in.
    intros [k2 v2] Hin. simpl.
    destruct (String.eqb_spec k2 k) as [->|]; [|reflexivity].
    exfalso. apply Hnotin. change k with (fst (k, v2)). now apply in_map.
  - f_equal. apply IH; [assumption|]. destruct Hk; [congruence | assumption].
Qed.

Lemma get_in_nodup o k v : NoDup (keys o) -> In (k, v) o -> get o k = Some v.
Proof.
  induction o as [|[k' v'] o IH]; simpl; intros Hnd Hin; [tauto|].
  inversion Hnd as [|? ? Hnotin Hnd']; subst.
  destruct Hin as [Heq|Hin].
  - inversion Heq; subst. now rewrite String.eqb_refl.
  - destruct (String.eqb_spec k' k) as [->|Hne]; [|now apply IH].
    exfalso. apply Hnotin. change k with (fst (k, v)). now apply in_map.
Qed.

Lemma in_keys_set o k v k' :
  In k' (keys (set o k v)) <-> In k' (keys o) \/ k' = k.
Proof.
  induction o as [|[k0 v0] o IH]; simpl.
  - intuition congruence.
  - destruct (String.eqb_spec k0 k) as [->|Hne]; simpl.
    + intuition congruence.
    + rewrite IH. tauto.
Qed.

Lemma in_set o k v e :
  In e (set o k v) -> e = (k, v) \/ In e o.
Proof.
  induction o as [|[k0 v0] o IH]; simpl.
  - intros [<-|[]]. now left.
  - destruct (String.eqb_spec k0 k) as [->|Hne]; simpl.
    + intros [<-|H]; auto.
    + intros [<-|H]; auto. destruct (IH H); auto.
Qed.

Lemma nodup_set o k v : NoDup (keys o) -> NoDup (keys (set o k v)).
Proof.
  intros Hnd. destruct (in_dec string_dec k (keys o)) as [Hin|Hnotin].
  - now rewrite keys_set_present.
  - rewrite set_absent by assumption. unfold keys in *. rewrite map_app.
    apply NoDup_app; [assumption | repeat constructor; simpl; tauto |].
    intros x Hx [<-|[]]. contradiction.
Qed.

(** A dictionary filled key by key, each value a function of its
    key. *)
Lemma fold_set_by_key {P} (key : P -> string) (val : string -> V) l :
  forall o,
    NoDup (keys o) ->
    (forall e, In e o -> snd e = val (fst e)) ->
    let o' := fold_left (fun o p => set o (key p) (val (key p))) l o in
    NoDup (keys o')
    /\ (forall e, In e o' -> snd e = val (fst e))
    /\ (forall k, In k (keys o') <-> In k (keys o) \/ In k (map key l)).
Proof.
  induction l as [|p l IH]; intros o Hnd Hval; cbn [fold_left].
  - cbn. repeat split; auto; tauto.
  - destruct (IH (set o (key p) (val (key p)))) as [H1 [H2 H3]].
    + now apply nodup_set.
    + intros e He. apply in_set in He. destruct He as [->|He]; auto.
    + repeat split; auto.
      * intros Hk. apply H3 in Hk. rewrite in_keys_set in Hk. cbn [map In].
        intuition auto.
      * intros Hk. apply H3. rewrite in_keys_set. cbn [map In] in Hk.
        intuition auto.
Qed.

(** A dictionary filled entry by entry. *)
Lemma fold_set_entries {P} (key : P -> string) (val : P -> V) l :
  forall o,
    NoDup (keys o) ->
    let o' := fold_left (fun o p => set o (key p) (val p)) l o in
    NoDup (keys o')
    /\ (forall e, In e o' -> In e o \/ exists p, In p l /\ e = (key p, val p))
    /\ (forall k, In k (keys o') <-> In k (keys o) \/ In k (map key l)).
Proof.
  induction l as [|p l IH]; intros o Hnd; cbn [fold_left].
  - cbn. repeat split; auto; tauto.
  - destruct (IH (set o (key p) (val p))) as [H1 [H2 H3]].
    + now apply nodup_set.
    + repeat split; auto.
      * intros e He. apply H2 in He. destruct He as [He|[p' [Hp' ->]]].
        -- apply in_set in He. destruct He as [->|He]; auto.
           right. exists p. split; [now left | reflexivity].
        -- right. exists p'. split; [now right | reflexivity].
      * intros Hk. apply H3 in Hk. rewrite in_keys_set in Hk. cbn [map In].
        intuition auto.
      * intros Hk. apply H3. rewrite in_keys_set. cbn [map In] in Hk.
        intuition auto.
Qed.

End Facts.

End JsObjectFacts.

(** ** The order of enumeration *)

Module EnumerateFacts.

Import JsObject JsObjectFacts.

Lemma insert_index_perm {V} n (e : string * V) l :
  Permutation (insert_index n e l) ((n, e) :: l).
Proof.
  induction l as [|[m e'] l IH]; cbn [insert_index]; [reflexivity|].
  destruct (n <? m)%N; [reflexivity|].
  rewrite IH. apply perm_swap.
Qed.

Lemma indexed_perm {V} (o : obj V) :
  Permutation (map snd (indexed o)) (filter (fun e => is_index (fst e)) o).
Proof.
  unfold indexed, is_index.
  induction o as [|e o IH]; cbn [fold_right filter]; [reflexivity|].
  destruct (array_index (fst e)) as [n|]; [|exact IH].
  rewrite (Permutation_map snd (insert_index_perm n e _)). cbn [map snd].
  now constructor.
Qed.

Lemma partition_perm {A} (f : A -> bool) l :
  Permutation (filter f l ++ filter (fun x => negb (f x)) l) l.
Proof.
  induction l as [|x l IH]; cbn [filter]; [reflexivity|].
  destruct (f x); cbn [negb app].
  - now constructor.
  - rewrite <- Permutation_middle. now constructor.
Qed.






Lemma enumerate_example :
  enumerate [("b", 1); ("2", 2); ("a", 3); ("10", 4); ("1", 5); ("01", 6)]
  = [("1", 5); ("2", 2); ("10", 4); ("b", 1); ("a", 3); ("01", 6)].
Proof. reflexivity. Qed.

(** Enumeration reorders the entries and does nothing else. *)
Lemma enumerate_perm {V} (o : obj V) : Permutation (enumerate o) o.
Proof.
  unfold enumerate. rewrite indexed_perm. apply partition_perm.
Qed.

Lemma in_enumerate {V} (o : obj V) e : In e (enumerate o) <-> In e o.
Proof.
  split; apply Permutation_in;
    [apply enumerate_perm | apply Permutation_sym, enumerate_perm].
Qed.

Lemma keys_enumerate {V} (o : obj V) : Permutation (keys (enumerate o)) (keys o).
Proof. unfold keys. apply Permutation_map, enumerate_perm. Qed.

Lemma nodup_enumerate {V} (o : obj V) :
  NoDup (keys o) -> NoDup (keys (enumerate o)).
Proof.
  apply Permutation_NoDup, Permutation_sym, keys_enumerate.
Qed.

Lemma get_enumerate {V} (o : obj V) k :
  NoDup (keys o) -> get (enumerate o) k = get o k.
Proof.
  intros Hnd. destruct (get o k) as [v|] eqn:Hget.
  - apply get_in_nodup; [now apply nodup_enumerate|].
    apply in_enumerate.
    clear Hnd. induction o as [|[k' v'] o IH]; cbn [get] in Hget; [discriminate|].
    destruct (String.eqb_spec k' k) as [->|]; [left; congruence | right; auto].
  - apply get_none_not_in. apply get_none_not_in in Hget.
    intros Hin. apply Hget.
    apply (Permutation_in _ (keys_enumerate o)). exact Hin.
Qed.




End EnumerateFacts.

(** ** Numbers: the quotient of two integers and its first decimal *)

Module JsNumberFacts.

(** *** Binary digits *)

Lemma digits2_pos_bounds p :
  2 ^ (Zpos (digits2_pos p) - 1) <= Zpos p < 2 ^ Zpos (digits2_pos p).
Proof.
  induction p as [p IH|p IH|]; cbn [digits2_pos].
  - rewrite Pos2Z.inj_succ.
    replace (Z.succ (Zpos (digits2_pos p)) - 1)
      with (Z.succ (Zpos (digits2_pos p) - 1)) by lia.
    rewrite !Z.pow_succ_r by lia. lia.
  - rewrite Pos2Z.inj_succ.
    replace (Z.succ (Zpos (digits2_pos p)) - 1)
      with (Z.succ (Zpos (digits2_pos p) - 1)) by lia.
    rewrite !Z.pow_succ_r by lia. lia.
  - cbn. lia.
Qed.

Lemma digits2_pos_unique p d :
  2 ^ (d - 1) <= Zpos p < 2 ^ d -> Zpos (digits2_pos p) = d.
Proof.
  intros [Hlo Hhi]. pose proof (digits2_pos_bounds p) as [Hlo' Hhi'].
  assert (0 < d) as Hd.
  { destruct (Z.ltb_spec 0 d) as [|Hle]; [assumption|]. exfalso.
    destruct (Z.eq_dec d 0) as [->|Hne].
    - cbn in Hhi. lia.
    - rewrite Z.pow_neg_r in Hhi by lia. lia. }
  destruct (Z.lt_trichotomy (Zpos (digits2_pos p)) d) as [Hlt|[Heq|Hgt]];
    [|assumption|]; exfalso.
  - assert (2 ^ Zpos (digits2_pos p) <= 2 ^ (d - 1))
      by (apply Z.pow_le_mono_r; lia). lia.
  - assert (2 ^ d <= 2 ^ (Zpos (digits2_pos p) - 1))
      by (apply Z.pow_le_mono_r; lia). lia.
Qed.

Lemma iter_xO p d : Zpos (Pos.iter xO p d) = Zpos p * 2 ^ Zpos d.
Proof.
  induction d as [|d IH] using Pos.peano_ind.
  - cbn. lia.
  - rewrite Pos.iter_succ, Pos2Z.inj_xO, IH, Pos2Z.inj_succ, Z.pow_succ_r by lia.
    lia.
Qed.

(** *** Shifts and rounding of the significand *)

Lemma fexp_eq x : fexp prec emax x = Z.max (x - 53) (-1074).
Proof. reflexivity. Qed.

Lemma shr_fexp_53 m e l :
  Zpos (digits2_pos m) = 53 -> -1074 <= e ->
  shr_fexp prec emax (Zpos m) e l = (shr_record_of_loc (Zpos m) l, e).
Proof.
  intros Hd He. unfold shr_fexp. cbn [Zdigits2]. rewrite fexp_eq, Hd.
  replace (Z.max (53 + e - 53) (-1074) - e) with 0 by lia. reflexivity.
Qed.

Lemma shr_fexp_54 m e l :
  Zpos (digits2_pos m) = 54 -> -1075 <= e ->
  shr_fexp prec emax (Zpos m) e l
  = (shr_1 (shr_record_of_loc (Zpos m) l), e + 1).
Proof.
  intros Hd He. unfold shr_fexp. cbn [Zdigits2]. rewrite fexp_eq, Hd.
  replace (Z.max (54 + e - 53) (-1074) - e) with 1 by lia. reflexivity.
Qed.

Lemma new_location_ok d r :
  0 < d -> 0 <= r < d -> loc_ok (new_location d r) r d.
Proof.
  intros Hd Hr. unfold new_location, new_location_even, new_location_odd.
  destruct (Z.even d) eqn:Hev; destruct (Z.eqb_spec r 0) as [->|Hne];
    cbn [loc_ok]; try reflexivity.
  - destruct (Z.compare_spec (2 * r) d); cbn [loc_ok]; lia.
  - destruct (Z.compare_spec (2 * r + 1) d) as [Heq|Hlt|Hgt]; cbn [loc_ok];
      try lia.
    assert (2 * r <> d) as Hodd.
    { intros Heq. rewrite <- Heq, Z.even_mul in Hev. discriminate. }
    lia.
Qed.

Lemma loc_of_record_of_loc m l :
  loc_of_shr_record (shr_record_of_loc m l) = l
  /\ shr_m (shr_record_of_loc m l) = m.
Proof. destruct l as [|[]]; split; reflexivity. Qed.

(** Rounding [q + r / d] to the nearest integer. *)
Lemma round_53 q l r d :
  0 < d -> 0 <= r < d -> loc_ok l r d ->
  q <= round_nearest_even q l <= q + 1
  /\ 2 * Z.abs (round_nearest_even q l * d - (q * d + r)) <= d.
Proof.
  intros Hd Hr Hl. destruct l as [|[]]; cbn [loc_ok round_nearest_even] in *.
  - subst r. split; nia.
  - destruct (Z.even q); split; nia.
  - split; nia.
  - split; nia.
Qed.

(** Rounding [q + r / d] to the nearest even integer, halved: one shift
    of the significand, then rounding. *)
Lemma round_54 q l r d :
  0 < d -> 0 <= r < d -> loc_ok l r d -> 0 < q ->
  let mrs := shr_1 (shr_record_of_loc q l) in
  let M := round_nearest_even (shr_m mrs) (loc_of_shr_record mrs) in
  q / 2 <= M <= q / 2 + 1 /\ 2 * Z.abs (2 * M * d - (q * d + r)) <= 2 * d.
Proof.
  intros Hd Hr Hl Hq.
  destruct q as [|[p|p|]|]; try lia.
  - pose proof (Pos2Z.inj_xI p) as Hp.
    assert (Zpos p~1 / 2 = Zpos p) as Hh
      by (symmetry; apply Z.div_unique with 1; lia).
    rewrite Hh.
    destruct l as [|[]];
      cbn [loc_ok shr_record_of_loc shr_1 orb shr_m loc_of_shr_record
           round_nearest_even] in *;
      try destruct (Z.even (Zpos p)); rewrite Hp; split; nia.
  - pose proof (Pos2Z.inj_xO p) as Hp.
    assert (Zpos p~0 / 2 = Zpos p) as Hh
      by (symmetry; apply Z.div_unique with 0; lia).
    rewrite Hh.
    destruct l as [|[]];
      cbn [loc_ok shr_record_of_loc shr_1 orb shr_m loc_of_shr_record
           round_nearest_even] in *;
      try destruct (Z.even (Zpos p)); rewrite Hp; split; nia.
  - change (1 / 2) with 0.
    destruct l as [|[]];
      cbn [loc_ok shr_record_of_loc shr_1 orb shr_m loc_of_shr_record
           round_nearest_even Z.even] in *; split; nia.
Qed.

(** The last step of [binary_round_aux]: a rounded significand that
    reached [2^53] is shifted once more. *)
Lemma finish_round m e :
  2 ^ 52 <= Zpos m <= 2 ^ 53 -> -1074 <= e <= 900 ->
  exists M c,
    (let '(mrs, e') := shr_fexp prec emax (Zpos m) e loc_Exact in
     match shr_m mrs with
     | Z0 => S754_zero false
     | Zpos m' =>
         if e' <=? emax - prec then S754_finite false m' e'
         else S754_infinity false
     | Zneg _ => S754_nan
     end) = S754_finite false M (e + c)
    /\ 2 ^ 52 <= Zpos M < 2 ^ 53 /\ 0 <= c <= 1 /\ Zpos M * 2 ^ c = Zpos m.
Proof.
  intros Hm He.
  destruct (Z.ltb_spec (Zpos m) (2 ^ 53)) as [Hlt|Hge].
  - exists m, 0. rewrite shr_fexp_53; [|apply digits2_pos_unique; lia|lia].
    cbn [shr_record_of_loc shr_m].
    replace (e <=? emax - prec) with true
      by (symmetry; apply Z.leb_le; unfold emax, prec; lia).
    rewrite Z.add_0_r. repeat split; lia.
  - assert (Zpos m = 2 ^ 53) as Hm53 by lia.
    exists (4503599627370496%positive), 1.
    rewrite shr_fexp_54;
      [|apply digits2_pos_unique; rewrite Hm53; cbn; lia|lia].
    change (2 ^ 53) with (Zpos 9007199254740992) in Hm53.
    injection Hm53 as ->.
    cbn [shr_record_of_loc shr_1 orb shr_m].
    replace (e + 1 <=? emax - prec) with true
      by (symmetry; apply Z.leb_le; unfold emax, prec; lia).
    repeat split; cbn; lia.
Qed.

(** [binary_round_aux] on a significand of 53 or 54 bits: the result is
    a normal number within half a unit in the last place of [q + r / d]. *)
Lemma binary_round_aux_spec q e l r d :
  2 ^ 52 <= q < 2 ^ 54 -> -1074 <= e <= 800 ->
  0 < d -> 0 <= r < d -> loc_ok l r d ->
  exists M k,
    binary_round_aux prec emax false q e l = S754_finite false M (e + k)
    /\ 2 ^ 52 <= Zpos M < 2 ^ 53
    /\ 0 <= k <= 2
    /\ 2 * Z.abs (Zpos M * 2 ^ k * d - (q * d + r)) <= 2 ^ k * d.
Proof.
  intros Hq He Hd Hr Hl.
  destruct q as [|qp|qp]; try lia.
  destruct (Z.ltb_spec (Zpos qp) (2 ^ 53)) as [Hlt|Hge].
  - unfold binary_round_aux.
    rewrite shr_fexp_53; [|apply digits2_pos_unique; lia|lia].
    destruct (loc_of_record_of_loc (Zpos qp) l) as [Hloc Hmant].
    rewrite Hloc, Hmant.
    destruct (round_53 (Zpos qp) l r d Hd Hr Hl) as [HM Herr].
    destruct (round_nearest_even (Zpos qp) l) as [|m1|m1] eqn:HM1; try lia.
    destruct (finish_round m1 e) as [M [c [Heq [HMb [Hc HMc]]]]]; [lia|lia|].
    exists M, c. rewrite Heq. repeat split; try lia.
    rewrite HMc.
    assert (c = 0 \/ c = 1) as [->| ->] by lia.
    + change (2 ^ 0) with 1 in *. lia.
    + change (2 ^ 1) with 2 in *. lia.
  - unfold binary_round_aux.
    rewrite shr_fexp_54; [|apply digits2_pos_unique; lia|lia].
    destruct (round_54 (Zpos qp) l r d Hd Hr Hl) as [HM Herr]; [lia|].
    assert (2 ^ 52 <= Zpos qp / 2 < 2 ^ 53) as Hhalf.
    { split.
      - apply Z.div_le_lower_bound; lia.
      - apply Z.div_lt_upper_bound; lia. }
    destruct (round_nearest_even _ _) as [|m1|m1] eqn:HM1; try lia.
    destruct (finish_round m1 (e + 1)) as [M [c [Heq [HMb [Hc HMc]]]]];
      [lia|lia|].
    exists M, (1 + c). rewrite Heq.
    replace (e + (1 + c)) with (e + 1 + c) by lia.
    repeat split; try lia.
    rewrite Z.pow_add_r by lia. change (2 ^ 1) with 2.
    assert (c = 0 \/ c = 1) as [->| ->] by lia.
    + change (2 ^ 0) with 1 in *. nia.
    + change (2 ^ 1) with 2 in *. nia.
Qed.

(** *** Integers as numbers *)

Lemma binary_round_aux_exact m e :
  Zpos (digits2_pos m) = 53 -> -1074 <= e <= 971 ->
  binary_round_aux prec emax false (Zpos m) e loc_Exact = S754_finite false m e.
Proof.
  intros Hd He. unfold binary_round_aux.
  rewrite shr_fexp_53 by lia.
  cbn [shr_m loc_of_shr_record round_nearest_even shr_record_of_loc].
  rewrite shr_fexp_53 by lia. cbn [shr_m shr_record_of_loc].
  replace (e <=? emax - prec) with true
    by (symmetry; apply Z.leb_le; unfold emax, prec; lia).
  reflexivity.
Qed.

(** A positive integer below [2^53] is represented exactly, with a
    significand of 53 bits. *)
Lemma of_int_pos n :
  0 < n < 2 ^ 53 ->
  exists m e,
    of_int n = S754_finite false m e
    /\ Zpos (digits2_pos m) = 53 /\ -52 <= e <= 0 /\ Zpos m = n * 2 ^ (- e).
Proof.
  intros [Hpos Hlt]. destruct n as [|p|p]; try lia.
  pose proof (digits2_pos_bounds p) as [Hlo Hhi].
  assert (Zpos (digits2_pos p) <= 53) as Hd.
  { destruct (Z.leb_spec (Zpos (digits2_pos p)) 53) as [|Hgt]; [assumption|].
    exfalso.
    assert (2 ^ 53 <= 2 ^ (Zpos (digits2_pos p) - 1))
      by (apply Z.pow_le_mono_r; lia). lia. }
  unfold of_int, binary_normalize, binary_round, shl_align.
  rewrite fexp_eq.
  replace (Z.max (Zpos (digits2_pos p) + 0 - 53) (-1074) - 0)
    with (Zpos (digits2_pos p) - 53) by lia.
  replace (Z.max (Zpos (digits2_pos p) + 0 - 53) (-1074))
    with (Zpos (digits2_pos p) - 53) by lia.
  destruct (Zpos (digits2_pos p) - 53) as [|d|d] eqn:Hs; try lia.
  - exists p, 0. rewrite binary_round_aux_exact by lia. cbn. repeat split; lia.
  - exists (Pos.iter xO p d), (Zneg d).
    assert (Zpos (digits2_pos (Pos.iter xO p d)) = 53) as Hd'.
    { apply digits2_pos_unique. rewrite iter_xO.
      replace 53 with (Zpos (digits2_pos p) + Zpos d) by lia.
      replace (Zpos (digits2_pos p) + Zpos d - 1)
        with ((Zpos (digits2_pos p) - 1) + Zpos d) by lia.
      rewrite !Z.pow_add_r by lia. nia. }
    rewrite binary_round_aux_exact by lia.
    repeat split; try lia. rewrite iter_xO. reflexivity.
Qed.

(** *** Sums of integers *)

Lemma shr_1_even m :
  0 <= m ->
  shr_1 {| shr_m := 2 * m; shr_r := false; shr_s := false |}
  = {| shr_m := m; shr_r := false; shr_s := false |}.
Proof. intros Hm. destruct m as [|p|p]; try lia; reflexivity. Qed.

(** Shifting out zero bits loses nothing. *)
Lemma iter_shr_exact p : forall m k,
  0 <= m -> 0 <= k ->
  iter_pos shr_1 p
    {| shr_m := m * 2 ^ (k + Zpos p); shr_r := false; shr_s := false |}
  = {| shr_m := m * 2 ^ k; shr_r := false; shr_s := false |}.
Proof.
  assert (Hstep : forall m k, 0 <= m -> 0 <= k ->
     shr_1 {| shr_m := m * 2 ^ (k + 1); shr_r := false; shr_s := false |}
     = {| shr_m := m * 2 ^ k; shr_r := false; shr_s := false |}).
  { intros m k Hm Hk. rewrite Z.pow_add_r by lia. change (2 ^ 1) with 2.
    replace (m * (2 ^ k * 2)) with (2 * (m * 2 ^ k)) by lia.
    apply shr_1_even. apply Z.mul_nonneg_nonneg; [lia|].
    apply Z.pow_nonneg. lia. }
  induction p as [p IH|p IH|]; intros m k Hm Hk; cbn [iter_pos].
  - replace (k + Zpos p~1) with ((k + Zpos p + Zpos p) + 1) by lia.
    rewrite Hstep by lia.
    replace (k + Zpos p + Zpos p) with ((k + Zpos p) + Zpos p) by lia.
    rewrite IH by lia. apply IH; lia.
  - replace (k + Zpos p~0) with ((k + Zpos p) + Zpos p) by lia.
    rewrite IH by lia. apply IH; lia.
  - apply Hstep; lia.
Qed.

Lemma digits_scale p m k :
  0 <= k -> Zpos m = Zpos p * 2 ^ k ->
  Zpos (digits2_pos m) = Zpos (digits2_pos p) + k.
Proof.
  intros Hk Hm. apply digits2_pos_unique. rewrite Hm.
  pose proof (digits2_pos_bounds p) as [Hlo Hhi].
  replace (Zpos (digits2_pos p) + k - 1)
    with ((Zpos (digits2_pos p) - 1) + k) by lia.
  rewrite !Z.pow_add_r by lia.
  assert (0 < 2 ^ k) by (apply Z.pow_pos_nonneg; lia). nia.
Qed.

Lemma digits_below_53 p : Zpos p < 2 ^ 53 -> Zpos (digits2_pos p) <= 53.
Proof.
  intros Hlt. pose proof (digits2_pos_bounds p) as [Hlo Hhi].
  destruct (Z.leb_spec (Zpos (digits2_pos p)) 53) as [|Hgt]; [assumption|].
  exfalso.
  assert (2 ^ 53 <= 2 ^ (Zpos (digits2_pos p) - 1))
    by (apply Z.pow_le_mono_r; lia). lia.
Qed.

(** The number of a positive integer below [2^53], in full. *)
Lemma of_int_canonical p :
  Zpos p < 2 ^ 53 ->
  exists m,
    of_int (Zpos p) = S754_finite false m (Zpos (digits2_pos p) - 53)
    /\ Zpos m = Zpos p * 2 ^ (53 - Zpos (digits2_pos p)).
Proof.
  intros Hlt.
  destruct (of_int_pos (Zpos p)) as [m [e [Heq [Hd [He Hm]]]]]; [lia|].
  pose proof (digits_scale p m (- e) ltac:(lia) Hm) as Hds.
  assert (e = Zpos (digits2_pos p) - 53) as -> by lia.
  exists m. split; [exact Heq|]. rewrite Hm. f_equal. f_equal. lia.
Qed.

(** Normalizing [p * 2^(-e)] at exponent [e] gives the number of [p]. *)
Lemma binary_normalize_int p e s :
  Zpos p < 2 ^ 53 -> -52 <= e <= Zpos (digits2_pos p) - 53 ->
  Zpos s = Zpos p * 2 ^ (- e) ->
  binary_normalize prec emax (Zpos s) e false = of_int (Zpos p).
Proof.
  intros Hlt He Hs.
  destruct (of_int_canonical p Hlt) as [m [Heq Hm]]. rewrite Heq.
  pose proof (digits_below_53 p Hlt) as Hd.
  pose proof (digits_scale p s (- e) ltac:(lia) Hs) as Hds.
  pose proof (digits_scale p m (53 - Zpos (digits2_pos p)) ltac:(lia) Hm)
    as Hdm.
  unfold binary_normalize, binary_round, shl_align. rewrite fexp_eq, Hds.
  set (d := Zpos (digits2_pos p)) in *.
  replace (Z.max (d + - e + e - 53) (-1074)) with (d - 53) by lia.
  destruct (d - 53 - e) as [|n|n] eqn:Hn; try lia.
  - assert (Zpos s = Zpos m) as Hsm.
    { rewrite Hs, Hm. f_equal. f_equal. lia. }
    injection Hsm as ->.
    rewrite binary_round_aux_exact by lia. f_equal. lia.
  - unfold binary_round_aux. unfold shr_fexp at 1.
    cbn [Zdigits2 shr_record_of_loc].
    rewrite fexp_eq, Hds.
    replace (Z.max (d + - e + e - 53) (-1074) - e) with (Zpos n) by lia.
    cbn [shr].
    assert (Zpos s = Zpos m * 2 ^ (0 + Zpos n)) as Hsm.
    { rewrite Hs, Hm, <- Z.mul_assoc, <- Z.pow_add_r by lia.
      f_equal. f_equal. lia. }
    rewrite Hsm, iter_shr_exact by lia.
    change (2 ^ 0) with 1. rewrite Z.mul_1_r.
    cbv beta iota. cbn [shr_m loc_of_shr_record round_nearest_even].
    rewrite shr_fexp_53 by lia. cbn [shr_record_of_loc shr_m].
    replace (e + Zpos n <=? emax - prec) with true
      by (symmetry; apply Z.leb_le; unfold emax, prec; lia).
    f_equal. lia.
Qed.

Lemma shl_align_value mx ex ez :
  ez <= ex -> Zpos (fst (shl_align mx ex ez)) = Zpos mx * 2 ^ (ex - ez).
Proof.
  intros Hle. unfold shl_align.
  destruct (ez - ex) as [|d|d] eqn:Hd; try lia; cbn [fst].
  - replace (ex - ez) with 0 by lia. cbn. lia.
  - rewrite iter_xO. f_equal. f_equal. lia.
Qed.

(** The sum of two non-negative integers is exact below [2^53]. *)
Lemma js_add_int a b :
  0 <= a -> 0 <= b -> a + b < 2 ^ 53 ->
  js_add (of_int a) (of_int b) = of_int (a + b).
Proof.
  intros Ha Hb Hab.
  destruct a as [|pa|pa]; try lia.
  { cbn [Z.add]. change (of_int 0) with (S754_zero false).
    destruct b as [|pb|pb]; try lia; [reflexivity|].
    destruct (of_int_pos (Zpos pb)) as [m [e [-> _]]]; [lia|]. reflexivity. }
  destruct b as [|pb|pb]; try lia.
  { rewrite Z.add_0_r. change (of_int 0) with (S754_zero false).
    destruct (of_int_pos (Zpos pa)) as [m [e [-> _]]]; [lia|]. reflexivity. }
  destruct (of_int_canonical pa) as [mx [Hx Hmx]]; [lia|].
  destruct (of_int_canonical pb) as [my [Hy Hmy]]; [lia|].
  rewrite Hx, Hy. unfold js_add, SFadd. cbn [cond_Zopp].
  set (ex := Zpos (digits2_pos pa) - 53) in *.
  set (ey := Zpos (digits2_pos pb) - 53) in *.
  set (ez := Z.min ex ey).
  pose proof (digits2_pos_bounds pa) as [Hla Hha].
  pose proof (digits2_pos_bounds pb) as [Hlb Hhb].
  pose proof (digits_below_53 pa ltac:(lia)) as Hda.
  pose proof (digits_below_53 pb ltac:(lia)) as Hdb.
  rewrite !shl_align_value by (unfold ez; lia).
  assert (Zpos mx * 2 ^ (ex - ez) = Zpos pa * 2 ^ (- ez)) as ->.
  { rewrite Hmx, <- Z.mul_assoc, <- Z.pow_add_r by (unfold ex, ez; lia).
    f_equal. f_equal. unfold ex. lia. }
  assert (Zpos my * 2 ^ (ey - ez) = Zpos pb * 2 ^ (- ez)) as ->.
  { rewrite Hmy, <- Z.mul_assoc, <- Z.pow_add_r by (unfold ey, ez; lia).
    f_equal. f_equal. unfold ey. lia. }
  rewrite <- Z.mul_add_distr_r.
  change (Zpos pa + Zpos pb) with (Zpos (pa + pb)).
  assert (0 < 2 ^ (- ez)) as Hpow
    by (apply Z.pow_pos_nonneg; unfold ez, ex, ey; lia).
  destruct (Zpos (pa + pb) * 2 ^ (- ez)) as [|s|s] eqn:Hs; try lia.
  apply binary_normalize_int; try lia.
  pose proof (digits2_pos_bounds (pa + pb)) as [Hl Hh].
  assert (Zpos (digits2_pos pa) <= Zpos (digits2_pos (pa + pb))) as Hmono.
  { destruct (Z.leb_spec (Zpos (digits2_pos pa))
                         (Zpos (digits2_pos (pa + pb)))) as [|Hgt];
      [assumption|]. exfalso.
    assert (2 ^ Zpos (digits2_pos (pa + pb)) <= 2 ^ (Zpos (digits2_pos pa) - 1))
      by (apply Z.pow_le_mono_r; lia). lia. }
  unfold ez, ex, ey. lia.
Qed.

(** A running sum of non-negative integers that stays below [2^53] is
    the integer sum: the totals of the averages page can be kept in
    [Z]. *)
Lemma js_sum_exact xs : forall a,
  0 <= a -> Forall (fun x => 0 <= x) xs ->
  a + fold_right Z.add 0 xs < 2 ^ 53 ->
  js_sum (of_int a) xs = of_int (a + fold_right Z.add 0 xs).
Proof.
  unfold js_sum.
  induction xs as [|x xs IH]; intros a Ha Hall Hsum; cbn [fold_left fold_right].
  - now rewrite Z.add_0_r.
  - apply Forall_cons_iff in Hall. destruct Hall as [Hx Hall].
    cbn [fold_right] in Hsum.
    assert (0 <= fold_right Z.add 0 xs) as Hrest.
    { clear -Hall. induction Hall as [|y ys Hy _ IHys]; cbn [fold_right]; lia. }
    rewrite js_add_int by lia. rewrite IH by (try assumption; lia).
    f_equal. lia.
Qed.

(** *** The quotient *)

(** The quotient of two normal numbers with exponents of integers below
    [2^53]: a normal number within half a unit in the last place of the
    exact quotient. *)
Lemma js_div_normal mx ex my ey :
  Zpos (digits2_pos mx) = 53 -> Zpos (digits2_pos my) = 53 ->
  -52 <= ex <= 0 -> -52 <= ey <= 0 ->
  exists M k,
    js_div (S754_finite false mx ex) (S754_finite false my ey)
    = S754_finite false M (ex - ey - 53 + k)
    /\ 2 ^ 52 <= Zpos M < 2 ^ 53
    /\ 0 <= k <= 2
    /\ 2 * Z.abs (Zpos M * 2 ^ k * Zpos my - Zpos mx * 2 ^ 53)
       <= 2 ^ k * Zpos my.
Proof.
  intros Hdx Hdy Hex Hey.
  pose proof (digits2_pos_bounds mx) as Hbx. rewrite Hdx in Hbx.
  pose proof (digits2_pos_bounds my) as Hby. rewrite Hdy in Hby.
  change (2 ^ (53 - 1)) with (2 ^ 52) in *.
  unfold js_div, SFdiv, SFdiv_core_binary. cbn [Zdigits2 xorb].
  rewrite Hdx, Hdy, fexp_eq.
  replace (Z.min (Z.max (53 + ex - (53 + ey) - 53) (-1074)) (ex - ey))
    with (ex - ey - 53) by lia.
  replace (ex - ey - (ex - ey - 53)) with 53 by lia.
  cbv iota. rewrite Z.shiftl_mul_pow2 by lia.
  pose proof (Z_div_mod (Zpos mx * 2 ^ 53) (Zpos my) eq_refl) as Hdiv.
  destruct (Z.div_eucl (Zpos mx * 2 ^ 53) (Zpos my)) as [q r].
  destruct Hdiv as [Hqr Hr].
  assert (2 ^ 52 <= q < 2 ^ 54) as Hq.
  { change (2 ^ 54) with (2 * 2 ^ 53). change (2 ^ 53) with (2 * 2 ^ 52) in *.
    remember (2 ^ 52) as B. assert (0 < B) by (subst B; reflexivity).
    split; nia. }
  assert (loc_ok (new_location (Zpos my) r) r (Zpos my)) as Hloc
    by (apply new_location_ok; lia).
  destruct (binary_round_aux_spec q (ex - ey - 53) (new_location (Zpos my) r) r
              (Zpos my)) as [M [k [Heq [HM [Hk Herr]]]]];
    try lia; try assumption.
  exists M, k. rewrite Heq. repeat split; lia.
Qed.

(** The quotient of two positive integers, the dividend below [2^48]:
    its value [M / 2^p] is within half a unit in the last place of
    [s / n]. *)
Lemma js_div_int s n :
  0 < s < 2 ^ 48 -> 0 < n < 2 ^ 53 ->
  exists M p,
    js_div (of_int s) (of_int n) = S754_finite false M (Zneg p)
    /\ 2 ^ 52 <= Zpos M < 2 ^ 53
    /\ 2 * Z.abs (Zpos M * n - s * 2 ^ Zpos p) <= n.
Proof.
  intros Hs Hn.
  destruct (of_int_pos s) as [mx [ex [Hx [Hdx [Hex Hmx]]]]]; [lia|].
  destruct (of_int_pos n Hn) as [my [ey [Hy [Hdy [Hey Hmy]]]]].
  destruct (js_div_normal mx ex my ey Hdx Hdy Hex Hey)
    as [M [k [Heq [HM [Hk Herr]]]]].
  pose proof (digits2_pos_bounds mx) as Hbx. rewrite Hdx in Hbx.
  change (2 ^ (53 - 1)) with (2 ^ 52) in Hbx.
  assert (ex <= -5) as Hex'.
  { destruct (Z.leb_spec ex (-5)) as [|Hgt]; [assumption|]. exfalso.
    assert (2 ^ (- ex) <= 2 ^ 4) by (apply Z.pow_le_mono_r; lia).
    change (2 ^ 52) with (2 ^ 48 * 2 ^ 4) in Hbx. nia. }
  destruct (ex - ey - 53 + k) as [|p|p] eqn:Hp; try lia.
  exists M, p. rewrite Hx, Hy, Heq. split; [reflexivity|]. split; [exact HM|].
  rewrite Hmx, Hmy in Herr.
  set (W := 2 ^ (k - ey)).
  assert (0 < W) by (apply Z.pow_pos_nonneg; lia).
  assert (2 ^ k * 2 ^ (- ey) = W) as HW
    by (unfold W; rewrite <- Z.pow_add_r by lia; f_equal; lia).
  assert (2 ^ (- ex) * 2 ^ 53 = 2 ^ Zpos p * W) as HP.
  { unfold W. rewrite <- !Z.pow_add_r by lia. f_equal. lia. }
  replace (Zpos M * 2 ^ k * (n * 2 ^ (- ey)) - s * 2 ^ (- ex) * 2 ^ 53)
    with ((Zpos M * n - s * 2 ^ Zpos p) * W) in Herr by nia.
  replace (2 ^ k * (n * 2 ^ (- ey))) with (n * W) in Herr by nia.
  rewrite Z.abs_mul, (Z.abs_eq W) in Herr by lia. nia.
Qed.

(** *** The first decimal *)

Lemma round1_zero n : 0 < n < 2 ^ 53 -> round1 0 n = Tenths 0.
Proof.
  intros Hn. destruct (of_int_pos n Hn) as [my [ey [Hy _]]].
  unfold round1. rewrite Hy. reflexivity.
Qed.

(** The tenth that [toFixed(1)] picks for [M / P], when [M / P] is within
    [1 / (2 P)] of [s / n] and [P] exceeds [10 n], is a tenth nearest to
    [s / n]. *)
Lemma tenths_bracket M P s n t :
  0 <= s -> 0 < n -> 10 * n < P ->
  2 * Z.abs (M * n - s * P) <= n ->
  t = (20 * M + P) / (2 * P) ->
  (2 * t - 1) * n <= 20 * s <= (2 * t + 1) * n.
Proof.
  intros Hs Hn HP Herr Ht.
  assert (0 < 2 * P) as HP2 by lia.
  pose proof (Z.div_mod (20 * M + P) (2 * P) ltac:(lia)) as Hdm.
  pose proof (Z.mod_pos_bound (20 * M + P) (2 * P) HP2) as Hmb.
  rewrite <- Ht in Hdm.
  set (A := M * n - s * P) in *.
  assert (M * n = s * P + A) as HMn by (unfold A; lia).
  assert (- n <= 2 * A <= n) as HA by lia.
  split.
  - assert ((2 * t - 1) * P <= 20 * M) as H1 by lia.
    assert ((2 * t - 1) * P * n <= 20 * M * n) as H2
      by (apply Z.mul_le_mono_nonneg_r; lia).
    destruct (Z.le_gt_cases ((2 * t - 1) * n) (20 * s)) as [|Hc]; [assumption|].
    exfalso.
    assert (((2 * t - 1) * n) * P >= (20 * s + 1) * P) by nia.
    nia.
  - assert (20 * M < (2 * t + 1) * P) as H1 by lia.
    assert (20 * M * n < (2 * t + 1) * P * n) as H2
      by (apply Z.mul_lt_mono_pos_r; lia).
    destruct (Z.le_gt_cases (20 * s) ((2 * t + 1) * n)) as [|Hc]; [assumption|].
    exfalso.
    assert ((20 * s) * P >= ((2 * t + 1) * n + 1) * P) by nia.
    nia.
Qed.

Lemma round1_nearest s n :
  0 <= s < 2 ^ 48 -> 0 < n < 2 ^ 53 ->
  exists t,
    round1 s n = Tenths t
    /\ 2 * Z.abs (10 * s - t * n) <= n
    /\ ((20 * s) mod (2 * n) <> n -> t = Spec.half_up_tenths s n).
Proof.
  intros Hs Hn.
  destruct (Z.eq_dec s 0) as [->|Hs0].
  - exists 0. rewrite round1_zero by assumption. split; [reflexivity|].
    split; [lia|]. intros _. unfold Spec.half_up_tenths.
    symmetry. apply Z.div_small. lia.
  - destruct (js_div_int s n) as [M [p [Heq [HM Herr]]]]; [lia|lia|].
    unfold round1. rewrite Heq. cbn [toFixed1 cond_Zopp nearest_tenths].
    set (P := 2 ^ Zpos p) in *.
    assert (0 < P) as HP0 by (apply Z.pow_pos_nonneg; lia).
    replace (2 ^ (Zpos p + 1)) with (2 * P)
      by (unfold P; rewrite Z.pow_add_r by lia; change (2 ^ 1) with 2; lia).
    assert (10 * n < P) as HP.
    { assert (2 * (s * P) >= (2 * 2 ^ 52 - 1) * n) as H1 by nia.
      assert (s * P <= 2 ^ 48 * P) as H2
        by (apply Z.mul_le_mono_nonneg_r; lia).
      change (2 ^ 52) with 4503599627370496 in H1.
      change (2 ^ 48) with 281474976710656 in H2. lia. }
    eexists. split; [reflexivity|].
    pose proof (tenths_bracket (Zpos M) P s n _ ltac:(lia) ltac:(lia) HP Herr
                  eq_refl) as [Hlo Hhi].
    set (t := (20 * Zpos M + P) / (2 * P)) in *.
    split; [lia|].
    intros Hnt. unfold Spec.half_up_tenths.
    apply Z.div_unique with (20 * s - (2 * t - 1) * n); [|lia].
    left. split; [lia|].
    destruct (Z.eq_dec (20 * s) ((2 * t + 1) * n)) as [Htie|]; [|lia].
    exfalso. apply Hnt. symmetry. apply Z.mod_unique with t; lia.
Qed.




End JsNumberFacts.

(** ** The averages page *)

Module AveragesFacts.

Import JsObject JsObjectFacts EnumerateFacts Averages Spec.

Lemma in_keys_init_player o p k :
  In k (keys (init_player o p)) <-> In k (keys o) \/ k = player_id p.
Proof.
  unfold init_player.
  induction o as [|[k' v'] o IH]; simpl.
  - intuition congruence.
  - destruct (String.eqb_spec k' (player_id p)) as [->|Hne]; simpl.
    + intuition congruence.
    + rewrite IH. tauto.
Qed.

Lemma in_keys_fold_init players : forall o k,
  In k (keys (fold_left init_player players o)) <->
  In k (keys o) \/ In k (map player_id players).
Proof.
  induction players as [|p players IH]; simpl; intros o k.
  - tauto.
  - rewrite IH, in_keys_init_player. intuition congruence.
Qed.

Lemma known_player_in players stat :
  known_player players stat = true <->
  In (stat_player_id stat) (map player_id players).
Proof.
  unfold known_player. rewrite existsb_exists, in_map_iff.
  split; intros [p [H1 H2]]; exists p.
  - apply String.eqb_eq in H2. tauto.
  - split; [tauto|]. apply String.eqb_eq. tauto.
Qed.

(** The lookup of the loop body finds an entry exactly for the known
    players. *)
Lemma lookup_known players stat :
  match get (init_playerStats players) (stat_player_id stat) with
  | Some _ => true
  | None => false
  end = known_player players stat.
Proof.
  pose proof (get_in_keys (init_playerStats players) (stat_player_id stat)) as Hg.
  unfold init_playerStats in *. rewrite in_keys_fold_init in Hg. simpl in Hg.
  pose proof (known_player_in players stat) as Hk.
  destruct (get _ _), (known_player players stat); try reflexivity.
  - assert (Some p <> None) as Hs by congruence.
    apply Hg in Hs. destruct Hs as [[]|Hs]. apply Hk in Hs. congruence.
  - exfalso. assert (true = true) as Ht by reflexivity.
    apply Hk in Ht. apply (proj2 Hg); [right; exact Ht | reflexivity].
Qed.

(** The guard of the loop body passes for the known players and for the
    names of inherited properties. *)
Lemma guard_known players stat :
  match get (init_playerStats players) (stat_player_id stat) with
  | Some _ => true
  | None => inherited (stat_player_id stat)
  end = known_player players stat || inherited (stat_player_id stat).
Proof.
  pose proof (lookup_known players stat) as H.
  destruct (get _ _); rewrite <- H; reflexivity.
Qed.

(** *** The team totals *)

Lemma snd_fold_add_stat stats : forall o tt,
  snd (fold_left add_stat stats (o, tt)) =
  fold_left tt_add
    (filter (fun stat => match get o (stat_player_id stat) with
                         | Some _ => true
                         | None => inherited (stat_player_id stat)
                         end) stats)
    tt.
Proof.
  induction stats as [|stat stats IH]; intros o tt; [reflexivity|].
  cbn [fold_left filter]. unfold add_stat at 2.
  destruct (get o (stat_player_id stat)) as [p|] eqn:Hget.
  - rewrite IH. cbn [fold_left]. f_equal. apply filter_ext. intros s.
    assert (In (stat_player_id stat) (keys o)) as Hin
      by (apply get_in_keys; congruence).
    pose proof (get_in_keys (set o (stat_player_id stat) (pt_add p stat))
                  (stat_player_id s)) as H1.
    pose proof (get_in_keys o (stat_player_id s)) as H2.
    rewrite keys_set_present in H1 by assumption.
    destruct (get (set _ _ _) _), (get o (stat_player_id s)); try reflexivity.
    + exfalso. apply (proj2 H2); [|reflexivity]. apply H1. congruence.
    + exfalso. apply (proj2 H1); [|reflexivity]. apply H2. congruence.
  - destruct (inherited (stat_player_id stat)).
    + rewrite IH. reflexivity.
    + apply IH.
Qed.

Lemma fold_tt_add rows : forall tt,
  fold_left tt_add rows tt =
  {| tt_points := tt_points tt + sum_of stat_points rows;
     tt_rebounds := tt_rebounds tt + sum_of stat_rebounds rows;
     tt_assists := tt_assists tt + sum_of stat_assists rows;
     tt_steals := tt_steals tt + sum_of stat_steals rows;
     tt_blocks := tt_blocks tt + sum_of stat_blocks rows;
     tt_gamesCount := tt_gamesCount tt + count_of rows |}.
Proof.
  unfold sum_of, count_of.
  induction rows as [|r rows IH]; intros tt.
  - destruct tt; simpl. f_equal; lia.
  - cbn [fold_left]. rewrite IH. cbn [map fold_right List.length tt_add
      tt_points tt_rebounds tt_assists tt_steals tt_blocks tt_gamesCount].
    f_equal; lia.
Qed.

(** The team totals after both loops are the sums over the rows that
    pass the guard. *)
Lemma accumulate_team players stats :
  snd (accumulate players stats) = team_totals_over (summed players stats).
Proof.
  unfold accumulate. rewrite snd_fold_add_stat.
  rewrite (filter_ext _ _ (guard_known players)).
  fold (summed players stats). rewrite fold_tt_add. reflexivity.
Qed.

Lemma in_summed players stats stat :
  In stat (summed players stats) <->
  In stat stats
  /\ (In (stat_player_id stat) (map player_id players)
      \/ inherited (stat_player_id stat) = true).
Proof.
  unfold summed. rewrite filter_In, orb_true_iff, known_player_in. tauto.
Qed.


(** *** Sums within bounds *)

Lemma sum_of_filter field (sel : Stat -> bool) stats :
  (forall r, In r stats -> 0 <= or_zero (field r)) ->
  0 <= sum_of field (filter sel stats) <= sum_of field stats.
Proof.
  unfold sum_of. induction stats as [|r stats IH]; intros Hpos;
    cbn [filter map fold_right]; [lia|].
  assert (0 <= or_zero (field r)) by (apply Hpos; now left).
  assert (forall r', In r' stats -> 0 <= or_zero (field r')) as Hrest
    by (intros r' Hr'; apply Hpos; now right).
  specialize (IH Hrest).
  destruct (sel r); cbn [map fold_right]; lia.
Qed.

Lemma count_of_filter (sel : Stat -> bool) stats :
  0 <= count_of (filter sel stats) <= count_of stats.
Proof.
  unfold count_of. pose proof (filter_length_le sel stats). lia.
Qed.

Lemma small_filter bound (sel : Stat -> bool) stats :
  small bound stats -> small bound (filter sel stats).
Proof.
  intros (Hpos & Hsum & Hcount). split; [|split].
  - intros field r Hf Hr. apply filter_In in Hr. apply Hpos; tauto.
  - intros field Hf.
    pose proof (sum_of_filter field sel stats (fun r => Hpos field r Hf)).
    specialize (Hsum field Hf). lia.
  - pose proof (count_of_filter sel stats). lia.
Qed.

(** Within the bounds the running sums of the language are the integer
    sums. *)
Lemma small_exact field stats :
  small (2 ^ 53) stats -> In field stat_fields -> exact_sum field stats.
Proof.
  intros (Hpos & Hsum & _) Hf. unfold exact_sum, sum_of.
  rewrite <- (Z.add_0_l (fold_right _ _ _)).
  apply JsNumberFacts.js_sum_exact; [lia| |].
  - apply Forall_forall. intros x Hx. apply in_map_iff in Hx.
    destruct Hx as [r [<- Hr]]. now apply Hpos.
  - rewrite Z.add_0_l. exact (Hsum field Hf).
Qed.



(** *** The players' totals *)



(** One turn of the loop on the dictionary: the entry of the row's
    player absorbs the row, the others are untouched. *)
Lemma fst_add_stat o tt stat :
  NoDup (keys o) ->
  fst (add_stat (o, tt) stat) =
  map (fun e => if String.eqb (fst e) (stat_player_id stat)
                then (fst e, pt_add (snd e) stat) else e) o.
Proof.
  intros Hnd. unfold add_stat.
  destruct (get o (stat_player_id stat)) as [p|] eqn:Hget; cbn [fst].
  - rewrite set_present_map; [|assumption|apply get_in_keys; congruence].
    apply map_ext_in. intros [k v] Hin. cbn [fst snd].
    destruct (String.eqb_spec k (stat_player_id stat)) as [->|]; [|reflexivity].
    rewrite (get_in_nodup o _ v Hnd Hin) in Hget. congruence.
  - assert (o = map (fun e => if String.eqb (fst e) (stat_player_id stat)
                              then (fst e, pt_add (snd e) stat) else e) o) as Ho.
    { rewrite <- (map_id o) at 1. apply map_ext_in. intros [k v] Hin.
      cbn [fst snd].
      destruct (String.eqb_spec k (stat_player_id stat)) as [->|]; [|reflexivity].
      exfalso. apply get_none_not_in in Hget. apply Hget.
      change (stat_player_id stat) with (fst (stat_player_id stat, v)).
      now apply in_map. }
    destruct (inherited (stat_player_id stat)); exact Ho.
Qed.

Lemma fst_fold_add_stat stats : forall o tt,
  NoDup (keys o) ->
  fst (fold_left add_stat stats (o, tt)) =
  map (fun e => (fst e, fold_left pt_add (rows_of (fst e) stats) (snd e))) o.
Proof.
  induction stats as [|stat stats IH]; intros o tt Hnd.
  - cbn. rewrite <- (map_id o) at 1. apply map_ext. now intros [k v].
  - cbn [fold_left].
    destruct (add_stat (o, tt) stat) as [o1 tt1] eqn:Hstep.
    assert (o1 = fst (add_stat (o, tt) stat)) as Ho1 by now rewrite Hstep.
    rewrite fst_add_stat in Ho1 by assumption. subst o1.
    rewrite IH.
    + rewrite map_map. apply map_ext. intros [k v]. cbn [fst snd rows_of filter].
      rewrite (String.eqb_sym (stat_player_id stat) k).
      destruct (String.eqb k (stat_player_id stat)); reflexivity.
    + unfold keys in *. rewrite map_map.
      erewrite map_ext; [exact Hnd|]. intros [k v]. cbn [fst].
      now destruct (String.eqb k (stat_player_id stat)).
Qed.

Lemma fold_pt_add rows : forall p,
  fold_left pt_add rows p =
  {| pt_name := pt_name p;
     pt_points := pt_points p + sum_of stat_points rows;
     pt_rebounds := pt_rebounds p + sum_of stat_rebounds rows;
     pt_assists := pt_assists p + sum_of stat_assists rows;
     pt_steals := pt_steals p + sum_of stat_steals rows;
     pt_blocks := pt_blocks p + sum_of stat_blocks rows;
     pt_gamesPlayed := pt_gamesPlayed p + count_of rows |}.
Proof.
  unfold sum_of, count_of.
  induction rows as [|r rows IH]; intros p.
  - destruct p; simpl. f_equal; lia.
  - cbn [fold_left]. rewrite IH. cbn [map fold_right List.length pt_add
      pt_name pt_points pt_rebounds pt_assists pt_steals pt_blocks pt_gamesPlayed].
    f_equal; lia.
Qed.

(** The running totals of the player [p] after both loops. *)
Lemma totals_of_player stats p :
  fold_left pt_add (rows_of (player_id p) stats) (playerTotals0 (player_name p))
  = {| pt_name := player_name p;
       pt_points := sum_of stat_points (rows_of (player_id p) stats);
       pt_rebounds := sum_of stat_rebounds (rows_of (player_id p) stats);
       pt_assists := sum_of stat_assists (rows_of (player_id p) stats);
       pt_steals := sum_of stat_steals (rows_of (player_id p) stats);
       pt_blocks := sum_of stat_blocks (rows_of (player_id p) stats);
       pt_gamesPlayed := count_of (rows_of (player_id p) stats) |}.
Proof. rewrite fold_pt_add. reflexivity. Qed.



(** *** The three operations *)

(** The dictionary after the first loop: distinct keys, the identifiers
    of the players, each with the zero totals of a player of that
    identifier. *)
Lemma init_playerStats_entries players :
  NoDup (keys (init_playerStats players))
  /\ (forall e, In e (init_playerStats players) ->
         exists p, In p players
                   /\ e = (player_id p, playerTotals0 (player_name p)))
  /\ (forall p, In p players -> In (player_id p) (keys (init_playerStats players))).
Proof.
  destruct (fold_set_entries player_id (fun p => playerTotals0 (player_name p))
              players [] (NoDup_nil _)) as [H1 [H2 H3]].
  split; [exact H1|]. split.
  - intros e He. destruct (H2 e He) as [[]|H]. exact H.
  - intros p Hp. apply H3. right. now apply in_map.
Qed.

(** The record computed from the running totals of a player with at least
    one row. *)
Lemma average_of_totals stats p :
  0 < count_of (rows_of (player_id p) stats) ->
  average (fold_left pt_add (rows_of (player_id p) stats)
             (playerTotals0 (player_name p)))
  = {| pa_name := player_name p;
       pa_points := round1 (sum_of stat_points (rows_of (player_id p) stats))
                           (count_of (rows_of (player_id p) stats));
       pa_rebounds := round1 (sum_of stat_rebounds (rows_of (player_id p) stats))
                             (count_of (rows_of (player_id p) stats));
       pa_assists := round1 (sum_of stat_assists (rows_of (player_id p) stats))
                            (count_of (rows_of (player_id p) stats));
       pa_steals := round1 (sum_of stat_steals (rows_of (player_id p) stats))
                           (count_of (rows_of (player_id p) stats));
       pa_blocks := round1 (sum_of stat_blocks (rows_of (player_id p) stats))
                           (count_of (rows_of (player_id p) stats));
       pa_gamesPlayed := count_of (rows_of (player_id p) stats) |}.
Proof.
  intros Hpos. rewrite fold_pt_add. unfold average, or_one.
  cbn [playerTotals0 pt_name pt_points pt_rebounds pt_assists pt_steals
       pt_blocks pt_gamesPlayed Z.add].
  destruct (Z.eqb_spec (count_of (rows_of (player_id p) stats)) 0); [lia|].
  reflexivity.
Qed.


(** The records [calculateAverages] returns for the players: one for each
    entry of the dictionary that absorbed at least one row. *)
Lemma in_fst_calculateAverages players stats events a :
  In a (fst (calculateAverages players stats events)) <->
  exists e,
    In e (init_playerStats players)
    /\ 0 < count_of (rows_of (fst e) stats) + pt_gamesPlayed (snd e)
    /\ a = average (fold_left pt_add (rows_of (fst e) stats) (snd e)).
Proof.
  unfold calculateAverages.
  pose proof (fst_fold_add_stat stats (init_playerStats players) teamTotals0
                (proj1 (init_playerStats_entries players))) as Hacc.
  fold (accumulate players stats) in Hacc.
  destruct (accumulate players stats) as [o tt]. cbn [fst] in *. subst o.
  unfold values. rewrite map_map, filter_In, in_map_iff. cbn [fst snd].
  split.
  - intros [[e' [<- He']] Hpos]. apply (proj1 (in_enumerate _ _)) in He'.
    apply in_map_iff in He'. destruct He' as [e [<- He]]. cbn [snd] in *.
    exists e. split; [exact He|]. split; [|reflexivity].
    cbn [average pa_gamesPlayed] in Hpos. rewrite fold_pt_add in Hpos.
    cbn [pt_gamesPlayed] in Hpos. apply Z.ltb_lt in Hpos. lia.
  - intros [e [He [Hpos ->]]]. split.
    + exists (fst e, fold_left pt_add (rows_of (fst e) stats) (snd e)).
      split; [reflexivity|]. apply in_enumerate. apply in_map_iff.
      now exists e.
    + cbn [average pa_gamesPlayed]. rewrite fold_pt_add. cbn [pt_gamesPlayed].
      apply Z.ltb_lt. lia.
Qed.







(** C4, as the code has it.  For players none of whom has the
    identifier ["__proto__"] and statistic rows whose counts are not
    negative and add up to less than [2^53]: the team running sums and
    the count of records seen range over the records that pass the
    guard of the loop, and over no other record.  These are the records
    whose [player_id] is the identifier of a player of the players
    collection or the name of a property every object inherits; a
    record of any other player is skipped.  Each running sum, as the
    page adds it up, is the sum of the integers. *)
Theorem accumulate_team_totals players stats :
  no_proto players ->
  small (2 ^ 53) stats ->
  snd (accumulate players stats) = team_totals_over (summed players stats)
  /\ (forall stat,
        In stat (summed players stats) <->
        In stat stats
        /\ (In (stat_player_id stat) (map player_id players)
            \/ inherited (stat_player_id stat) = true))
  /\ (forall field, In field stat_fields ->
        exact_sum field (summed players stats)).
Proof.
  intros _ Hsmall.
  split; [apply accumulate_team|]. split; [apply in_summed|].
  intros field Hf. apply small_exact; [|exact Hf].
  unfold summed. now apply small_filter.
Qed.

Lemma accumulate_team_totals_witness :
  no_proto Samples.roster
  /\ small (2 ^ 53) (Samples.statT :: Samples.statX :: Samples.season)
  /\ summed Samples.roster (Samples.statT :: Samples.statX :: Samples.season)
     = Samples.statT :: Samples.season
  /\ snd (accumulate Samples.roster
            (Samples.statT :: Samples.statX :: Samples.season))
     = team_totals_over (Samples.statT :: Samples.season)
  /\ exact_sum stat_points (Samples.statT :: Samples.season).
Proof.
  assert (no_proto Samples.roster) as Hproto.
  { unfold no_proto. simpl. intuition discriminate. }
  assert (small (2 ^ 53) (Samples.statT :: Samples.statX :: Samples.season))
    as Hsmall.
  { split; [|split].
    - intros field r Hf Hr. simpl in Hf, Hr.
      decompose [or] Hf; decompose [or] Hr; subst; try contradiction;
        vm_compute; discriminate.
    - intros field Hf. simpl in Hf.
      decompose [or] Hf; subst; try contradiction; vm_compute; reflexivity.
    - vm_compute. reflexivity. }
  destruct (accumulate_team_totals Samples.roster
              (Samples.statT :: Samples.statX :: Samples.season)
              Hproto Hsmall) as [Hsum [_ Hexact]].
  split; [exact Hproto|]. split; [exact Hsmall|].
  split; [reflexivity|]. split; [exact Hsum|].
  apply (Hexact stat_points). now left.
Defined.

(** C4 fails as stated: a record of an unknown player is left out of
    the team sums and of the count of records. *)
Lemma accumulate_skips_unknown_player :
  tt_points (snd (accumulate Samples.roster (Samples.statX :: Samples.season)))
    <> sum_of stat_points (Samples.statX :: Samples.season)
  /\ tt_gamesCount (snd (accumulate Samples.roster (Samples.statX :: Samples.season)))
    <> count_of (Samples.statX :: Samples.season).
Proof. vm_compute. split; discriminate. Qed.




(** *** The series of a player *)

Section SeriesFacts.

Variable toLocaleDateString : string -> string.

Lemma getPlayerStats_map statistics events playerId :
  getPlayerStats toLocaleDateString statistics events playerId =
  map (fun stat =>
         let event :=
           find (fun e => String.eqb (event_id e) (stat_event_id stat)) events in
         {| sp_event := str_or (option_map event_title event) "Match inconnu";
            sp_date :=
              match option_map event_date event with
              | Some "" => ""
              | Some d => toLocaleDateString d
              | None => ""
              end;
            sp_points := or_zero (stat_points stat);
            sp_rebounds := or_zero (stat_rebounds stat);
            sp_assists := or_zero (stat_assists stat);
            sp_steals := or_zero (stat_steals stat);
            sp_blocks := or_zero (stat_blocks stat) |})
      (rows_of playerId statistics).
Proof.
  unfold getPlayerStats, rows_of.
  destruct (filter _ statistics); reflexivity.
Qed.

Lemma find_none_unresolved events id :
  (forall e, In e events -> event_id e <> id) ->
  find (fun e => String.eqb (event_id e) id) events = None.
Proof.
  intros H. destruct (find _ events) as [e|] eqn:Hf; [|reflexivity].
  apply find_some in Hf. destruct Hf as [Hin Heq].
  apply String.eqb_eq in Heq. now apply H in Hin.
Qed.

(** C6.  [getPlayerSeries] returns one record per statistic row of
    the player, in the order of the statistics collection: the record
    at position [i] carries the five counts of the [i]-th row of the
    player (an absent count as zero); when no event has the row's
    [event_id] its title is ["Match inconnu"] and its date is empty,
    and when an event with a non-empty title has it, that title is
    shown. *)
Theorem getPlayerSeries_rows statistics events playerId :
  List.length (getPlayerSeries toLocaleDateString statistics events playerId)
  = List.length (rows_of playerId statistics)
  /\ forall i row,
       nth_error (rows_of playerId statistics) i = Some row ->
       exists out,
         nth_error (getPlayerSeries toLocaleDateString statistics events playerId) i
         = Some out
         /\ sp_points out = or_zero (stat_points row)
         /\ sp_rebounds out = or_zero (stat_rebounds row)
         /\ sp_assists out = or_zero (stat_assists row)
         /\ sp_steals out = or_zero (stat_steals row)
         /\ sp_blocks out = or_zero (stat_blocks row)
         /\ ((forall e, In e events -> event_id e <> stat_event_id row) ->
             sp_event out = "Match inconnu" /\ sp_date out = "")
         /\ (forall e,
                find (fun e => String.eqb (event_id e) (stat_event_id row)) events
                = Some e ->
                event_title e <> "" -> sp_event out = event_title e).
Proof.
  unfold getPlayerSeries. rewrite getPlayerStats_map. split.
  - apply length_map.
  - intros i row Hrow. eexists. split.
    + apply map_nth_error. exact Hrow.
    + cbn [sp_points sp_rebounds sp_assists sp_steals sp_blocks sp_event sp_date].
      repeat split.
      * rewrite (find_none_unresolved _ _ H). reflexivity.
      * rewrite (find_none_unresolved _ _ H). reflexivity.
      * intros e He Htitle. rewrite He. cbn.
        destruct (event_title e); [congruence | reflexivity].
Qed.

End SeriesFacts.

Lemma getPlayerSeries_rows_witness :
  nth_error (rows_of "p1" (Samples.statX :: Samples.season ++ [Samples.statA3])) 2
  = Some Samples.statA3
  /\ exists out,
       nth_error (getPlayerSeries (fun d => d)
                    (Samples.statX :: Samples.season ++ [Samples.statA3])
                    Samples.games "p1") 2 = Some out
       /\ sp_points out = 7 /\ sp_event out = "Match inconnu" /\ sp_date out = "".
Proof.
  split; [reflexivity|].
  destruct (getPlayerSeries_rows (fun d => d)
              (Samples.statX :: Samples.season ++ [Samples.statA3])
              Samples.games "p1") as [_ H].
  destruct (H 2%nat Samples.statA3 eq_refl)
    as [out [Hout [Hp [_ [_ [_ [_ [Hmissing _]]]]]]]].
  exists out. split; [exact Hout|]. split; [exact Hp|].
  apply Hmissing. intros e [<-|[<-|[]]]; discriminate.
Defined.

End AveragesFacts.

(** ** The game form *)

Module GameFormFacts.

Import GameForm Spec.

(** On validated form values the derivation computes the result the
    scores call for. *)
Lemma deriveGameResult_expected (team opp : option Z) :
  deriveGameResult (score_of team) (score_of opp) = expected_result team opp.
Proof.
  destruct team as [t|], opp as [o|]; try reflexivity.
  unfold deriveGameResult, js_gt, js_lt. cbn.
  destruct (o <? t), (t <? o); reflexivity.
Qed.

(** C3.  The scores the derivation receives are those of the validated
    form values, each a number or absent.  It returns [null] when either
    score is absent, and otherwise [win], [loss] or [draw] as the team
    score is above, below or equal to the opponent score; so 10 to 7 is
    a win, 7 to 10 a loss, 5 to 5 a draw, and 10 against an absent score
    gives [null]. *)
Theorem deriveGameResult_spec (team opp : option Z) :
  let result := deriveGameResult (score_of team) (score_of opp) in
  (result = None <-> team = None \/ opp = None)
  /\ (forall t o, team = Some t -> opp = Some o ->
        (o < t -> result = Some win)
        /\ (t < o -> result = Some loss)
        /\ (t = o -> result = Some draw))
  /\ deriveGameResult (score_of (Some 10)) (score_of (Some 7)) = Some win
  /\ deriveGameResult (score_of (Some 7)) (score_of (Some 10)) = Some loss
  /\ deriveGameResult (score_of (Some 5)) (score_of (Some 5)) = Some draw
  /\ deriveGameResult (score_of (Some 10)) (score_of None) = None.
Proof.
  cbv zeta. rewrite deriveGameResult_expected.
  split; [|split; [|repeat split]].
  - destruct team as [t|], opp as [o|]; cbn [expected_result].
    + split; [|intros [H|H]; discriminate].
      destruct (o <? t), (t <? o); discriminate.
    + split; [now right | reflexivity].
    + split; [now left | reflexivity].
    + split; [now left | reflexivity].
  - intros t o -> ->. cbn [expected_result]. split; [|split].
    + intros H. apply Z.ltb_lt in H. now rewrite H.
    + intros H. assert ((o <? t) = false) as Hgt by (apply Z.ltb_ge; lia).
      rewrite Hgt. apply Z.ltb_lt in H. now rewrite H.
    + intros ->. now rewrite Z.ltb_irrefl.
Qed.

Lemma deriveGameResult_spec_witness :
  (7 < 10 /\ deriveGameResult (score_of (Some 10)) (score_of (Some 7)) = Some win)
  /\ (3 < 4 /\ deriveGameResult (score_of (Some 3)) (score_of (Some 4)) = Some loss)
  /\ (6 = 6 /\ deriveGameResult (score_of (Some 6)) (score_of (Some 6)) = Some draw)
  /\ (deriveGameResult (score_of (Some 10)) (score_of None) = None
      <-> Some 10 = @None Z \/ @None Z = None).
Proof.
  split; [|split; [|split]].
  - split; [lia|].
    apply (proj1 (proj1 (proj2 (deriveGameResult_spec (Some 10) (Some 7)))
                    10 7 eq_refl eq_refl)). lia.
  - split; [lia|].
    apply (proj1 (proj2 (proj1 (proj2 (deriveGameResult_spec (Some 3) (Some 4)))
                           3 4 eq_refl eq_refl))). lia.
  - split; [reflexivity|].
    apply (proj2 (proj2 (proj1 (proj2 (deriveGameResult_spec (Some 6) (Some 6)))
                           6 6 eq_refl eq_refl))). reflexivity.
  - exact (proj1 (deriveGameResult_spec (Some 10) None)).
Defined.

Lemma written_gameData user_id values r :
  written values
    (gameData user_id values
       (deriveGameResult (score_of (gv_team_score values))
                         (score_of (gv_opponent_score values))) r).
Proof.
  unfold written. cbn. rewrite deriveGameResult_expected. auto.
Qed.

Lemma written_consistent values r : written values r -> result_consistent r.
Proof. unfold written, result_consistent. intros [-> [-> ->]]. reflexivity. Qed.

Lemma in_update_event id f st r' :
  In r' (events (update_event id f st)) <->
  exists r, In r (events st) /\
            r' = if String.eqb (ev_id r) id then f r else r.
Proof.
  unfold update_event. cbn [events]. rewrite in_map_iff.
  split; intros [r [H1 H2]]; exists r; auto.
Qed.

(** C8.  A submission of the game form by a signed-in user writes the
    scores of the form together with the result derived from them, on
    both paths.  On the insert path the store gains one event row, which
    holds the form's scores and the result they call for.  On the update
    path every row with the identifier of the edited game holds the
    form's scores and the result they call for, and every other row is
    a row of the store before.  So if every stored result was consistent
    with its scores before, it is afterwards. *)
Theorem onSubmit_persists_derived_result user_id editingGame now values st :
  (editingGame = None ->
   exists r,
     events (onSubmit (Some user_id) editingGame now values st)
     = events st ++ [r]
     /\ written values r)
  /\ (forall g, editingGame = Some g ->
        List.length (events (onSubmit (Some user_id) editingGame now values st))
        = List.length (events st)
        /\ forall r',
             In r' (events (onSubmit (Some user_id) editingGame now values st)) ->
             (ev_id r' = game_id g /\ written values r')
             \/ (ev_id r' <> game_id g /\ In r' (events st)))
  /\ (Forall result_consistent (events st) ->
      Forall result_consistent
        (events (onSubmit (Some user_id) editingGame now values st))).
Proof.
  split; [|split].
  - intros ->. cbn. eexists. split; [reflexivity|]. apply written_gameData.
  - intros g ->. cbn [onSubmit]. split.
    + unfold update_event. cbn [events]. apply length_map.
    + intros r' Hin. apply in_update_event in Hin. destruct Hin as [r [Hin ->]].
      destruct (String.eqb_spec (ev_id r) (game_id g)) as [Heq|Hne].
      * left. split; [exact Heq | apply written_gameData].
      * right. split; assumption.
  - intros Hall. destruct editingGame as [g|]; cbn [onSubmit].
    + rewrite Forall_forall in *. intros r' Hin.
      apply in_update_event in Hin. destruct Hin as [r [Hin ->]].
      destruct (String.eqb (ev_id r) (game_id g)).
      * eapply written_consistent, written_gameData.
      * now apply Hall.
    + unfold insert_event. cbn [events]. apply Forall_app. split; [exact Hall|].
      constructor; [|constructor].
      eapply written_consistent, written_gameData.
Qed.

Lemma onSubmit_persists_derived_result_witness :
  Forall result_consistent (events Samples.store0)
  /\ events (onSubmit (Some "u1") (Some Samples.game_e1) "t1"
               (Samples.final_score (Some 10) (Some 7)) Samples.store0)
     = [Samples.game_row "e1" "Match 1" (Some 10) (Some 7) (Some win)]
  /\ Forall result_consistent
       (events (onSubmit (Some "u1") (Some Samples.game_e1) "t1"
                  (Samples.final_score (Some 10) (Some 7)) Samples.store0))
  /\ exists r,
       events (onSubmit (Some "u1") None "t1"
                 (Samples.final_score (Some 7) None) Samples.store0)
       = events Samples.store0 ++ [r]
       /\ ev_result r = None.
Proof.
  assert (Forall result_consistent (events Samples.store0)) as H0.
  { repeat constructor. }
  split; [exact H0|]. split; [reflexivity|]. split.
  - exact (proj2 (proj2 (onSubmit_persists_derived_result
             "u1" (Some Samples.game_e1) "t1"
             (Samples.final_score (Some 10) (Some 7)) Samples.store0)) H0).
  - destruct (proj1 (onSubmit_persists_derived_result
             "u1" None "t1"
             (Samples.final_score (Some 7) None) Samples.store0) eq_refl)
      as [r [Hr [_ [_ Hres]]]].
    exists r. split; [exact Hr | exact Hres].
Defined.

End GameFormFacts.

(** ** The players page *)

Module PlayersPageFacts.

Import PlayersPage.

Lemma in_filter_other {A} (key : A -> string) p rows r :
  In r (filter (fun r => negb (String.eqb (key r) p)) rows) <->
  In r rows /\ key r <> p.
Proof.
  rewrite filter_In, negb_true_iff, String.eqb_neq. reflexivity.
Qed.

(** C9.  Deleting the player [p] removes every statistic row and every
    attendance row that references [p] and the player row itself; the
    rows that reference another player stay, in their order, and the
    event rows are untouched. *)
Theorem deletePlayer_cascade p st :
  p <> "" ->
  (forall r, In r (statistics (deletePlayer (Some p) st)) <->
             In r (statistics st) /\ st_player_id r <> p)
  /\ (forall r, In r (attendance (deletePlayer (Some p) st)) <->
                In r (attendance st) /\ at_player_id r <> p)
  /\ (forall r, In r (players (deletePlayer (Some p) st)) <->
                In r (players st) /\ pl_id r <> p)
  /\ statistics (deletePlayer (Some p) st)
     = filter (fun r => negb (String.eqb (st_player_id r) p)) (statistics st)
  /\ attendance (deletePlayer (Some p) st)
     = filter (fun r => negb (String.eqb (at_player_id r) p)) (attendance st)
  /\ events (deletePlayer (Some p) st) = events st.
Proof.
  intros Hp.
  assert (deletePlayer (Some p) st =
          delete_players (fun r => String.eqb (pl_id r) p)
            (delete_attendance (fun r => String.eqb (at_player_id r) p)
               (delete_statistics (fun r => String.eqb (st_player_id r) p) st)))
    as ->.
  { unfold deletePlayer. destruct p; [congruence | reflexivity]. }
  cbn [delete_players delete_attendance delete_statistics
       statistics attendance players events].
  split; [|split; [|split; [|split; [|split]]]];
    try reflexivity; intros r; apply in_filter_other.
Qed.

Lemma deletePlayer_cascade_witness :
  "p1" <> ""
  /\ map st_player_id (statistics Samples.store3) = ["p1"; "p2"]
  /\ map at_player_id (attendance Samples.store3) = ["p1"; "p2"]
  /\ map st_player_id (statistics (deletePlayer (Some "p1") Samples.store3))
     = ["p2"]
  /\ map at_player_id (attendance (deletePlayer (Some "p1") Samples.store3))
     = ["p2"]
  /\ events (deletePlayer (Some "p1") Samples.store3) = events Samples.store3.
Proof.
  assert ("p1" <> "") as Hp by discriminate.
  destruct (deletePlayer_cascade "p1" Samples.store3 Hp)
    as [_ [_ [_ [Hs [Ha He]]]]].
  split; [exact Hp|]. split; [reflexivity|]. split; [reflexivity|].
  split; [rewrite Hs; reflexivity|]. split; [rewrite Ha; reflexivity|].
  exact He.
Defined.

End PlayersPageFacts.

(** ** The store: keys and the uniqueness invariant *)

Module StoreFacts.

Lemma triple_eqb_eq a b : triple_eqb a b = true <-> a = b.
Proof.
  destruct a as [[e1 p1] u1], b as [[e2 p2] u2]. unfold triple_eqb.
  rewrite !andb_true_iff, !String.eqb_eq.
  split; [intros [[-> ->] ->]; reflexivity | intros H; inversion H; auto].
Qed.

Lemma existsb_triple k keys :
  existsb (triple_eqb k) keys = true <-> In k keys.
Proof.
  rewrite existsb_exists. split.
  - intros [k' [Hin Heq]]. apply triple_eqb_eq in Heq. now subst.
  - intros Hin. exists k. split; [exact Hin | now apply triple_eqb_eq].
Qed.

Lemma NoDup_snoc {A} (l : list A) x : NoDup l -> ~ In x l -> NoDup (l ++ [x]).
Proof.
  intros Hnd Hx. apply NoDup_app; [assumption | repeat constructor; auto |].
  intros y Hy [<-|[]]. contradiction.
Qed.

(** The rows selected by a key, when keys are unique. *)
Lemma select_unique {A} (key : A -> triple) rows k :
  NoDup (map key rows) ->
  (filter (fun r => triple_eqb (key r) k) rows = [] /\ ~ In k (map key rows))
  \/ (exists r, filter (fun r => triple_eqb (key r) k) rows = [r]
                /\ In r rows /\ key r = k).
Proof.
  induction rows as [|r rows IH]; intros Hnd; [left; split; [reflexivity | tauto]|].
  cbn [map] in Hnd. apply NoDup_cons_iff in Hnd. destruct Hnd as [Hnotin Hnd].
  cbn [filter]. destruct (triple_eqb (key r) k) eqn:Heq.
  - apply triple_eqb_eq in Heq. right. exists r.
    destruct (IH Hnd) as [[Hnone _]|[r' [_ [Hin' Hk']]]].
    + rewrite Hnone. cbn. auto.
    + exfalso. apply Hnotin. rewrite Heq, <- Hk'. now apply in_map.
  - destruct (IH Hnd) as [[Hnone Hnk]|[r' [Hone [Hin' Hk']]]].
    + left. split; [exact Hnone|]. cbn. intros [H|H]; [|contradiction].
      rewrite H in Heq. assert (triple_eqb k k = true) by now apply triple_eqb_eq.
      congruence.
    + right. exists r'. cbn. auto.
Qed.

(** An update by identifier that keeps the key columns keeps the keys. *)
Lemma keys_update {A} (key : A -> triple) (id : A -> string) i (f : A -> A) rows :
  (forall r, key (f r) = key r) ->
  map key (map (fun r => if String.eqb (id r) i then f r else r) rows)
  = map key rows.
Proof.
  intros Hf. rewrite map_map. apply map_ext. intros r.
  destruct (String.eqb (id r) i); [apply Hf | reflexivity].
Qed.

End StoreFacts.

(** ** The attendance page *)

Module AttendanceFacts.

Import AttendancePage Spec StoreFacts.

(** The store accepts an attendance row exactly when its event and its
    player are rows of the store. *)
Lemma references_in event_id player_id st :
  references event_id player_id st = true <->
  In event_id (map ev_id (events st)) /\ In player_id (map pl_id (players st)).
Proof.
  unfold references. rewrite andb_true_iff, !existsb_exists, !in_map_iff.
  split.
  - intros [[e [He Heq]] [p [Hp Hpeq]]]. apply String.eqb_eq in Heq, Hpeq.
    split; [now exists e | now exists p].
  - intros [[e [Heq He]] [p [Hpeq Hp]]].
    split; [exists e | exists p]; (split; [assumption|]);
      now apply String.eqb_eq.
Qed.

(** One turn of the loop writes to the attendance table only. *)
Lemma save_one_frame e u now k v st st' :
  save_one e u now k v st = Some st' ->
  players st' = players st /\ events st' = events st
  /\ statistics st' = statistics st
  /\ (next_id st <= next_id st')%nat.
Proof.
  unfold save_one, insert_attendance.
  destruct (maybeSingle _); [|intros H; inversion H; subst; cbn; auto|discriminate].
  destruct (references _ _ st); [|discriminate].
  intros H. inversion H; subst. cbn. auto.
Qed.

(** One turn of the loop, on a store with unique keys: the lookup does
    not fail; when a row exists the keys are unchanged (an update); when
    none exists the key is appended (an insert), unless the store
    refuses the row, which has no event or no player to refer to. *)
Lemma save_one_keys event_id user_id now playerId present st :
  unique_attendance st ->
  match save_one event_id user_id now playerId present st with
  | Some st' =>
      map at_key (attendance st')
      = map at_key (attendance st)
        ++ (if existsb (triple_eqb (event_id, playerId, user_id))
                       (map at_key (attendance st))
            then [] else [(event_id, playerId, user_id)])
      /\ unique_attendance st'
  | None => references event_id playerId st = false
  end.
Proof.
  unfold unique_attendance, save_one, select_attendance. intros Hnd.
  destruct (select_unique at_key (attendance st) (event_id, playerId, user_id) Hnd)
    as [[Hnone Hnk]|[r [Hone [Hin Hk]]]].
  - rewrite Hnone. cbn [maybeSingle]. unfold insert_attendance.
    cbn [at_event_id at_player_id].
    destruct (references event_id playerId st); [|reflexivity].
    assert (existsb (triple_eqb (event_id, playerId, user_id))
              (map at_key (attendance st)) = false) as Hex.
    { destruct (existsb _ _) eqn:E; [|reflexivity].
      apply existsb_triple in E. contradiction. }
    rewrite Hex. cbn [attendance]. rewrite map_app. cbn [map at_key
      at_event_id at_player_id at_user_id].
    split; [reflexivity|]. now apply NoDup_snoc.
  - rewrite Hone. cbn [maybeSingle].
    assert (existsb (triple_eqb (event_id, playerId, user_id))
              (map at_key (attendance st)) = true) as Hex.
    { apply existsb_triple. rewrite <- Hk. now apply in_map. }
    rewrite Hex, app_nil_r. cbn [update_attendance attendance].
    rewrite (keys_update at_key at_id); [|reflexivity].
    split; [reflexivity | exact Hnd].
Qed.

(** The loop keeps the keys unique, however it ends. *)
Lemma save_loop_unique event_id user_id now entries : forall st,
  unique_attendance st ->
  unique_attendance (fst (save_loop event_id user_id now entries st)).
Proof.
  induction entries as [|[playerId present] entries IH]; intros st Hnd;
    cbn [save_loop]; [exact Hnd|].
  pose proof (save_one_keys event_id user_id now playerId present st Hnd) as H.
  destruct (save_one event_id user_id now playerId present st) as [st'|];
    [|exact Hnd].
  apply IH. tauto.
Qed.

(** A loop that ends normally has added, after the keys of the store,
    the keys of the players that had no row. *)
Lemma save_loop_keys event_id user_id now entries : forall st,
  unique_attendance st ->
  snd (save_loop event_id user_id now entries st) = Done ->
  map at_key (attendance (fst (save_loop event_id user_id now entries st)))
  = map at_key (attendance st)
    ++ missing_keys event_id user_id (JsObject.keys entries)
         (map at_key (attendance st)).
Proof.
  induction entries as [|[playerId present] entries IH]; intros st Hnd.
  - cbn. now rewrite app_nil_r.
  - cbn [save_loop JsObject.keys map fst missing_keys].
    pose proof (save_one_keys event_id user_id now playerId present st Hnd) as H.
    destruct (save_one event_id user_id now playerId present st) as [st'|];
      [|discriminate].
    destruct H as [Hkeys Hnd']. intros Hdone.
    rewrite (IH st' Hnd' Hdone), Hkeys.
    destruct (existsb _ _).
    + now rewrite app_nil_r.
    + rewrite <- app_assoc. reflexivity.
Qed.

(** The loop ends normally when the event and the players of the
    dictionary are rows of the store. *)
Lemma save_loop_done event_id user_id now entries : forall st,
  unique_attendance st ->
  In event_id (map ev_id (events st)) ->
  (forall k, In k (JsObject.keys entries) -> In k (map pl_id (players st))) ->
  snd (save_loop event_id user_id now entries st) = Done.
Proof.
  induction entries as [|[playerId present] entries IH]; intros st Hnd He Hp;
    cbn [save_loop]; [reflexivity|].
  pose proof (save_one_keys event_id user_id now playerId present st Hnd) as H.
  destruct (save_one event_id user_id now playerId present st) as [st'|] eqn:Hstep.
  - destruct (save_one_frame _ _ _ _ _ _ _ Hstep) as (Hpl & Hev & _).
    apply IH; [tauto | now rewrite Hev |].
    intros k Hk. rewrite Hpl. apply Hp. cbn [JsObject.keys map]. now right.
  - exfalso.
    assert (references event_id playerId st = true) as Href.
    { apply references_in. split; [exact He|]. apply Hp.
      cbn [JsObject.keys map fst]. now left. }
    congruence.
Qed.

End AttendanceFacts.

(** ** The statistics form *)

Module StatsFormFacts.

Import JsObject JsObjectFacts StatsForm Spec StoreFacts.

(** One turn of the loop of [saveAllStats]: an entry without [id] adds
    a row under the key of the loop, any other entry leaves the keys as
    they are. *)
Lemma save_stat_keys user_id gameId now playerId playerStat st :
  map st_key (statistics (save_stat user_id gameId now playerId playerStat st))
  = map st_key (statistics st)
    ++ (if without_id (playerId, playerStat)
        then [(gameId, playerId, user_id)] else []).
Proof.
  unfold save_stat, without_id. cbn [snd].
  destruct (ps_id playerStat) as [[|c i]|];
    cbn [insert_statistic update_statistic statistics].
  - rewrite map_app. reflexivity.
  - rewrite (keys_update st_key st_id); [|reflexivity]. now rewrite app_nil_r.
  - rewrite map_app. reflexivity.
Qed.

Lemma fold_save_stat_keys user_id gameId now form : forall st,
  map st_key
    (statistics
       (fold_left (fun st' '(playerId, playerStat) =>
                     save_stat user_id gameId now playerId playerStat st')
                  form st))
  = map st_key (statistics st)
    ++ map (fun e => (gameId, fst e, user_id)) (filter without_id form).
Proof.
  induction form as [|[k ps] form IH]; intros st; cbn [fold_left filter].
  - now rewrite app_nil_r.
  - rewrite IH, save_stat_keys.
    destruct (without_id (k, ps)); cbn [map fst].
    + now rewrite <- app_assoc.
    + now rewrite app_nil_r.
Qed.

(** The keys after [saveAllStats]: those before, then one new key for
    each entry of the form without [id]. *)
Lemma saveAllStats_keys user_id gameId now form st :
  user_id <> "" ->
  map st_key (statistics (saveAllStats (Some user_id) gameId now form st))
  = map st_key (statistics st)
    ++ map (fun e => (gameId, fst e, user_id)) (filter without_id form).
Proof.
  intros Hu. unfold saveAllStats.
  destruct user_id as [|c u]; [congruence|]. apply fold_save_stat_keys.
Qed.

Lemma same_rows_inserts f : forall g,
  same_rows f g ->
  map fst (filter without_id f) = map fst (filter without_id g)
  /\ keys f = keys g.
Proof.
  unfold same_rows, keys.
  induction f as [|[k ps] f IH]; intros [|[k' ps'] g] H; try discriminate.
  - auto.
  - cbn [map fst snd] in H. inversion H as [[Hk Hid Hrest]]. subst k'.
    destruct (IH g Hrest) as [IH1 IH2].
    assert (without_id (k, ps) = without_id (k, ps')) as Hw.
    { unfold without_id. cbn [snd]. now rewrite Hid. }
    cbn [filter map fst]. rewrite Hw.
    destruct (without_id (k, ps')); cbn [map fst]; split; congruence.
Qed.

(** The rows [loadData] selects for the game and the user, and what
    [find] tells about the keys of the store. *)
Lemma find_selected_none gameId user_id playerId rows :
  find (fun stat => String.eqb (st_player_id stat) playerId)
       (filter (fun s => String.eqb (st_event_id s) gameId
                         && String.eqb (st_user_id s) user_id) rows) = None ->
  ~ In (gameId, playerId, user_id) (map st_key rows).
Proof.
  intros Hfind Hin. apply in_map_iff in Hin. destruct Hin as [r [Hkey Hin]].
  unfold st_key in Hkey. inversion Hkey; subst.
  eapply find_none in Hfind.
  - rewrite String.eqb_refl in Hfind. discriminate.
  - apply filter_In. split; [exact Hin|]. now rewrite !String.eqb_refl.
Qed.

Lemma find_selected_some gameId user_id playerId rows row :
  find (fun stat => String.eqb (st_player_id stat) playerId)
       (filter (fun s => String.eqb (st_event_id s) gameId
                         && String.eqb (st_user_id s) user_id) rows) = Some row ->
  In row rows /\ st_key row = (gameId, playerId, user_id).
Proof.
  intros Hfind. apply find_some in Hfind. destruct Hfind as [Hin Hp].
  apply filter_In in Hin. destruct Hin as [Hin Hsel].
  apply andb_true_iff in Hsel. destruct Hsel as [He Hu].
  apply String.eqb_eq in Hp, He, Hu. unfold st_key. split; congruence.
Qed.

Section Loaded.

Variable order_by_name : list PlayerRow -> list PlayerRow.

(** The form as loaded: distinct players, each with its initial
    entry. *)
Lemma loadData_entries user_id gameId st :
  NoDup (keys (loadData order_by_name user_id gameId st))
  /\ forall e, In e (loadData order_by_name user_id gameId st) ->
       snd e =
       initial_entry
         (filter (fun s => String.eqb (st_event_id s) gameId
                           && String.eqb (st_user_id s) user_id)
                 (statistics st))
         gameId (fst e).
Proof.
  unfold loadData.
  destruct (filter _ (events st)) as [|ev [|ev' evs]];
    try (split; [constructor | intros e []]).
  match goal with
  | |- context [fold_left ?f ?l []] =>
      pose proof (fold_set_by_key pl_id
                    (initial_entry
                       (filter (fun s => String.eqb (st_event_id s) gameId
                                         && String.eqb (st_user_id s) user_id)
                               (statistics st)) gameId) l [])
        as H
  end.
  destruct H as [H1 [H2 _]]; [constructor | intros e [] |].
  split; assumption.
Qed.


(** The keys [saveAllStats] adds from a form that holds the rows as
    loaded are new and distinct. *)
Lemma loaded_inserts_fresh user_id gameId st :
  Forall (fun r => st_id r <> "") (statistics st) ->
  NoDup (map (fun e => (gameId, fst e, user_id))
           (filter without_id (loadData order_by_name user_id gameId st)))
  /\ forall k,
       In k (map (fun e => (gameId, fst e, user_id))
               (filter without_id (loadData order_by_name user_id gameId st))) ->
       ~ In k (map st_key (statistics st)).
Proof.
  intros Hids.
  destruct (loadData_entries user_id gameId st) as [Hnd Hent].
  split.
  - assert (NoDup (map fst (filter without_id
               (loadData order_by_name user_id gameId st)))) as Hnd'.
    { revert Hnd. unfold keys.
      generalize (loadData order_by_name user_id gameId st). intros l.
      induction l as [|e l IH]; cbn [map filter]; intros Hnd; [constructor|].
      apply NoDup_cons_iff in Hnd. destruct Hnd as [Hn Hnd].
      destruct (without_id e); [|auto]. cbn [map]. constructor; [|auto].
      intros Hin. apply Hn. apply in_map_iff in Hin.
      destruct Hin as [e' [He' Hin']]. apply filter_In in Hin'.
      rewrite <- He'. apply in_map. tauto. }
    rewrite <- (map_map fst (fun k => (gameId, k, user_id))).
    apply Injective_map_NoDup; [|exact Hnd'].
    intros a b Hab. congruence.
  - intros k Hin. apply in_map_iff in Hin. destruct Hin as [e [<- Hin]].
    apply filter_In in Hin. destruct Hin as [Hin Hno].
    apply Hent in Hin. unfold without_id in Hno. rewrite Hin in Hno.
    unfold initial_entry in Hno.
    destruct (find _ _) as [row|] eqn:Hfind.
    + exfalso. apply find_selected_some in Hfind. destruct Hfind as [Hrow _].
      rewrite Forall_forall in Hids. apply Hids in Hrow.
      cbn [of_row ps_id] in Hno. destruct (st_id row); [congruence|discriminate].
    + now apply find_selected_none.
Qed.

End Loaded.

(** Editing a count of a player of the form changes neither the players
    of the form nor the row identifiers it holds. *)
Lemma handleStatChange_same_rows playerId statName parsed prev :
  In playerId (keys prev) ->
  same_rows (handleStatChange playerId statName parsed prev) prev.
Proof.
  unfold same_rows, handleStatChange.
  induction prev as [|[k e] prev IH]; cbn [keys map In fst]; [tauto|].
  intros Hin. cbn [get set].
  destruct (String.eqb_spec k playerId) as [->|Hne]; cbn [map fst snd].
  - reflexivity.
  - f_equal. apply IH. destruct Hin; [congruence | assumption].
Qed.

Lemma handleStatChanges_same_rows edits : forall form,
  Forall (fun e => In (fst (fst e)) (keys form)) edits ->
  same_rows (handleStatChanges edits form) form.
Proof.
  unfold handleStatChanges.
  induction edits as [|[[playerId statName] parsed] edits IH]; intros form Hall;
    cbn [fold_left]; [reflexivity|].
  apply Forall_cons_iff in Hall. destruct Hall as [Hin Hall]. cbn [fst] in Hin.
  pose proof (handleStatChange_same_rows playerId statName parsed form Hin) as H1.
  unfold same_rows in *. rewrite IH; [exact H1|].
  destruct (same_rows_inserts _ _ H1) as [_ Hkeys]. now rewrite Hkeys.
Qed.

(** The statistics path keeps the triples unique when the form holds
    the rows as loaded from the store it is saved to. *)
Lemma saveAllStats_unique order_by_name user gameId now form st :
  unique_statistics st ->
  Forall (fun r => st_id r <> "") (statistics st) ->
  same_rows form (loadData order_by_name (match user with
                                          | Some u => u
                                          | None => ""
                                          end) gameId st) ->
  unique_statistics (saveAllStats user gameId now form st).
Proof.
  intros Hnd Hids Hsame. destruct user as [user_id|]; [|exact Hnd].
  destruct (string_dec user_id "") as [->|Hu]; [exact Hnd|].
  unfold unique_statistics. rewrite saveAllStats_keys by assumption.
  destruct (same_rows_inserts _ _ Hsame) as [Hins _].
  rewrite <- (map_map fst (fun k => (gameId, k, user_id))), Hins, map_map.
  destruct (loaded_inserts_fresh order_by_name user_id gameId st Hids)
    as [Hnew Hfresh].
  apply NoDup_app; [exact Hnd | exact Hnew |].
  intros k Hk Hk'. exact (Hfresh k Hk' Hk).
Qed.

End StatsFormFacts.

(** ** Saving the statistics of a game for the whole roster *)

Module RosterFacts.

Import JsObject JsObjectFacts StatsForm Spec StoreFacts StatsFormFacts.
Import Averages.



Lemma saveAllStats_signed_in user_id gameId now form st :
  user_id <> "" ->
  saveAllStats (Some user_id) gameId now form st
  = fold_left (fun st' '(playerId, playerStat) =>
                 save_stat user_id gameId now playerId playerStat st')
              form st.
Proof. intros Hu. unfold saveAllStats. destruct user_id; [congruence | reflexivity]. Qed.




Lemma NoDup_map_filter {A B} (f : A -> B) (sel : A -> bool) l :
  NoDup (map f l) -> NoDup (map f (filter sel l)).
Proof.
  induction l as [|x l IH]; cbn [map filter]; intros Hnd; [constructor|].
  apply NoDup_cons_iff in Hnd. destruct Hnd as [Hx Hnd].
  destruct (sel x); [|auto]. cbn [map]. constructor; [|auto].
  intros Hin. apply Hx. apply in_map_iff in Hin. destruct Hin as [y [Hy Hin]].
  apply filter_In in Hin. rewrite <- Hy. apply in_map. tauto.
Qed.

End RosterFacts.

(** ** Dictionaries: reading after writing *)

Module JsObjectLaws.

Import JsObject JsObjectFacts Keys Invariants.

Section Laws.
Context {V : Type}.
Implicit Types (o : obj V) (k : string) (v : V).

Lemma get_set o k v k' :
  get (set o k v) k' = if String.eqb k k' then Some v else get o k'.
Proof.
  induction o as [|[k0 v0] o IH]; cbn [set get].
  - destruct (String.eqb k k'); reflexivity.
  - destruct (String.eqb_spec k0 k) as [->|Hne]; cbn [get].
    + destruct (String.eqb_spec k k') as [->|]; reflexivity.
    + rewrite IH. destruct (String.eqb_spec k0 k') as [->|]; [|reflexivity].
      destruct (String.eqb_spec k k'); [congruence | reflexivity].
Qed.

Lemma get_set_same o k v : get (set o k v) k = Some v.
Proof. now rewrite get_set, String.eqb_refl. Qed.

Lemma get_set_other o k v k' : k <> k' -> get (set o k v) k' = get o k'.
Proof.
  intros Hne. rewrite get_set. destruct (String.eqb_spec k k'); [congruence|].
  reflexivity.
Qed.



Lemma get_some_in o k v : get o k = Some v -> In (k, v) o.
Proof.
  induction o as [|[k0 v0] o IH]; cbn [get]; [discriminate|].
  destruct (String.eqb_spec k0 k) as [->|Hne].
  - intros H. inversion H. now left.
  - intros H. right. now apply IH.
Qed.

(** Two dictionaries with the same keys in the same order and the same
    value under each key are the same dictionary. *)
Lemma obj_ext o : forall o',
  NoDup (keys o) -> keys o = keys o' ->
  (forall k, In k (keys o) -> get o k = get o' k) ->
  o = o'.
Proof.
  induction o as [|[k v] o IH]; intros [|[k' v'] o'] Hnd Hk Hget;
    try discriminate; [reflexivity|].
  cbn [keys map fst] in Hk. inversion Hk as [[Hk1 Hk2]]. subst k'.
  apply NoDup_cons_iff in Hnd. destruct Hnd as [Hnotin Hnd].
  pose proof (Hget k (or_introl eq_refl)) as Hv. cbn [get] in Hv.
  rewrite String.eqb_refl in Hv. inversion Hv; subst v'.
  f_equal. apply IH; [exact Hnd | exact Hk2 |].
  intros k2 Hk2'. pose proof (Hget k2 (or_intror Hk2')) as H2. cbn [get] in H2.
  destruct (String.eqb_spec k k2) as [->|]; [contradiction | exact H2].
Qed.

Lemma existsb_eqb_in k ks : existsb (String.eqb k) ks = true <-> In k ks.
Proof.
  rewrite existsb_exists. split.
  - intros [x [Hx Heq]]. apply String.eqb_eq in Heq. now subst.
  - intros H. exists k. split; [exact H | apply String.eqb_refl].
Qed.


Lemma add_key_in ks k : In k ks -> add_key ks k = ks.
Proof. intros H. unfold add_key. apply existsb_eqb_in in H. now rewrite H. Qed.

Lemma fold_add_key_in new : forall ks,
  Forall (fun k => In k ks) new -> fold_left add_key new ks = ks.
Proof.
  induction new as [|k new IH]; intros ks H; cbn [fold_left]; [reflexivity|].
  apply Forall_cons_iff in H. destruct H as [Hk H].
  rewrite add_key_in by assumption. now apply IH.
Qed.

Section Fold.
Context {R : Type} (key : R -> string) (val : R -> V).

Let step := fun o (r : R) => set o (key r) (val r).




End Fold.

End Laws.

End JsObjectLaws.

Module ListLaws.

Lemma Permutation_filter {A} (f : A -> bool) l l' :
  Permutation l l' -> Permutation (filter f l) (filter f l').
Proof.
  induction 1 as [|x l l' _ IH|x y l|l l' l'' _ IH1 _ IH2]; cbn [filter].
  - constructor.
  - destruct (f x); [now constructor | exact IH].
  - destruct (f x), (f y); try apply Permutation_refl. apply perm_swap.
  - now transitivity (filter f l').
Qed.

Lemma Permutation_sum l l' :
  Permutation l l' -> fold_right Z.add 0 l = fold_right Z.add 0 l'.
Proof.
  induction 1 as [|x l l' _ IH|x y l|l l' l'' _ IH1 _ IH2]; cbn [fold_right];
    lia.
Qed.

End ListLaws.

(** ** The averages page: what the aggregation keeps *)

Module AveragesLaws.

Import JsObject JsObjectFacts JsObjectLaws ListLaws Averages Spec Invariants.
Import AveragesFacts.

Lemma total_zero (f : PlayerTotals -> Z) o :
  (forall e, In e o -> f (snd e) = 0) -> total f o = 0.
Proof.
  unfold total. induction o as [|e o IH]; intros H; cbn [map fold_right].
  - reflexivity.
  - rewrite (H e) by now left. rewrite IH; [reflexivity|].
    intros e' He'. apply H. now right.
Qed.

Lemma total_set (f : PlayerTotals -> Z) o k p v :
  NoDup (keys o) -> get o k = Some p ->
  total f (set o k v) = total f o - f p + f v.
Proof.
  unfold total.
  induction o as [|[k0 v0] o IH]; cbn [get set keys map]; intros Hnd Hget;
    [discriminate|].
  apply NoDup_cons_iff in Hnd. destruct Hnd as [_ Hnd].
  destruct (String.eqb_spec k0 k) as [->|Hne]; cbn [map fold_right snd].
  - inversion Hget; subst. lia.
  - rewrite (IH Hnd Hget). lia.
Qed.

(** The keys of a dictionary are those that were defined before an
    entry of it was overwritten. *)
Lemma get_set_none (o : obj PlayerTotals) k v k' :
  In k (keys o) -> (get (set o k v) k' = None <-> get o k' = None).
Proof.
  intros Hin. rewrite get_set.
  destruct (String.eqb_spec k k') as [<-|Hne]; [|tauto].
  apply get_in_keys in Hin. split; [discriminate | contradiction].
Qed.

(** What the team holds above the players, in one running total: each
    row that passes the guard without an entry of its player adds to
    it. *)
Lemma gap_fold (ft : TeamTotals -> Z) (fp : PlayerTotals -> Z) (val : Stat -> Z) :
  (forall tt s, ft (tt_add tt s) = ft tt + val s) ->
  (forall p s, fp (pt_add p s) = fp p + val s) ->
  forall stats o tt,
    NoDup (keys o) ->
    ft (snd (fold_left add_stat stats (o, tt)))
    = total fp (fst (fold_left add_stat stats (o, tt)))
      + (ft tt - total fp o)
      + fold_right Z.add 0
          (map val
             (filter (fun s => match get o (stat_player_id s) with
                               | Some _ => false
                               | None => inherited (stat_player_id s)
                               end) stats)).
Proof.
  intros Ht Hp.
  induction stats as [|s stats IH]; intros o tt Hnd; cbn [fold_left filter].
  - cbn [fst snd map fold_right]. lia.
  - unfold add_stat at 2 4.
    destruct (get o (stat_player_id s)) as [p|] eqn:Hget.
    + rewrite IH by now apply nodup_set.
      rewrite (total_set fp o _ p) by assumption. rewrite Ht, Hp.
      assert (In (stat_player_id s) (keys o)) as Hin
        by (apply get_in_keys; congruence).
      rewrite (filter_ext
                 (fun s0 => match get (set o (stat_player_id s) (pt_add p s))
                                      (stat_player_id s0) with
                            | Some _ => false
                            | None => inherited (stat_player_id s0)
                            end)
                 (fun s0 => match get o (stat_player_id s0) with
                            | Some _ => false
                            | None => inherited (stat_player_id s0)
                            end)).
      * lia.
      * intros s0.
        pose proof (get_set_none o (stat_player_id s) (pt_add p s)
                      (stat_player_id s0) Hin) as Hn.
        destruct (get (set _ _ _) _), (get o (stat_player_id s0));
          try reflexivity.
        -- exfalso. assert (Some p0 = None) by now apply Hn. discriminate.
        -- exfalso. assert (Some p0 = None) by now apply Hn. discriminate.
    + destruct (inherited (stat_player_id s)).
      * rewrite IH by assumption. rewrite Ht. cbn [map fold_right]. lia.
      * now apply IH.
Qed.

(** Dropping the entries without a row does not change the number of
    rows the entries absorbed. *)
Lemma sum_gamesPlayed_filter (l : list PlayerTotals) :
  (forall p, In p l -> 0 <= pt_gamesPlayed p) ->
  fold_right Z.add 0
    (map pa_gamesPlayed
       (filter (fun a => 0 <? pa_gamesPlayed a) (map average l)))
  = fold_right Z.add 0 (map pt_gamesPlayed l).
Proof.
  induction l as [|p l IH]; intros Hpos; cbn [map filter fold_right];
    [reflexivity|].
  assert (0 <= pt_gamesPlayed p) as Hp by (apply Hpos; now left).
  assert (forall q, In q l -> 0 <= pt_gamesPlayed q) as Hl
    by (intros q Hq; apply Hpos; now right).
  cbn [average pa_gamesPlayed].
  destruct (Z.ltb_spec 0 (pt_gamesPlayed p)); cbn [map fold_right pa_gamesPlayed
    average]; rewrite (IH Hl); lia.
Qed.

Lemma accumulate_gamesPlayed_nonneg players stats e :
  In e (fst (accumulate players stats)) -> 0 <= pt_gamesPlayed (snd e).
Proof.
  unfold accumulate.
  rewrite fst_fold_add_stat by apply init_playerStats_entries.
  intros He. apply in_map_iff in He. destruct He as [e0 [<- He0]].
  cbn [snd]. rewrite fold_pt_add. cbn [pt_gamesPlayed].
  destruct (init_playerStats_entries players) as [_ [Hent _]].
  destruct (Hent e0 He0) as [p [_ ->]]. cbn [snd playerTotals0 pt_gamesPlayed].
  unfold count_of. lia.
Qed.

Lemma sum_ones {A} (l : list A) :
  fold_right Z.add 0 (map (fun _ => 1) l) = Z.of_nat (List.length l).
Proof. induction l as [|x l IH]; cbn [map fold_right List.length]; lia. Qed.

Lemma stray_guard players stat :
  match get (init_playerStats players) (stat_player_id stat) with
  | Some _ => false
  | None => inherited (stat_player_id stat)
  end = negb (known_player players stat) && inherited (stat_player_id stat).
Proof.
  pose proof (lookup_known players stat) as H.
  destruct (get _ _); rewrite <- H; reflexivity.
Qed.

Lemma accumulate_gap players stats :
  balanced_up_to (stray players stats) (accumulate players stats).
Proof.
  destruct (init_playerStats_entries players) as [Hnd [Hent _]].
  assert (forall fp : PlayerTotals -> Z,
             (forall name, fp (playerTotals0 name) = 0) ->
             total fp (init_playerStats players) = 0) as Hzero.
  { intros fp H0. apply total_zero. intros e He.
    destruct (Hent e He) as [p [_ ->]]. apply H0. }
  assert (forall ft fp val,
             (forall tt s, ft (tt_add tt s) = ft tt + val s) ->
             (forall p s, fp (pt_add p s) = fp p + val s) ->
             ft teamTotals0 = 0 ->
             (forall name, fp (playerTotals0 name) = 0) ->
             ft (snd (accumulate players stats))
             = total fp (fst (accumulate players stats))
               + fold_right Z.add 0 (map val (stray players stats))) as Hgap.
  { intros ft fp val Ht Hp Ht0 Hp0. unfold accumulate.
    rewrite (gap_fold ft fp val Ht Hp stats _ _ Hnd).
    rewrite Ht0, (Hzero fp Hp0).
    rewrite (filter_ext _ _ (stray_guard players)). fold (stray players stats).
    lia. }
  unfold balanced_up_to.
  destruct (accumulate players stats) as [o tt] eqn:Hacc. cbn [fst snd] in Hgap.
  unfold sum_of, count_of. rewrite <- sum_ones.
  repeat split; apply Hgap; try reflexivity; intros; cbn; lia.
Qed.

Lemma count_split {A} (a b : A -> bool) l :
  Z.of_nat (List.length (filter (fun x => a x || b x) l))
  = Z.of_nat (List.length (filter a l))
    + Z.of_nat (List.length (filter (fun x => negb (a x) && b x) l)).
Proof.
  induction l as [|x l IH]; cbn [filter]; [reflexivity|].
  destruct (a x), (b x); cbn [orb negb andb List.length]; lia.
Qed.

Lemma in_stray players stats stat :
  In stat (stray players stats) <->
  In stat stats
  /\ ~ In (stat_player_id stat) (map player_id players)
  /\ inherited (stat_player_id stat) = true.
Proof.
  unfold stray. rewrite filter_In, andb_true_iff, negb_true_iff.
  rewrite <- known_player_in.
  destruct (known_player players stat); intuition congruence.
Qed.

(** X1.  The two sets of running totals of [calculateAverages] after the
    loops, for players none of whom has the identifier ["__proto__"] and
    rows whose counts are not negative and add up to less than [2^53].
    For each of the five counts and for the number of rows, the total
    of the team is the totals of the players added up, plus the sum
    over the rows that pass the guard without being rows of a player:
    those whose [player_id] is the name of a property every object
    inherits and is the identifier of no player.  Without such a row
    the two sets of totals agree.  The [gamesPlayed] of the players the
    page lists add up to the number of rows of players of the
    collection. *)
Theorem calculateAverages_totals_agree players stats events :
  no_proto players ->
  small (2 ^ 53) stats ->
  balanced_up_to (stray players stats) (accumulate players stats)
  /\ (forall stat,
        In stat (stray players stats) <->
        In stat stats
        /\ ~ In (stat_player_id stat) (map player_id players)
        /\ inherited (stat_player_id stat) = true)
  /\ (stray players stats = [] -> balanced (accumulate players stats))
  /\ fold_right Z.add 0
       (map pa_gamesPlayed (fst (calculateAverages players stats events)))
     = count_of (counted players stats)
  /\ count_of (summed players stats)
     = count_of (counted players stats) + count_of (stray players stats).
Proof.
  intros _ _.
  pose proof (accumulate_gap players stats) as Hb.
  assert (count_of (summed players stats)
          = count_of (counted players stats) + count_of (stray players stats))
    as Hsplit.
  { unfold count_of, summed, counted, stray. apply count_split. }
  split; [exact Hb|]. split; [apply in_stray|]. split; [|split; [|exact Hsplit]].
  - intros Hnone. rewrite Hnone in Hb. unfold balanced_up_to, balanced in *.
    destruct (accumulate players stats) as [o tt].
    unfold sum_of, count_of in Hb. cbn [map fold_right List.length Z.of_nat] in Hb.
    destruct Hb as (H1 & H2 & H3 & H4 & H5 & H6). repeat split; lia.
  - assert (tt_gamesCount (snd (accumulate players stats))
            = count_of (summed players stats)) as Hteam
      by now rewrite accumulate_team.
    unfold calculateAverages.
    pose proof (accumulate_gamesPlayed_nonneg players stats) as Hpos.
    destruct (accumulate players stats) as [o tt]. cbn [fst snd] in *.
    destruct Hb as (_ & _ & _ & _ & _ & H6).
    assert (fold_right Z.add 0
              (map pa_gamesPlayed
                 (filter (fun a => 0 <? pa_gamesPlayed a)
                    (map average (values (enumerate o)))))
            = total pt_gamesPlayed o) as Hsum.
    { rewrite sum_gamesPlayed_filter.
      - unfold values, total. rewrite map_map.
        apply Permutation_sum. apply Permutation_map.
        apply EnumerateFacts.enumerate_perm.
      - intros p Hp. unfold values in Hp. apply in_map_iff in Hp.
        destruct Hp as [e [<- He]].
        apply Hpos. now apply (proj1 (EnumerateFacts.in_enumerate _ _)). }
    rewrite Hsum. lia.
Qed.

Lemma calculateAverages_totals_agree_witness :
  no_proto Samples.roster
  /\ small (2 ^ 53) (Samples.statT :: Samples.season)
  /\ stray Samples.roster (Samples.statT :: Samples.season) = [Samples.statT]
  /\ balanced_up_to [Samples.statT]
       (accumulate Samples.roster (Samples.statT :: Samples.season))
  /\ tt_points (snd (accumulate Samples.roster
                        (Samples.statT :: Samples.season))) = 40
  /\ total pt_points (fst (accumulate Samples.roster
                              (Samples.statT :: Samples.season))) = 30.
Proof.
  assert (no_proto Samples.roster) as Hproto.
  { unfold no_proto. simpl. intuition discriminate. }
  assert (small (2 ^ 53) (Samples.statT :: Samples.season)) as Hsmall.
  { split; [|split].
    - intros field r Hf Hr. simpl in Hf, Hr.
      decompose [or] Hf; decompose [or] Hr; subst; try contradiction;
        vm_compute; discriminate.
    - intros field Hf. simpl in Hf.
      decompose [or] Hf; subst; try contradiction; vm_compute; reflexivity.
    - vm_compute. reflexivity. }
  split; [exact Hproto|]. split; [exact Hsmall|]. split; [reflexivity|].
  split; [|split; reflexivity].
  exact (proj1 (calculateAverages_totals_agree Samples.roster
                  (Samples.statT :: Samples.season) Samples.games
                  Hproto Hsmall)).
Defined.

(** *** The order of the rows *)

Lemma sum_of_perm field rows rows' :
  Permutation rows rows' -> sum_of field rows = sum_of field rows'.
Proof.
  intros H. unfold sum_of. apply Permutation_sum. now apply Permutation_map.
Qed.

Lemma count_of_perm (rows rows' : list Stat) :
  Permutation rows rows' -> count_of rows = count_of rows'.
Proof. intros H. unfold count_of. now rewrite (Permutation_length H). Qed.

Lemma accumulate_perm players stats stats' :
  Permutation stats stats' -> accumulate players stats = accumulate players stats'.
Proof.
  intros Hperm.
  rewrite (surjective_pairing (accumulate players stats)).
  rewrite (surjective_pairing (accumulate players stats')).
  f_equal.
  - unfold accumulate.
    rewrite !fst_fold_add_stat by apply init_playerStats_entries.
    apply map_ext. intros e. f_equal. rewrite !fold_pt_add.
    assert (Permutation (rows_of (fst e) stats) (rows_of (fst e) stats')) as Hr
      by now apply Permutation_filter.
    rewrite !(sum_of_perm _ _ _ Hr), (count_of_perm _ _ Hr). reflexivity.
  - rewrite !accumulate_team. unfold team_totals_over.
    assert (Permutation (summed players stats) (summed players stats')) as Hc
      by now apply Permutation_filter.
    rewrite !(sum_of_perm _ _ _ Hc), (count_of_perm _ _ Hc). reflexivity.
Qed.

Lemma small_perm bound stats stats' :
  Permutation stats stats' -> small bound stats -> small bound stats'.
Proof.
  intros Hperm (Hpos & Hsum & Hcount). split; [|split].
  - intros field r Hf Hr. apply (Hpos field r Hf).
    now apply (Permutation_in _ (Permutation_sym Hperm)).
  - intros field Hf. rewrite <- (sum_of_perm field _ _ Hperm). now apply Hsum.
  - now rewrite <- (count_of_perm _ _ Hperm).
Qed.

(** X2.  The store returns the statistic rows and the game events in
    no particular order, and the result of [calculateAverages] does not
    depend on it.  For players none of whom has the identifier
    ["__proto__"] and rows whose counts are not negative and add up to
    less than [2^53]: over the rows a test selects (the rows of a
    player, or those that pass the guard), each running sum of the page
    is the same number in both orders, the sum of the integers; and
    rows in another order, with any collection of as many events, give
    the same player and team averages. *)
Theorem calculateAverages_order_independent
    players stats stats' events events' :
  no_proto players ->
  small (2 ^ 53) stats ->
  Permutation stats stats' ->
  List.length events = List.length events' ->
  (forall field (sel : Stat -> bool),
      In field stat_fields ->
      exact_sum field (filter sel stats)
      /\ exact_sum field (filter sel stats')
      /\ JsNumber.js_sum (JsNumber.of_int 0)
           (map (fun r => or_zero (field r)) (filter sel stats))
         = JsNumber.js_sum (JsNumber.of_int 0)
             (map (fun r => or_zero (field r)) (filter sel stats')))
  /\ calculateAverages players stats events
     = calculateAverages players stats' events'.
Proof.
  intros _ Hsmall Hperm Hlen. split.
  - intros field sel Hf.
    assert (exact_sum field (filter sel stats)) as H1
      by (apply small_exact; [now apply small_filter | exact Hf]).
    assert (exact_sum field (filter sel stats')) as H2.
    { apply small_exact; [|exact Hf]. apply small_filter.
      exact (small_perm _ _ _ Hperm Hsmall). }
    split; [exact H1|]. split; [exact H2|].
    unfold exact_sum in H1, H2. rewrite H1, H2. f_equal.
    apply sum_of_perm. now apply Permutation_filter.
  - unfold calculateAverages.
    rewrite (accumulate_perm players stats stats' Hperm).
    destruct (accumulate players stats') as [o tt].
    unfold team_average. now rewrite Hlen.
Qed.

Lemma calculateAverages_order_independent_witness :
  no_proto Samples.roster
  /\ small (2 ^ 53) Samples.season
  /\ Permutation Samples.season (rev Samples.season)
  /\ List.length Samples.games = List.length (rev Samples.games)
  /\ calculateAverages Samples.roster Samples.season Samples.games
     = calculateAverages Samples.roster (rev Samples.season) (rev Samples.games).
Proof.
  assert (no_proto Samples.roster) as Hproto.
  { unfold no_proto. simpl. intuition discriminate. }
  assert (small (2 ^ 53) Samples.season) as Hsmall.
  { split; [|split].
    - intros field r Hf Hr. simpl in Hf, Hr.
      decompose [or] Hf; decompose [or] Hr; subst; try contradiction;
        vm_compute; discriminate.
    - intros field Hf. simpl in Hf.
      decompose [or] Hf; subst; try contradiction; vm_compute; reflexivity.
    - vm_compute. reflexivity. }
  assert (Permutation Samples.season (rev Samples.season)) as Hp
    by apply Permutation_rev.
  assert (List.length Samples.games = List.length (rev Samples.games)) as Hl
    by reflexivity.
  split; [exact Hproto|]. split; [exact Hsmall|].
  split; [exact Hp|]. split; [exact Hl|].
  exact (proj2 (calculateAverages_order_independent Samples.roster _ _ _ _
                  Hproto Hsmall Hp Hl)).
Defined.

(** *** Where an average lies *)

Lemma round1_between s n lo hi :
  0 <= s < 2 ^ 48 -> 0 < n < 2 ^ 53 ->
  lo * n <= s <= hi * n ->
  exists t, round1 s n = Tenths t /\ 10 * lo <= t <= 10 * hi.
Proof.
  intros Hs Hn Hb.
  destruct (JsNumberFacts.round1_nearest s n Hs Hn) as [t [Ht [Herr _]]].
  exists t. split; [exact Ht|]. split; nia.
Qed.

Lemma round1_increasing s s' n :
  0 <= s <= s' -> s' < 2 ^ 48 -> 0 < n < 2 ^ 53 ->
  exists t t', round1 s n = Tenths t /\ round1 s' n = Tenths t' /\ t <= t'.
Proof.
  intros Hs Hs' Hn.
  destruct (JsNumberFacts.round1_nearest s n ltac:(lia) Hn) as [t [Ht [Herr _]]].
  destruct (JsNumberFacts.round1_nearest s' n ltac:(lia) Hn)
    as [t' [Ht' [Herr' _]]].
  exists t, t'. split; [exact Ht|]. split; [exact Ht'|].
  destruct (Z.eq_dec s s') as [->|Hne].
  - rewrite Ht in Ht'. inversion Ht'. lia.
  - nia.
Qed.

Lemma round1_decreasing s n n' :
  0 <= s < 2 ^ 48 -> 0 < n <= n' -> n' < 2 ^ 53 ->
  exists t t', round1 s n = Tenths t /\ round1 s n' = Tenths t' /\ t' <= t.
Proof.
  intros Hs Hn Hn'.
  destruct (JsNumberFacts.round1_nearest s n Hs ltac:(lia)) as [t [Ht [Herr _]]].
  destruct (JsNumberFacts.round1_nearest s n' Hs ltac:(lia))
    as [t' [Ht' [Herr' _]]].
  exists t, t'. split; [exact Ht|]. split; [exact Ht'|].
  destruct (Z.eq_dec n n') as [->|Hne].
  - rewrite Ht in Ht'. inversion Ht'. lia.
  - assert (0 <= t) by nia. nia.
Qed.

Lemma sum_of_between field rows lo hi :
  (forall r, In r rows -> lo <= or_zero (field r) <= hi) ->
  lo * count_of rows <= sum_of field rows <= hi * count_of rows.
Proof.
  unfold sum_of, count_of.
  induction rows as [|r rows IH]; intros H; cbn [map fold_right List.length].
  - lia.
  - assert (lo <= or_zero (field r) <= hi) by (apply H; now left).
    assert (forall r', In r' rows -> lo <= or_zero (field r') <= hi) as H'
      by (intros r' Hr'; apply H; now right).
    specialize (IH H'). lia.
Qed.

(** X3.  An average of a player the page lists lies between the lowest
    and the highest value the player has in that count: when each row of
    the player holds between [lo] and [hi] (rows up to a total below
    [2^48]), the average is between [lo] and [hi], in tenths.  So a
    player with the same value [v] in every row has the average [v]
    exactly. *)
Theorem player_average_within_range players stats events a :
  In a (fst (calculateAverages players stats events)) ->
  exists p,
    In p players /\ pa_name a = player_name p
    /\ pa_gamesPlayed a = count_of (rows_of (player_id p) stats)
    /\ forall field avg lo hi,
         In (field, avg) fields ->
         0 <= lo ->
         (forall r, In r (rows_of (player_id p) stats) ->
                    lo <= or_zero (field r) <= hi) ->
         (hi + 1) * count_of (rows_of (player_id p) stats) < 2 ^ 48 ->
         exists t, avg a = Tenths t /\ 10 * lo <= t <= 10 * hi.
Proof.
  intros Ha. apply in_fst_calculateAverages in Ha.
  destruct Ha as [e [He [Hpos ->]]].
  destruct (init_playerStats_entries players) as [_ [Hent _]].
  destruct (Hent e He) as [p [Hp ->]].
  cbn [fst snd playerTotals0 pt_gamesPlayed] in *.
  assert (0 < count_of (rows_of (player_id p) stats)) as Hn by lia.
  rewrite (average_of_totals stats p Hn).
  exists p. split; [exact Hp|]. split; [reflexivity|]. split; [reflexivity|].
  intros field avg lo hi Hf Hlo Hrows Hsmall.
  pose proof (sum_of_between field _ lo hi Hrows) as Hsum.
  set (n := count_of (rows_of (player_id p) stats)) in *.
  assert (lo <= hi) as Hlh by nia.
  assert (0 <= sum_of field (rows_of (player_id p) stats) < 2 ^ 48) as Hs by nia.
  assert (0 < n < 2 ^ 53) as Hn53.
  { split; [exact Hn|]. change (2 ^ 53) with (2 ^ 48 * 32).
    change (2 ^ 48) with 281474976710656 in *. nia. }
  unfold fields in Hf. cbn [In] in Hf.
  destruct Hf as [Hf|[Hf|[Hf|[Hf|[Hf|[]]]]]]; inversion Hf; subst field avg;
    cbn [pa_points pa_rebounds pa_assists pa_steals pa_blocks];
    now apply round1_between.
Qed.

Lemma player_average_within_range_witness :
  In {| pa_name := "A";
        pa_points := Tenths 150; pa_rebounds := Tenths 40;
        pa_assists := Tenths 30; pa_steals := Tenths 5;
        pa_blocks := Tenths 5; pa_gamesPlayed := 2 |}
     (fst (calculateAverages Samples.roster Samples.season Samples.games))
  /\ exists p,
       In p Samples.roster /\ player_name p = "A"
       /\ count_of (rows_of (player_id p) Samples.season) = 2
       /\ (In (stat_points, pa_points) fields ->
           0 <= 10 ->
           (forall r, In r (rows_of (player_id p) Samples.season) ->
                      10 <= or_zero (stat_points r) <= 20) ->
           (20 + 1) * count_of (rows_of (player_id p) Samples.season) < 2 ^ 48 ->
           exists t, Tenths 150 = Tenths t /\ 10 * 10 <= t <= 10 * 20).
Proof.
  assert (In {| pa_name := "A";
                pa_points := Tenths 150; pa_rebounds := Tenths 40;
                pa_assists := Tenths 30; pa_steals := Tenths 5;
                pa_blocks := Tenths 5; pa_gamesPlayed := 2 |}
             (fst (calculateAverages Samples.roster Samples.season
                     Samples.games))) as Hin
    by (vm_compute; left; reflexivity).
  split; [exact Hin|].
  destruct (player_average_within_range _ _ _ _ Hin) as [p [Hp [Hname [Hn H]]]].
  exists p. split; [exact Hp|]. split; [symmetry; exact Hname|].
  split; [symmetry; exact Hn|].
  intros Hf Hlo Hrows Hsmall.
  exact (H stat_points pa_points 10 20 Hf Hlo Hrows Hsmall).
Defined.

(** X4.  The rounded quotient keeps the order of the exact one: with
    the same number of games a larger sum never gives a lower average,
    and with the same sum more games never give a higher one (sums below
    [2^48]).  For the entries of [playerStats]: of two players with the
    same number of rows, the one with the larger total in a count has
    an average in that count at least as high. *)
Theorem round1_monotone :
  (forall s s' n,
      0 <= s <= s' -> s' < 2 ^ 48 -> 0 < n < 2 ^ 53 ->
      exists t t', round1 s n = Tenths t /\ round1 s' n = Tenths t' /\ t <= t')
  /\ (forall s n n',
         0 <= s < 2 ^ 48 -> 0 < n <= n' -> n' < 2 ^ 53 ->
         exists t t', round1 s n = Tenths t /\ round1 s n' = Tenths t' /\ t' <= t)
  /\ (forall p q sum avg,
         In (sum, avg) total_fields ->
         pt_gamesPlayed p = pt_gamesPlayed q ->
         0 <= pt_gamesPlayed p < 2 ^ 53 ->
         0 <= sum p <= sum q -> sum q < 2 ^ 48 ->
         exists t t',
           avg (average p) = Tenths t /\ avg (average q) = Tenths t' /\ t <= t').
Proof.
  split; [exact round1_increasing|]. split; [exact round1_decreasing|].
  intros p q sum avg Hf Hg Hn Hs Hs'.
  assert (0 < or_one (pt_gamesPlayed p) < 2 ^ 53) as Hn'.
  { unfold or_one. destruct (Z.eqb_spec (pt_gamesPlayed p) 0); lia. }
  unfold total_fields in Hf. cbn [In] in Hf.
  destruct Hf as [Hf|[Hf|[Hf|[Hf|[Hf|[]]]]]]; inversion Hf; subst sum avg;
    cbn [average pa_points pa_rebounds pa_assists pa_steals pa_blocks];
    rewrite <- Hg; now apply round1_increasing.
Qed.

Lemma round1_monotone_witness :
  (0 <= 7 <= 8 /\ 8 < 2 ^ 48 /\ 0 < 3 < 2 ^ 53
   /\ exists t t', round1 7 3 = Tenths t /\ round1 8 3 = Tenths t' /\ t <= t')
  /\ (0 <= 7 < 2 ^ 48 /\ 0 < 3 <= 4 /\ 4 < 2 ^ 53
      /\ exists t t', round1 7 3 = Tenths t /\ round1 7 4 = Tenths t' /\ t' <= t)
  /\ (In (pt_points, pa_points) total_fields
      /\ exists t t',
           pa_points (average (fold_left pt_add [Samples.statA1]
                                 (playerTotals0 "A"))) = Tenths t
           /\ pa_points (average (fold_left pt_add [Samples.statA2]
                                    (playerTotals0 "B"))) = Tenths t'
           /\ t <= t').
Proof.
  destruct round1_monotone as [Hinc [Hdec Havg]].
  assert (0 <= 7 <= 8) as H1 by lia.
  assert (8 < 2 ^ 48) as H2 by lia.
  assert (0 < 3 < 2 ^ 53) as H3 by lia.
  assert (0 <= 7 < 2 ^ 48) as H4 by lia.
  assert (0 < 3 <= 4) as H5 by lia.
  assert (4 < 2 ^ 53) as H6 by lia.
  assert (In (pt_points, pa_points) total_fields) as H7 by (left; reflexivity).
  split; [|split].
  - split; [exact H1|]. split; [exact H2|]. split; [exact H3|].
    exact (Hinc 7 8 3 H1 H2 H3).
  - split; [exact H4|]. split; [exact H5|]. split; [exact H6|].
    exact (Hdec 7 3 4 H4 H5 H6).
  - split; [exact H7|].
    apply (Havg _ _ pt_points pa_points H7); cbn; lia.
Defined.

End AveragesLaws.

(** ** Identifiers as a primary key *)

Module KeyLaws.

Import Invariants.

Lemma id_of_inj n m : id_of n = id_of m -> n = m.
Proof.
  unfold id_of. intros H.
  apply (f_equal NilEmpty.uint_of_string) in H. rewrite !NilEmpty.usu in H.
  inversion H as [H']. apply (f_equal Nat.of_uint) in H'.
  now rewrite !DecimalNat.Unsigned.of_to in H'.
Qed.


Section Table.
Context {A : Type} (id : A -> string).

Lemma issued_insert rows next r :
  issued id rows next -> id r = id_of next -> issued id (rows ++ [r]) (S next).
Proof.
  intros [Hnd Hfresh] Hid. split.
  - rewrite map_app. cbn [map]. apply StoreFacts.NoDup_snoc; [exact Hnd|].
    rewrite Hid. apply Hfresh. lia.
  - intros n Hn. rewrite map_app, in_app_iff. cbn [map In]. rewrite Hid.
    intros [H|[H|[]]].
    + apply (Hfresh n); [lia | exact H].
    + apply id_of_inj in H. lia.
Qed.

Lemma issued_later rows next : issued id rows next -> issued id rows (S next).
Proof.
  intros [Hnd Hfresh]. split; [exact Hnd|]. intros n Hn. apply Hfresh. lia.
Qed.

Lemma issued_update rows next i (f : A -> A) :
  (forall r, id (f r) = id r) ->
  issued id rows next ->
  issued id (map (fun r => if String.eqb (id r) i then f r else r) rows) next.
Proof.
  intros Hf H. unfold issued in *.
  assert (map id (map (fun r => if String.eqb (id r) i then f r else r) rows)
          = map id rows) as Heq.
  { rewrite map_map. apply map_ext. intros r.
    destruct (String.eqb (id r) i); [apply Hf | reflexivity]. }
  now rewrite Heq.
Qed.

Lemma issued_delete rows next (sel : A -> bool) :
  issued id rows next -> issued id (filter sel rows) next.
Proof.
  intros [Hnd Hfresh]. split.
  - now apply RosterFacts.NoDup_map_filter.
  - intros n Hn Hin. apply (Hfresh n Hn). apply in_map_iff in Hin.
    destruct Hin as [r [Hr Hin]]. apply filter_In in Hin.
    rewrite <- Hr. apply in_map. tauto.
Qed.

(** Two rows of a table with the same identifier are the same row. *)
Lemma same_id rows r r' :
  NoDup (map id rows) -> In r rows -> In r' rows -> id r = id r' -> r = r'.
Proof.
  induction rows as [|x rows IH]; cbn [map In]; intros Hnd Hr Hr' Hid; [tauto|].
  apply NoDup_cons_iff in Hnd. destruct Hnd as [Hx Hnd].
  destruct Hr as [<-|Hr], Hr' as [<-|Hr']; auto.
  - exfalso. apply Hx. rewrite Hid. now apply in_map.
  - exfalso. apply Hx. rewrite <- Hid. now apply in_map.
Qed.

(** An update by identifier rewrites the row of that identifier and no
    other. *)
Lemma update_one rows r0 (f : A -> A) r :
  NoDup (map id rows) -> In r0 rows -> In r rows ->
  (if String.eqb (id r) (id r0) then f r else r) = if String.eqb (id r) (id r0)
                                                   then f r0 else r.
Proof.
  intros Hnd H0 Hr. destruct (String.eqb_spec (id r) (id r0)) as [Heq|];
    [|reflexivity].
  now rewrite (same_id rows r r0 Hnd Hr H0 Heq).
Qed.

End Table.


Lemma filter_filter {A} (f g : A -> bool) l :
  filter f (filter g l) = filter (fun x => g x && f x) l.
Proof.
  induction l as [|x l IH]; cbn [filter]; [reflexivity|].
  destruct (g x); cbn [filter andb]; [|exact IH].
  destruct (f x); now rewrite IH.
Qed.

(** A selection on columns an update keeps commutes with the update. *)
Lemma filter_update {A} (sel : A -> bool) (upd : A -> A) rows :
  (forall r, sel (upd r) = sel r) ->
  filter sel (map upd rows) = map upd (filter sel rows).
Proof.
  intros H. rewrite filter_map_swap. f_equal. apply filter_ext. exact H.
Qed.

End KeyLaws.

(** ** The attendance page: what is saved is what is shown *)

Module AttendanceLaws.

Import JsObject JsObjectFacts JsObjectLaws Keys AttendancePage AttendanceState.
Import Spec Invariants StoreFacts KeyLaws.

(** *** The switches *)



(** *** A save, then a load *)


Lemma triple_eqb_refl k : triple_eqb k k = true.
Proof. now apply triple_eqb_eq. Qed.

Lemma triple_eqb_player e u k k' : k <> k' -> triple_eqb (e, k, u) (e, k', u) = false.
Proof.
  intros Hne. destruct (triple_eqb _ _) eqn:E; [|reflexivity].
  apply triple_eqb_eq in E. inversion E. contradiction.
Qed.

(** One turn of the loop of [saveAttendance]: the row of the player
    then records the value of the turn, and the rows of the other
    players record what they did. *)
Lemma save_one_recorded e u now k v st st' :
  issued at_id (attendance st) (next_id st) ->
  save_one e u now k v st = Some st' ->
  issued at_id (attendance st') (next_id st')
  /\ recorded e u st' k v
  /\ forall k' v', k' <> k -> recorded e u st k' v' -> recorded e u st' k' v'.
Proof.
  intros Hiss. unfold recorded, save_one, select_attendance.
  destruct (filter _ (attendance st)) as [|r0 [|r1 rest]] eqn:Hsel;
    cbn [maybeSingle]; intros Hstep; [| |discriminate].
  - unfold insert_attendance in Hstep.
    destruct (references _ _ st); [|discriminate].
    inversion Hstep; subst st'; clear Hstep.
    cbn [attendance next_id]. split; [|split].
    + apply issued_insert; [exact Hiss | reflexivity].
    + eexists. rewrite filter_app, Hsel. cbn [filter app]. unfold at_key at 1.
      cbn [at_event_id at_player_id at_user_id]. rewrite triple_eqb_refl.
      split; reflexivity.
    + intros k' v' Hne [r [Hr Hv]]. exists r. split; [|exact Hv].
      rewrite filter_app, Hr. cbn [filter]. unfold at_key at 1.
      cbn [at_event_id at_player_id at_user_id].
      rewrite triple_eqb_player by congruence. reflexivity.
  - inversion Hstep; subst st'; clear Hstep.
    assert (In r0 (attendance st) /\ at_key r0 = (e, k, u)) as [Hin0 Hk0].
    { assert (In r0 (filter (fun r => triple_eqb (at_key r) (e, k, u))
                       (attendance st))) as H by (rewrite Hsel; now left).
      apply filter_In in H. destruct H as [H1 H2].
      now apply triple_eqb_eq in H2. }
    destruct Hiss as [Hnd Hfresh].
    cbn [update_attendance attendance next_id]. split; [|split].
    + now apply issued_update.
    + eexists. rewrite filter_update.
      * rewrite Hsel. cbn [map]. rewrite String.eqb_refl. split; reflexivity.
      * intros r. destruct (String.eqb (at_id r) (at_id r0)); reflexivity.
    + intros k' v' Hne [r [Hr Hv]]. exists r. split; [|exact Hv].
      rewrite filter_update.
      * rewrite Hr. cbn [map].
        assert (In r (attendance st) /\ at_key r = (e, k', u)) as [Hin Hk].
        { assert (In r (filter (fun r => triple_eqb (at_key r) (e, k', u))
                          (attendance st))) as H by (rewrite Hr; now left).
          apply filter_In in H. destruct H as [H1 H2].
          now apply triple_eqb_eq in H2. }
        destruct (String.eqb_spec (at_id r) (at_id r0)) as [Heq|]; [|reflexivity].
        exfalso. rewrite (same_id at_id _ r r0 Hnd Hin Hin0 Heq) in Hk.
        rewrite Hk0 in Hk. inversion Hk. congruence.
      * intros r1. destruct (String.eqb (at_id r1) (at_id r0)); reflexivity.
Qed.

Lemma save_loop_recorded e u now entries : forall st st',
  NoDup (keys entries) ->
  issued at_id (attendance st) (next_id st) ->
  save_loop e u now entries st = (st', Done) ->
  issued at_id (attendance st') (next_id st')
  /\ (forall k v, In (k, v) entries -> recorded e u st' k v)
  /\ (forall k v, ~ In k (keys entries) -> recorded e u st k v ->
                  recorded e u st' k v).
Proof.
  induction entries as [|[k0 v0] entries IH]; intros st st' Hnd Hiss Hloop.
  - cbn in Hloop. inversion Hloop; subst. split; [exact Hiss|].
    split; [intros k v []|auto].
  - cbn [save_loop] in Hloop. cbn [keys map fst] in Hnd.
    apply NoDup_cons_iff in Hnd. destruct Hnd as [Hk0 Hnd].
    destruct (save_one e u now k0 v0 st) as [st1|] eqn:Hstep; [|discriminate].
    destruct (save_one_recorded _ _ _ _ _ _ _ Hiss Hstep) as [Hiss1 [Hrec1 Hoth1]].
    destruct (IH st1 st' Hnd Hiss1 Hloop) as [Hiss' [Hrec' Hoth']].
    split; [exact Hiss'|]. split.
    + intros k v [Heq|Hin].
      * inversion Heq; subst. now apply Hoth'.
      * now apply Hrec'.
    + intros k v Hnot Hrec. cbn [keys map fst In] in Hnot.
      apply Hoth'; [tauto|]. apply Hoth1; [|exact Hrec]. intros ->. tauto.
Qed.


Lemma loadAttendanceHistory_map u st :
  loadAttendanceHistory u st =
  map (fun record =>
         let player :=
           find (fun p => String.eqb (pl_id p) (at_player_id record))
                (filter (fun p => String.eqb (pl_user_id p) u) (players st)) in
         let event :=
           find (fun e => String.eqb (ev_id e) (at_event_id record))
                (filter (fun e => String.eqb (ev_user_id e) u) (events st)) in
         {| ar_id := at_id record;
            ar_eventId := at_event_id record;
            ar_eventTitle :=
              Averages.str_or (option_map ev_title event) "Événement inconnu";
            ar_eventDate := Averages.str_or (option_map ev_date event) "";
            ar_playerName :=
              Averages.str_or (option_map pl_name player) "Joueur inconnu";
            ar_playerId := at_player_id record;
            ar_present := at_present record |})
      (filter (fun r => String.eqb (at_user_id r) u) (attendance st)).
Proof.
  unfold loadAttendanceHistory.
  destruct (filter _ (attendance st)); reflexivity.
Qed.


(** *** The players a load shows *)

(** The players of the rows of an event and a user, read off the keys
    of the table. *)
Lemma players_of_keys e u rows :
  map at_player_id
    (filter (fun r => String.eqb (at_event_id r) e && String.eqb (at_user_id r) u)
            rows)
  = map (fun k : triple => snd (fst k))
      (filter (fun k : triple => String.eqb (fst (fst k)) e && String.eqb (snd k) u)
              (map at_key rows)).
Proof.
  rewrite filter_map_swap, map_map. reflexivity.
Qed.







(** X7.  The attendance history has one record per attendance row of
    the user, in the order of the rows: the record carries the
    identifiers and the value of its row; the player's name is that of
    the player of the user the row refers to, or ["Joueur inconnu"] when
    the user has no such player, and likewise for the title of the event
    (["Événement inconnu"], with an empty date).  After [deletePlayer]
    the history holds no record of the deleted player. *)
Theorem loadAttendanceHistory_rows u st :
  List.length (loadAttendanceHistory u st)
  = List.length (filter (fun r => String.eqb (at_user_id r) u) (attendance st))
  /\ (forall i row,
        nth_error (filter (fun r => String.eqb (at_user_id r) u) (attendance st)) i
        = Some row ->
        exists record,
          nth_error (loadAttendanceHistory u st) i = Some record
          /\ ar_id record = at_id row
          /\ ar_eventId record = at_event_id row
          /\ ar_playerId record = at_player_id row
          /\ ar_present record = at_present row
          /\ ((forall p, In p (players st) -> pl_user_id p = u ->
                         pl_id p <> at_player_id row) ->
              ar_playerName record = "Joueur inconnu")
          /\ (forall p,
                 find (fun p => String.eqb (pl_id p) (at_player_id row))
                      (filter (fun p => String.eqb (pl_user_id p) u) (players st))
                 = Some p ->
                 pl_name p <> "" -> ar_playerName record = pl_name p)
          /\ ((forall e, In e (events st) -> ev_user_id e = u ->
                         ev_id e <> at_event_id row) ->
              ar_eventTitle record = "Événement inconnu"
              /\ ar_eventDate record = "")
          /\ (forall e,
                 find (fun e => String.eqb (ev_id e) (at_event_id row))
                      (filter (fun e => String.eqb (ev_user_id e) u) (events st))
                 = Some e ->
                 ev_title e <> "" -> ar_eventTitle record = ev_title e))
  /\ (forall id record,
        id <> "" ->
        In record
           (loadAttendanceHistory u (PlayersPage.deletePlayer (Some id) st)) ->
        ar_playerId record <> id).
Proof.
  split; [|split].
  - rewrite loadAttendanceHistory_map. apply length_map.
  - intros i row Hrow. rewrite loadAttendanceHistory_map. eexists. split.
    + apply map_nth_error. exact Hrow.
    + cbn [ar_id ar_eventId ar_playerId ar_present ar_playerName ar_eventTitle
           ar_eventDate].
      split; [reflexivity|]. split; [reflexivity|]. split; [reflexivity|].
      split; [reflexivity|]. split; [|split; [|split]].
      * intros Hno.
        destruct (find _ (filter _ (players st))) as [p|] eqn:Hf; [|reflexivity].
        exfalso. apply find_some in Hf. destruct Hf as [Hin Hid].
        apply filter_In in Hin. destruct Hin as [Hin Hu].
        apply String.eqb_eq in Hid, Hu. exact (Hno p Hin Hu Hid).
      * intros p Hf Hname. rewrite Hf. cbn.
        destruct (pl_name p); [congruence | reflexivity].
      * intros Hno.
        destruct (find _ (filter _ (events st))) as [ev|] eqn:Hf; [|split; reflexivity].
        exfalso. apply find_some in Hf. destruct Hf as [Hin Hid].
        apply filter_In in Hin. destruct Hin as [Hin Hu].
        apply String.eqb_eq in Hid, Hu. exact (Hno ev Hin Hu Hid).
      * intros ev Hf Htitle. rewrite Hf. cbn.
        destruct (ev_title ev); [congruence | reflexivity].
  - intros id record Hid Hin. rewrite loadAttendanceHistory_map in Hin.
    apply in_map_iff in Hin. destruct Hin as [row [<- Hrow]].
    cbn [ar_playerId]. apply filter_In in Hrow. destruct Hrow as [Hrow _].
    unfold PlayersPage.deletePlayer in Hrow.
    destruct id as [|c id]; [congruence|].
    cbn [delete_players delete_attendance delete_statistics attendance] in Hrow.
    apply filter_In in Hrow. destruct Hrow as [_ Hsel].
    apply negb_true_iff in Hsel. now apply String.eqb_neq in Hsel.
Qed.

Lemma loadAttendanceHistory_rows_witness :
  nth_error (filter (fun r => String.eqb (at_user_id r) "u1")
               (attendance Samples.store3)) 1
  = Some {| at_id := "3"; at_event_id := "e1"; at_player_id := "p2";
            at_present := false; at_updated_at := "t3"; at_user_id := "u1" |}
  /\ "p2" <> ""
  /\ exists record,
       nth_error (loadAttendanceHistory "u1" Samples.store3) 1 = Some record
       /\ ar_present record = false
       /\ ar_playerName record = "B"
       /\ ar_eventTitle record = "Match 1"
       /\ forall record',
            In record'
               (loadAttendanceHistory "u1"
                  (PlayersPage.deletePlayer (Some "p2") Samples.store3)) ->
            ar_playerId record' <> "p2".
Proof.
  destruct (loadAttendanceHistory_rows "u1" Samples.store3) as [_ [Hrows Hdel]].
  assert ("p2" <> "") as Hne by discriminate.
  split; [reflexivity|]. split; [exact Hne|].
  destruct (Hrows 1%nat _ eq_refl)
    as [record [Hrec [_ [_ [_ [Hp [_ [Hname [_ Htitle]]]]]]]]].
  exists record. split; [exact Hrec|]. split; [exact Hp|].
  split; [|split].
  - apply (Hname (Samples.player_row "p2" "B")); [reflexivity | discriminate].
  - apply (Htitle (Samples.game_row "e1" "Match 1" None None None));
      [reflexivity | discriminate].
  - intros record'. exact (Hdel "p2" record' Hne).
Defined.

End AttendanceLaws.

(** ** The statistics form: what is saved is what is loaded *)

Module StatsFormLaws.

Import JsObject JsObjectFacts JsObjectLaws Keys StatsForm Spec Invariants.
Import StoreFacts KeyLaws StatsFormFacts.

Lemma find_app {A} (f : A -> bool) l l' :
  find f (l ++ l') = match find f l with
                     | Some x => Some x
                     | None => find f l'
                     end.
Proof.
  induction l as [|x l IH]; cbn [app find]; [reflexivity|].
  destruct (f x); [reflexivity | exact IH].
Qed.

Lemma find_map {A} (f : A -> bool) (g : A -> A) l :
  (forall x, f (g x) = f x) ->
  find f (map g l) = option_map g (find f l).
Proof.
  intros H. induction l as [|x l IH]; cbn [map find]; [reflexivity|].
  rewrite H. destruct (f x); [reflexivity | exact IH].
Qed.

Lemma id_of_nonempty n : id_of n <> "".
Proof.
  unfold id_of. intros H.
  apply (f_equal NilEmpty.uint_of_string) in H. rewrite NilEmpty.usu in H.
  cbn in H. inversion H as [H'].
  apply (f_equal Nat.of_uint) in H'. rewrite DecimalNat.Unsigned.of_to in H'.
  cbn in H'. subst n. discriminate.
Qed.

Lemma first_row_some g u st k r :
  first_row g u st k = Some r ->
  In r (statistics st) /\ st_key r = (g, k, u).
Proof. apply find_selected_some. Qed.

(** One turn of the loop of [saveAllStats] for an entry that holds the
    identifier of the row [loadData] finds for its player, if there is
    one: afterwards that row, or the new one, holds the counts of the
    entry, and the rows found for the other players are as before. *)
Lemma save_stat_first u g now k en st :
  issued st_id (statistics st) (next_id st) ->
  Forall (fun r => st_id r <> "") (statistics st) ->
  ps_id en = option_map st_id (first_row g u st k) ->
  issued st_id (statistics (save_stat u g now k en st))
         (next_id (save_stat u g now k en st))
  /\ Forall (fun r => st_id r <> "") (statistics (save_stat u g now k en st))
  /\ (exists r, first_row g u (save_stat u g now k en st) k = Some r
                /\ row_counts r = entry_counts en)
  /\ (forall k', k' <> k ->
        first_row g u (save_stat u g now k en st) k' = first_row g u st k').
Proof.
  intros Hiss Hids Hlink. unfold save_stat.
  destruct (first_row g u st k) as [r0|] eqn:Hfirst; cbn [option_map] in Hlink;
    rewrite Hlink.
  - destruct (first_row_some _ _ _ _ _ Hfirst) as [Hin0 Hk0].
    assert (st_id r0 <> "") as Hne0
      by (rewrite Forall_forall in Hids; now apply Hids).
    destruct (st_id r0) as [|c i] eqn:Hid0; [congruence|]. rewrite <- Hid0 in *.
    cbn [update_statistic statistics next_id].
    set (upd := fun r : StatisticRow =>
                  if String.eqb (st_id r) (st_id r0)
                  then {| st_id := st_id r;
                          st_event_id := st_event_id r;
                          st_player_id := st_player_id r;
                          st_points := ps_points en;
                          st_rebounds := ps_rebounds en;
                          st_assists := ps_assists en;
                          st_steals := ps_steals en;
                          st_blocks := ps_blocks en;
                          st_updated_at := now;
                          st_user_id := st_user_id r |}
                  else r).
    assert (forall k', first_row g u
                         {| players := players st; events := events st;
                            attendance := attendance st;
                            statistics := map upd (statistics st);
                            next_id := next_id st |} k'
                       = option_map upd (first_row g u st k')) as Hfirst'.
    { intros k'. unfold first_row. cbn [statistics].
      rewrite filter_update.
      - apply find_map. intros r. unfold upd.
        destruct (String.eqb (st_id r) (st_id r0)); reflexivity.
      - intros r. unfold upd.
        destruct (String.eqb (st_id r) (st_id r0)); reflexivity. }
    split; [|split; [|split]].
    + now apply issued_update.
    + apply Forall_forall. intros r Hr. apply in_map_iff in Hr.
      destruct Hr as [r1 [<- Hr1]]. rewrite Forall_forall in Hids.
      specialize (Hids r1 Hr1). unfold upd.
      destruct (String.eqb (st_id r1) (st_id r0)); exact Hids.
    + rewrite Hfirst', Hfirst. cbn [option_map]. eexists. split; [reflexivity|].
      unfold upd. rewrite String.eqb_refl. reflexivity.
    + intros k' Hne. rewrite Hfirst'.
      destruct (first_row g u st k') as [r'|] eqn:Hf'; [|reflexivity].
      cbn [option_map]. f_equal. unfold upd.
      destruct (String.eqb_spec (st_id r') (st_id r0)) as [Heq|]; [|reflexivity].
      exfalso. destruct (first_row_some _ _ _ _ _ Hf') as [Hin' Hk'].
      destruct Hiss as [Hnd _].
      rewrite (same_id st_id _ r' r0 Hnd Hin' Hin0 Heq) in Hk'.
      rewrite Hk0 in Hk'. inversion Hk'. congruence.
  - cbn [insert_statistic statistics next_id].
    assert (forall k', first_row g u
              {| players := players st; events := events st;
                 attendance := attendance st;
                 statistics :=
                   statistics st ++
                   [{| st_id := new_id st; st_event_id := g; st_player_id := k;
                       st_points := ps_points en; st_rebounds := ps_rebounds en;
                       st_assists := ps_assists en; st_steals := ps_steals en;
                       st_blocks := ps_blocks en; st_updated_at := now;
                       st_user_id := u |}];
                 next_id := S (next_id st) |} k'
            = match first_row g u st k' with
              | Some r => Some r
              | None =>
                  if String.eqb k k'
                  then Some {| st_id := new_id st; st_event_id := g;
                               st_player_id := k;
                               st_points := ps_points en;
                               st_rebounds := ps_rebounds en;
                               st_assists := ps_assists en;
                               st_steals := ps_steals en;
                               st_blocks := ps_blocks en; st_updated_at := now;
                               st_user_id := u |}
                  else None
              end) as Hfirst'.
    { intros k'. unfold first_row. cbn [statistics].
      rewrite filter_app. cbn [filter st_event_id st_user_id].
      rewrite !String.eqb_refl. cbn [andb]. rewrite find_app.
      cbn [find st_player_id]. reflexivity. }
    split; [|split; [|split]].
    + apply issued_insert; [exact Hiss | reflexivity].
    + apply Forall_app. split; [exact Hids|]. repeat constructor.
      cbn [st_id]. apply id_of_nonempty.
    + rewrite Hfirst', Hfirst, String.eqb_refl. eexists. split; reflexivity.
    + intros k' Hne. rewrite Hfirst'.
      destruct (first_row g u st k'); [reflexivity|].
      destruct (String.eqb_spec k k'); [congruence | reflexivity].
Qed.

Lemma fold_save_stat_first u g now form : forall st,
  NoDup (keys form) ->
  issued st_id (statistics st) (next_id st) ->
  Forall (fun r => st_id r <> "") (statistics st) ->
  (forall k en, In (k, en) form ->
                ps_id en = option_map st_id (first_row g u st k)) ->
  let st' := fold_left (fun st' '(playerId, playerStat) =>
                          save_stat u g now playerId playerStat st') form st in
  issued st_id (statistics st') (next_id st')
  /\ Forall (fun r => st_id r <> "") (statistics st')
  /\ (forall k en, In (k, en) form ->
        exists r, first_row g u st' k = Some r /\ row_counts r = entry_counts en)
  /\ (forall k, ~ In k (keys form) -> first_row g u st' k = first_row g u st k).
Proof.
  induction form as [|[k0 en0] form IH]; intros st Hnd Hiss Hids Hlink;
    cbn [fold_left].
  - split; [exact Hiss|]. split; [exact Hids|]. split; [intros k en []|auto].
  - cbn [keys map fst] in Hnd. apply NoDup_cons_iff in Hnd.
    destruct Hnd as [Hk0 Hnd].
    destruct (save_stat_first u g now k0 en0 st Hiss Hids
                (Hlink k0 en0 (or_introl eq_refl)))
      as [Hiss1 [Hids1 [Hheld1 Hoth1]]].
    destruct (IH (save_stat u g now k0 en0 st) Hnd Hiss1 Hids1)
      as [Hiss' [Hids' [Hheld' Hoth']]].
    { intros k en Hin. rewrite Hoth1.
      - apply Hlink. now right.
      - intros ->. apply Hk0. change k0 with (fst (k0, en)). now apply in_map. }
    split; [exact Hiss'|]. split; [exact Hids'|]. split.
    + intros k en [Heq|Hin].
      * inversion Heq; subst. rewrite (Hoth' k Hk0). exact Hheld1.
      * now apply Hheld'.
    + intros k Hnot. cbn [keys map fst In] in Hnot.
      rewrite Hoth' by tauto. apply Hoth1. intros ->. tauto.
Qed.



Section Reload.

Variable order_by_name : list PlayerRow -> list PlayerRow.



Lemma same_rows_linked form u g st k en :
  same_rows form (loadData order_by_name u g st) ->
  In (k, en) form ->
  ps_id en = option_map st_id (first_row g u st k).
Proof.
  intros Hsame Hin.
  assert (In (k, ps_id en)
             (map (fun e => (fst e, ps_id (snd e)))
                  (loadData order_by_name u g st))) as H.
  { rewrite <- Hsame. apply in_map_iff. exists (k, en). split; [reflexivity|].
    exact Hin. }
  apply in_map_iff in H. destruct H as [[k' e0] [Heq Hin0]].
  cbn [fst snd] in Heq. inversion Heq as [[Hk Hid]]. subst k'.
  destruct (loadData_entries order_by_name u g st) as [_ Hent].
  pose proof (Hent _ Hin0) as He0. cbn [fst snd] in He0.
  rewrite He0. unfold initial_entry, first_row.
  destruct (find _ _); reflexivity.
Qed.

(** A run of [saveAllStats] that visits the entries of the form in any
    order, and is refused any of its writes or none, keeps the triples
    unique when the form holds the rows as loaded. *)
Lemma saveAllStats_unique_any user_id gameId now form entries k st :
  unique_statistics st ->
  Forall (fun r => st_id r <> "") (statistics st) ->
  same_rows form (loadData order_by_name user_id gameId st) ->
  Permutation entries form ->
  unique_statistics
    (saveAllStats_refused k (Some user_id) gameId now entries st).
Proof.
  intros Hnd Hids Hsame Hperm. unfold saveAllStats_refused.
  destruct (string_dec user_id "") as [->|Hu]; [exact Hnd|].
  unfold unique_statistics. rewrite saveAllStats_keys by assumption.
  destruct (same_rows_inserts _ _ Hsame) as [Hins _].
  destruct (loaded_inserts_fresh order_by_name user_id gameId st Hids)
    as [Hnew Hfresh].
  rewrite <- (map_map fst (fun k => (gameId, k, user_id))), <- Hins, map_map
    in Hnew, Hfresh.
  assert (Permutation
            (map (fun e : string * PlayerStat => (gameId, fst e, user_id))
                 (filter without_id entries))
            (map (fun e : string * PlayerStat => (gameId, fst e, user_id))
                 (filter without_id form))) as Hp.
  { apply Permutation_map. now apply ListLaws.Permutation_filter. }
  assert (map (fun e : string * PlayerStat => (gameId, fst e, user_id))
              (filter without_id entries)
          = map (fun e : string * PlayerStat => (gameId, fst e, user_id))
                (filter without_id (firstn k entries))
            ++ map (fun e : string * PlayerStat => (gameId, fst e, user_id))
                 (filter without_id (skipn k entries))) as Hsplit.
  { rewrite <- map_app, <- filter_app, firstn_skipn. reflexivity. }
  assert (NoDup (map (fun e : string * PlayerStat => (gameId, fst e, user_id))
                     (filter without_id entries))) as Hnd'
    by exact (Permutation_NoDup (Permutation_sym Hp) Hnew).
  apply NoDup_app; [exact Hnd | |].
  - rewrite Hsplit in Hnd'. now apply NoDup_app_remove_r in Hnd'.
  - intros key Hkey Hkey'. apply (Hfresh key); [|exact Hkey].
    apply (Permutation_in _ Hp). rewrite Hsplit. apply in_or_app. now left.
Qed.

Lemma saveAllStats_all user gameId now entries st :
  saveAllStats user gameId now entries st
  = saveAllStats_refused (List.length entries) user gameId now entries st.
Proof. unfold saveAllStats_refused. now rewrite firstn_all. Qed.

(** What the rows hold after a run that visits the entries of the form
    in any order. *)
Lemma saveAllStats_held user_id gameId now form entries st :
  user_id <> "" ->
  issued st_id (statistics st) (next_id st) ->
  Forall (fun r => st_id r <> "") (statistics st) ->
  same_rows form (loadData order_by_name user_id gameId st) ->
  Permutation entries form ->
  let st' := saveAllStats (Some user_id) gameId now entries st in
  Forall (fun r => st_id r <> "") (statistics st')
  /\ issued st_id (statistics st') (next_id st')
  /\ forall k en, In (k, en) form ->
       exists r, first_row gameId user_id st' k = Some r
                 /\ row_counts r = entry_counts en.
Proof.
  intros Hu Hiss Hids Hsame Hperm st'.
  destruct (same_rows_inserts _ _ Hsame) as [_ Hkeys].
  destruct (loadData_entries order_by_name user_id gameId st) as [Hnd0 _].
  assert (NoDup (keys entries)) as Hnd.
  { apply (Permutation_NoDup
             (Permutation_map fst (Permutation_sym Hperm))).
    fold (keys form). now rewrite Hkeys. }
  pose proof (fold_save_stat_first user_id gameId now entries st Hnd Hiss Hids)
    as Hfold.
  destruct Hfold as [Hiss' [Hids' [Hheld _]]].
  { intros k en Hin. apply (same_rows_linked form _ _ _ k en Hsame).
    exact (Permutation_in _ Hperm Hin). }
  rewrite <- (RosterFacts.saveAllStats_signed_in user_id gameId now entries st Hu)
    in Hiss', Hids', Hheld. fold st' in Hiss', Hids', Hheld.
  split; [exact Hids'|]. split; [exact Hiss'|].
  intros k en Hin. apply Hheld.
  exact (Permutation_in _ (Permutation_sym Hperm) Hin).
Qed.


(** *** A save of the form as loaded *)



End Reload.



End StatsFormLaws.

(** ** The uniqueness invariant of the two write paths *)

Module UpsertFacts.

Import JsObject JsObjectFacts AttendancePage StatsForm Spec Invariants.
Import StoreFacts StatsFormFacts.

Section Loaded.

Variable order_by_name : list PlayerRow -> list PlayerRow.

(** An entry of a form that holds the rows as loaded has no [id] exactly
    when the store has no row for its player, the game and the user. *)
Lemma without_id_no_row form user_id gameId st k en :
  Forall (fun r => st_id r <> "") (statistics st) ->
  same_rows form (loadData order_by_name user_id gameId st) ->
  In (k, en) form ->
  (without_id (k, en) = true
   <-> ~ In (gameId, k, user_id) (map st_key (statistics st))).
Proof.
  intros Hids Hsame Hin.
  pose proof (StatsFormLaws.same_rows_linked order_by_name form user_id gameId
                st k en Hsame Hin) as Hlink.
  unfold without_id. cbn [snd]. rewrite Hlink. unfold first_row.
  destruct (find _ _) as [r|] eqn:Hfind; cbn [option_map].
  - destruct (find_selected_some _ _ _ _ _ Hfind) as [Hr Hk].
    rewrite Forall_forall in Hids. specialize (Hids r Hr).
    split.
    + destruct (st_id r); [congruence | discriminate].
    + intros Hno. exfalso. apply Hno. rewrite <- Hk. now apply in_map.
  - split; [|reflexivity]. intros _. now apply find_selected_none.
Qed.

(** After a run of [saveAllStats] that visits the entries in any order,
    the store has exactly one row for each player of the form, and the
    row holds the counts of the player's entry. *)
Lemma saveAllStats_one_row user_id gameId now form entries st k en :
  user_id <> "" ->
  unique_statistics st ->
  issued st_id (statistics st) (next_id st) ->
  Forall (fun r => st_id r <> "") (statistics st) ->
  same_rows form (loadData order_by_name user_id gameId st) ->
  Permutation entries form ->
  In (k, en) form ->
  exists r,
    filter (fun r => triple_eqb (st_key r) (gameId, k, user_id))
           (statistics (saveAllStats (Some user_id) gameId now entries st))
    = [r]
    /\ row_counts r = entry_counts en.
Proof.
  intros Hu Hnd Hiss Hids Hsame Hperm Hin.
  destruct (StatsFormLaws.saveAllStats_held order_by_name user_id gameId now
              form entries st Hu Hiss Hids Hsame Hperm) as [_ [_ Hheld]].
  destruct (Hheld k en Hin) as [r [Hr Hc]].
  destruct (StatsFormLaws.first_row_some _ _ _ _ _ Hr) as [Hinr Hkr].
  assert (unique_statistics (saveAllStats (Some user_id) gameId now entries st))
    as Hnd'.
  { rewrite StatsFormLaws.saveAllStats_all.
    now apply (StatsFormLaws.saveAllStats_unique_any order_by_name
                 user_id gameId now form). }
  exists r. split; [|exact Hc].
  destruct (select_unique st_key _ (gameId, k, user_id) Hnd')
    as [[_ Hnone]|[r' [Hone [Hin' Hk2]]]].
  - exfalso. apply Hnone. rewrite <- Hkr. now apply in_map.
  - rewrite Hone. f_equal.
    assert (In r (filter (fun r0 => triple_eqb (st_key r0) (gameId, k, user_id))
                    (statistics
                       (saveAllStats (Some user_id) gameId now entries st))))
      as Hrin.
    { apply filter_In. split; [exact Hinr|]. now apply triple_eqb_eq. }
    rewrite Hone in Hrin. destruct Hrin as [->|[]]. reflexivity.
Qed.

End Loaded.

(** C7, as the code has it.  [saveAttendance] looks up the row of each
    (event, player, owner) key when it saves.  On a store with unique
    triples the triples are unique after it, however it ends; when it
    ends normally the keys after the save are the keys before followed
    by the keys of the players that had no row, and the one row of each
    player of the dictionary records the value of the dictionary: an
    update for the players that had a row, an insert for the others.
    It ends normally when the event and the players are rows of the
    store.  [saveAllStats] does not look up anything when it saves: it
    inserts for the entries of the form without [id] and updates by
    [id] for the others.  When the form holds the players and row
    identifiers that [loadData] found in the store being saved to,
    whatever counts were edited, the entries without [id] are those of
    the players without a row; then, in whatever order the entries are
    visited and whichever write the store refuses, the triples stay
    unique, and after a whole run the one row of each player holds the
    counts of the player's entry. *)
Theorem upsert_keeps_triples_unique :
  (forall selectedEvent user_id now playerAttendance st,
      unique_attendance st ->
      unique_attendance
        (fst (saveAttendance selectedEvent user_id now playerAttendance st)))
  /\ (forall event_id user_id now playerAttendance st,
         unique_attendance st ->
         issued at_id (attendance st) (next_id st) ->
         NoDup (keys playerAttendance) ->
         snd (saveAttendance (Some event_id) user_id now playerAttendance st)
         = Done ->
         map at_key
           (attendance
              (fst (saveAttendance (Some event_id) user_id now
                      playerAttendance st)))
         = map at_key (attendance st)
           ++ missing_keys event_id user_id (keys (enumerate playerAttendance))
                (map at_key (attendance st))
         /\ forall k v,
              get playerAttendance k = Some v ->
              recorded event_id user_id
                (fst (saveAttendance (Some event_id) user_id now
                        playerAttendance st)) k v)
  /\ (forall event_id user_id now playerAttendance st,
         unique_attendance st ->
         In event_id (map ev_id (events st)) ->
         (forall k, In k (keys playerAttendance) ->
                    In k (map pl_id (players st))) ->
         snd (saveAttendance (Some event_id) user_id now playerAttendance st)
         = Done)
  /\ (forall order_by_name user_id gameId now form entries st,
         user_id <> "" ->
         unique_statistics st ->
         issued st_id (statistics st) (next_id st) ->
         Forall (fun r => st_id r <> "") (statistics st) ->
         same_rows form (loadData order_by_name user_id gameId st) ->
         Permutation entries form ->
         (forall k en,
             In (k, en) form ->
             (without_id (k, en) = true
              <-> ~ In (gameId, k, user_id) (map st_key (statistics st))))
         /\ (forall refused,
               unique_statistics
                 (saveAllStats_refused refused (Some user_id) gameId now
                    entries st))
         /\ unique_statistics (saveAllStats (Some user_id) gameId now entries st)
         /\ map st_key
              (statistics (saveAllStats (Some user_id) gameId now entries st))
            = map st_key (statistics st)
              ++ map (fun e => (gameId, fst e, user_id))
                   (filter without_id entries)
         /\ (forall k en,
               In (k, en) form ->
               exists r,
                 filter (fun r => triple_eqb (st_key r) (gameId, k, user_id))
                        (statistics
                           (saveAllStats (Some user_id) gameId now entries st))
                 = [r]
                 /\ row_counts r = entry_counts en)).
Proof.
  split; [|split; [|split]].
  - intros [event_id|] user_id now playerAttendance st Hnd;
      cbn [saveAttendance fst]; [|exact Hnd].
    now apply AttendanceFacts.save_loop_unique.
  - intros event_id user_id now playerAttendance st Hnd Hiss Hkeys.
    cbn [saveAttendance]. intros Hdone.
    split; [now apply AttendanceFacts.save_loop_keys|].
    intros k v Hget.
    destruct (save_loop event_id user_id now (enumerate playerAttendance) st)
      as [st' out] eqn:Hloop.
    cbn [fst snd] in *. subst out.
    destruct (AttendanceLaws.save_loop_recorded event_id user_id now
                (enumerate playerAttendance) st st'
                (EnumerateFacts.nodup_enumerate _ Hkeys) Hiss Hloop)
      as [_ [Hrec _]].
    apply Hrec. apply (proj2 (EnumerateFacts.in_enumerate _ _)).
    now apply JsObjectLaws.get_some_in.
  - intros event_id user_id now playerAttendance st Hnd He Hp.
    cbn [saveAttendance].
    apply AttendanceFacts.save_loop_done; [exact Hnd | exact He|].
    intros k Hin. apply Hp.
    exact (Permutation_in _ (EnumerateFacts.keys_enumerate _) Hin).
  - intros order_by_name user_id gameId now form entries st
      Hu Hnd Hiss Hids Hsame Hperm.
    assert (forall refused,
               unique_statistics
                 (saveAllStats_refused refused (Some user_id) gameId now
                    entries st)) as Hany.
    { intros refused.
      now apply (StatsFormLaws.saveAllStats_unique_any order_by_name
                   user_id gameId now form). }
    split; [|split; [exact Hany|split; [|split]]].
    + intros k en Hin.
      now apply (without_id_no_row order_by_name form).
    + rewrite StatsFormLaws.saveAllStats_all. apply Hany.
    + now apply saveAllStats_keys.
    + intros k en Hin.
      now apply (saveAllStats_one_row order_by_name user_id gameId now form).
Qed.

Lemma upsert_keeps_triples_unique_witness :
  (unique_attendance Samples.store_saved
   /\ issued at_id (attendance Samples.store_saved)
        (next_id Samples.store_saved)
   /\ NoDup (keys Samples.presence)
   /\ In "e1" (map ev_id (events Samples.store_saved))
   /\ snd (saveAttendance (Some "e1") "u1" "t3" Samples.presence
             Samples.store_saved) = Done
   /\ map at_key (attendance Samples.store3)
      = [("e1", "p1", "u1"); ("e1", "p2", "u1")]
   /\ recorded "e1" "u1" Samples.store3 "p1" true
   /\ unique_attendance Samples.store3
   /\ unique_attendance
        (fst (saveAttendance (Some "e1") "u1" "t4"
                [("p1", false); ("p9", true)] Samples.store3)))
  /\ ("u1" <> ""
      /\ unique_statistics Samples.store0
      /\ issued st_id (statistics Samples.store0) (next_id Samples.store0)
      /\ Forall (fun r => st_id r <> "") (statistics Samples.store0)
      /\ same_rows Samples.form0
           (loadData (fun rows => rows) "u1" "e1" Samples.store0)
      /\ Permutation (rev Samples.form0) Samples.form0
      /\ unique_statistics
           (saveAllStats (Some "u1") "e1" "t1" (rev Samples.form0)
              Samples.store0)
      /\ unique_statistics Samples.store1
      /\ exists r,
           filter (fun r => triple_eqb (st_key r) ("e1", "p2", "u1"))
                  (statistics
                     (saveAllStats (Some "u1") "e1" "t1" (rev Samples.form0)
                        Samples.store0)) = [r]
           /\ row_counts r = (Some 0, Some 0, Some 0, Some 0, Some 0)).
Proof.
  destruct upsert_keeps_triples_unique as [Huniq [Hatt [Hdone Hstat]]].
  assert (unique_attendance Samples.store_saved) as Ha by constructor.
  assert (issued at_id (attendance Samples.store_saved)
            (next_id Samples.store_saved)) as Hai.
  { split; [constructor | intros n _ []]. }
  assert (NoDup (keys Samples.presence)) as Hk.
  { vm_compute. repeat constructor; simpl; intuition discriminate. }
  assert (In "e1" (map ev_id (events Samples.store_saved))) as He
    by (left; reflexivity).
  assert (forall k, In k (keys Samples.presence) ->
                    In k (map pl_id (players Samples.store_saved))) as Hp.
  { intros k H. vm_compute in H. vm_compute. exact H. }
  pose proof (Hdone "e1" "u1" "t3" Samples.presence Samples.store_saved
                Ha He Hp) as Hd.
  destruct (Hatt "e1" "u1" "t3" Samples.presence Samples.store_saved
              Ha Hai Hk Hd) as [Hkeys Hrec].
  pose proof (Huniq (Some "e1") "u1" "t3" Samples.presence Samples.store_saved
                Ha) as Hu3.
  assert ("u1" <> "") as Hu by discriminate.
  assert (unique_statistics Samples.store0) as Hs by constructor.
  assert (issued st_id (statistics Samples.store0) (next_id Samples.store0))
    as Hsi.
  { split; [constructor | intros n _ []]. }
  assert (Forall (fun r => st_id r <> "") (statistics Samples.store0)) as Hi
    by constructor.
  assert (same_rows Samples.form0
            (loadData (fun rows => rows) "u1" "e1" Samples.store0)) as Hsame
    by reflexivity.
  assert (Permutation (rev Samples.form0) Samples.form0) as Hperm
    by (apply Permutation_sym, Permutation_rev).
  destruct (Hstat (fun rows => rows) "u1" "e1" "t1" Samples.form0
              (rev Samples.form0) Samples.store0 Hu Hs Hsi Hi Hsame Hperm)
    as [_ [Hany [Hall [_ Hrow]]]].
  split.
  - split; [exact Ha|]. split; [exact Hai|]. split; [exact Hk|].
    split; [exact He|]. split; [exact Hd|]. split; [exact Hkeys|].
    split; [exact (Hrec "p1" true eq_refl)|]. split; [exact Hu3|].
    exact (Huniq (Some "e1") "u1" "t4" _ Samples.store3 Hu3).
  - split; [exact Hu|]. split; [exact Hs|]. split; [exact Hsi|].
    split; [exact Hi|]. split; [exact Hsame|]. split; [exact Hperm|].
    split; [exact Hall|]. split.
    + assert (Samples.store1
              = saveAllStats_refused 1 (Some "u1") "e1" "t1" Samples.form0
                  Samples.store0) as -> by reflexivity.
      destruct (Hstat (fun rows => rows) "u1" "e1" "t1" Samples.form0
                  Samples.form0 Samples.store0 Hu Hs Hsi Hi Hsame
                  (Permutation_refl _)) as [_ [Hany0 _]].
      exact (Hany0 1%nat).
    + exact (Hrow "p2" (zero_entry "p2" "e1") (or_intror (or_introl eq_refl))).
Defined.

(** C7 fails as stated for the statistics path: [saveAllStats] run on a
    store with unique triples, from a form that was loaded before a row
    of the game was inserted, inserts that row again. *)
Lemma saveAllStats_stale_form_duplicates :
  unique_statistics Samples.store1
  /\ map st_key (statistics Samples.store2)
     = [("e1", "p1", "u1"); ("e1", "p1", "u1"); ("e1", "p2", "u1")]
  /\ ~ unique_statistics Samples.store2.
Proof.
  split; [|split].
  - unfold unique_statistics. vm_compute.
    repeat constructor; simpl; intuition discriminate.
  - reflexivity.
  - unfold unique_statistics. vm_compute. intros H.
    apply NoDup_cons_iff in H. destruct H as [H _]. apply H. simpl. auto.
Qed.

End UpsertFacts.

(** ** Saving the statistics of a game for the whole roster *)

Module RosterSaveFacts.

Import JsObject JsObjectFacts StatsForm Spec Invariants StoreFacts.
Import StatsFormFacts RosterFacts Averages.



Section Roster.

Variable order_by_name : list PlayerRow -> list PlayerRow.
Hypothesis order_by_name_perm :
  forall rows, Permutation (order_by_name rows) rows.




End Roster.


End RosterSaveFacts.

(** ** The statistics form: a sequence of edits *)

Module EditLaws.

Import JsObject JsObjectFacts JsObjectLaws StatsForm Spec Invariants.

Lemma same_stat_eq a b : same_stat a b = true <-> a = b.
Proof. destruct a, b; cbn; split; congruence. Qed.

Lemma stat_of_with_stat prev s' v s :
  stat_of s (with_stat (Some prev) s' v)
  = if same_stat s' s then Some v else stat_of s prev.
Proof. destruct s', s; reflexivity. Qed.

Lemma handleStatChange_get k' s' parsed form k e :
  get form k = Some e ->
  get (handleStatChange k' s' parsed form) k
  = Some (if String.eqb k' k then with_stat (Some e) s' (or_zero parsed) else e).
Proof.
  intros Hget. unfold handleStatChange. rewrite get_set.
  destruct (String.eqb_spec k' k) as [->|]; [|exact Hget].
  now rewrite Hget.
Qed.

(** X10.  After a sequence of edits of the statistics form, each count of
    a player of the form holds the value of the last edit of that count
    of that player, a text that is not a number counting as zero, or
    the value it had when no edit touched it.  The edits change neither
    the row identifier, nor the player, nor the game of the entry, and
    the edits of other players and other counts leave the count as it
    is. *)
Theorem handleStatChanges_last_edit edits : forall form k e,
  get form k = Some e ->
  exists e',
    get (handleStatChanges edits form) k = Some e'
    /\ ps_id e' = ps_id e
    /\ ps_player_id e' = ps_player_id e
    /\ ps_event_id e' = ps_event_id e
    /\ forall s,
         stat_of s e' = match last_edit k s edits with
                        | Some parsed => Some (or_zero parsed)
                        | None => stat_of s e
                        end.
Proof.
  unfold handleStatChanges.
  induction edits as [|[[k' s'] parsed] edits IH]; intros form k e Hget;
    cbn [fold_left last_edit].
  - exists e. repeat split; auto.
  - pose proof (handleStatChange_get k' s' parsed form k e Hget) as Hstep.
    destruct (IH _ _ _ Hstep) as [e' [Hget' [Hid [Hpl [Hev Hstat]]]]].
    exists e'. split; [exact Hget'|].
    destruct (String.eqb_spec k' k) as [->|Hne]; cbn [andb].
    + split; [rewrite Hid; reflexivity|]. split; [rewrite Hpl; reflexivity|].
      split; [rewrite Hev; reflexivity|].
      intros s. rewrite Hstat.
      destruct (last_edit k s edits); [reflexivity|].
      rewrite stat_of_with_stat. destruct (same_stat s' s); reflexivity.
    + split; [exact Hid|]. split; [exact Hpl|]. split; [exact Hev|].
      intros s. rewrite Hstat. destruct (last_edit k s edits); reflexivity.
Qed.

Lemma handleStatChanges_last_edit_witness :
  get Samples.form0 "p1" = Some (zero_entry "p1" "e1")
  /\ exists e',
       get (handleStatChanges
              [("p1", points, Some 7); ("p2", points, Some 9);
               ("p1", points, None); ("p1", assists, Some 3)]
              Samples.form0) "p1" = Some e'
       /\ ps_id e' = None
       /\ stat_of points e' = Some 0
       /\ stat_of assists e' = Some 3
       /\ stat_of blocks e' = Some 0.
Proof.
  assert (get Samples.form0 "p1" = Some (zero_entry "p1" "e1")) as Hget
    by reflexivity.
  split; [exact Hget|].
  destruct (handleStatChanges_last_edit
              [("p1", points, Some 7); ("p2", points, Some 9);
               ("p1", points, None); ("p1", assists, Some 3)]
              Samples.form0 "p1" _ Hget)
    as [e' [Hget' [Hid [_ [_ Hstat]]]]].
  exists e'. split; [exact Hget'|]. split; [exact Hid|].
  split; [exact (Hstat points)|]. split; [exact (Hstat assists)|].
  exact (Hstat blocks).
Defined.

End EditLaws.

(** ** The game form and the games page *)

Module GamesLaws.

Import GameForm GamesPage GamesList Requests Spec Invariants KeyLaws.

Lemma map_fixed {A} (f : A -> A) l : (forall x, In x l -> f x = x) -> map f l = l.
Proof.
  intros H. rewrite <- (map_id l) at 2. now apply map_ext_in.
Qed.

Lemma nonempty_some_or_empty (s : option string) :
  nonempty (Some (match s with Some l => l | None => "" end)) = nonempty s.
Proof. destruct s as [[|c s]|]; reflexivity. Qed.

(** What a submission of the form as the dialog fills it writes over
    the row of the game. *)
Lemma resubmitted_row user_id r r0 :
  gameData user_id (form_values_of (game_of r))
    (deriveGameResult
       (score_of (gv_team_score (form_values_of (game_of r))))
       (score_of (gv_opponent_score (form_values_of (game_of r))))) r0
  = {| ev_id := ev_id r0;
       ev_title := ev_title r;
       ev_type := "game";
       ev_date := ev_date r;
       ev_location := nonempty (ev_location r);
       ev_opponent := nonempty (ev_opponent r);
       ev_team_score := nonzero (ev_team_score r);
       ev_opponent_score := nonzero (ev_opponent_score r);
       ev_result := expected_result (nonzero (ev_team_score r))
                                    (nonzero (ev_opponent_score r));
       ev_updated_at := ev_updated_at r0;
       ev_user_id := user_id |}.
Proof.
  unfold gameData. rewrite GameFormFacts.deriveGameResult_expected.
  cbn [form_values_of game_of gv_title gv_date gv_location gv_opponent
       gv_team_score gv_opponent_score game_title game_date game_location
       game_opponent game_team_score game_opponent_score].
  now rewrite !nonempty_some_or_empty.
Qed.

(** X11.  Opening the edit dialog on a game and submitting it as the
    dialog filled it.  The row of the game then holds the scores of the
    game with a score of zero turned into no score, the result those
    scores call for, and the location and opponent with an empty text
    turned into none.  So the store is left as it was when the game is
    a consistent game of the user without a zero score (and without an
    empty location or opponent text); and a game with a team score of
    zero loses that score and its result. *)
Theorem edit_without_change user_id now st r :
  (forall r',
      In r' (events (onSubmit (Some user_id) (Some (game_of r)) now
                       (form_values_of (game_of r)) st)) ->
      ev_id r' = ev_id r ->
      ev_team_score r' = nonzero (ev_team_score r)
      /\ ev_opponent_score r' = nonzero (ev_opponent_score r)
      /\ ev_result r' = expected_result (nonzero (ev_team_score r))
                                        (nonzero (ev_opponent_score r))
      /\ ev_location r' = nonempty (ev_location r)
      /\ ev_opponent r' = nonempty (ev_opponent r))
  /\ (NoDup (map ev_id (events st)) -> In r (events st) ->
      ev_type r = "game" -> ev_user_id r = user_id ->
      result_consistent r ->
      ev_team_score r <> Some 0 -> ev_opponent_score r <> Some 0 ->
      ev_location r <> Some "" -> ev_opponent r <> Some "" ->
      onSubmit (Some user_id) (Some (game_of r)) now
        (form_values_of (game_of r)) st = st)
  /\ (In r (events st) -> ev_team_score r = Some 0 ->
      exists r',
        In r' (events (onSubmit (Some user_id) (Some (game_of r)) now
                         (form_values_of (game_of r)) st))
        /\ ev_id r' = ev_id r
        /\ ev_team_score r' = None /\ ev_result r' = None).
Proof.
  cbn [onSubmit game_of game_id]. split; [|split].
  - intros r' Hin Hid. apply GameFormFacts.in_update_event in Hin.
    destruct Hin as [r0 [Hin0 ->]].
    destruct (String.eqb_spec (ev_id r0) (ev_id r)) as [Heq|Hne].
    + pose proof (resubmitted_row user_id r r0) as Hrow.
      cbn [game_of] in Hrow. rewrite Hrow. cbn. auto.
    + contradiction.
  - intros Hnd Hin Htype Huser Hcons Hts Hos Hloc Hopp.
    unfold update_event.
    rewrite map_fixed.
    + destruct st; reflexivity.
    + intros r0 Hin0.
      destruct (String.eqb_spec (ev_id r0) (ev_id r)) as [Heq|]; [|reflexivity].
      rewrite (same_id ev_id _ r0 r Hnd Hin0 Hin Heq).
      pose proof (resubmitted_row user_id r r) as Hrow.
      cbn [game_of] in Hrow. rewrite Hrow.
      unfold result_consistent in Hcons.
      assert (nonzero (ev_team_score r) = ev_team_score r) as ->.
      { destruct (ev_team_score r) as [[| |]|]; try reflexivity. congruence. }
      assert (nonzero (ev_opponent_score r) = ev_opponent_score r) as ->.
      { destruct (ev_opponent_score r) as [[| |]|]; try reflexivity. congruence. }
      assert (nonempty (ev_location r) = ev_location r) as ->.
      { destruct (ev_location r) as [[|c s]|]; try reflexivity. congruence. }
      assert (nonempty (ev_opponent r) = ev_opponent r) as ->.
      { destruct (ev_opponent r) as [[|c s]|]; try reflexivity. congruence. }
      rewrite <- Hcons, <- Htype, <- Huser. destruct r; reflexivity.
  - intros Hin Hzero. eexists. split.
    + apply GameFormFacts.in_update_event. exists r. split; [exact Hin|].
      rewrite String.eqb_refl. reflexivity.
    + pose proof (resubmitted_row user_id r r) as Hrow.
      cbn [game_of] in Hrow. rewrite Hrow. cbn. rewrite Hzero. cbn. auto.
Qed.

Lemma edit_without_change_witness :
  NoDup (map ev_id [Samples.game_row "e1" "Match 1" (Some 10) (Some 7) (Some win);
                    Samples.game_row "e2" "Match 2" (Some 0) (Some 5) (Some loss)])
  /\ result_consistent (Samples.game_row "e1" "Match 1" (Some 10) (Some 7) (Some win))
  /\ onSubmit (Some "u1")
       (Some (game_of (Samples.game_row "e1" "Match 1" (Some 10) (Some 7)
                         (Some win))))
       "t1"
       (form_values_of
          (game_of (Samples.game_row "e1" "Match 1" (Some 10) (Some 7) (Some win))))
       {| players := []; attendance := []; statistics := []; next_id := 0;
          events :=
            [Samples.game_row "e1" "Match 1" (Some 10) (Some 7) (Some win);
             Samples.game_row "e2" "Match 2" (Some 0) (Some 5) (Some loss)] |}
     = {| players := []; attendance := []; statistics := []; next_id := 0;
          events :=
            [Samples.game_row "e1" "Match 1" (Some 10) (Some 7) (Some win);
             Samples.game_row "e2" "Match 2" (Some 0) (Some 5) (Some loss)] |}
  /\ exists r',
       In r' (events
                (onSubmit (Some "u1")
                   (Some (game_of (Samples.game_row "e2" "Match 2" (Some 0)
                                     (Some 5) (Some loss))))
                   "t1"
                   (form_values_of
                      (game_of (Samples.game_row "e2" "Match 2" (Some 0) (Some 5)
                                  (Some loss))))
                   {| players := []; attendance := []; statistics := [];
                      next_id := 0;
                      events :=
                        [Samples.game_row "e1" "Match 1" (Some 10) (Some 7)
                           (Some win);
                         Samples.game_row "e2" "Match 2" (Some 0) (Some 5)
                           (Some loss)] |}))
       /\ ev_id r' = "e2" /\ ev_team_score r' = None /\ ev_result r' = None.
Proof.
  set (r1 := Samples.game_row "e1" "Match 1" (Some 10) (Some 7) (Some win)).
  set (r2 := Samples.game_row "e2" "Match 2" (Some 0) (Some 5) (Some loss)).
  set (st := {| players := []; attendance := []; statistics := [];
                next_id := 0; events := [r1; r2] |}).
  assert (NoDup (map ev_id [r1; r2])) as Hnd
    by (repeat constructor; simpl; intuition discriminate).
  assert (result_consistent r1) as Hc by reflexivity.
  split; [exact Hnd|]. split; [exact Hc|]. split.
  - apply (proj1 (proj2 (edit_without_change "u1" "t1" st r1)));
      try reflexivity; try discriminate; [exact Hnd | now left].
  - apply (proj2 (proj2 (edit_without_change "u1" "t1" st r2)));
      [right; now left | reflexivity].
Defined.

(** X12.  [deleteGame] removes the statistic rows of the game whether
    or not the store then carries out the delete of the game itself:
    when that request is refused the game stays listed without its
    statistics.  The rows of other games, the players and the other
    events are left as they are, and the averages page then reads the
    statistic rows it read before, less those of the game. *)
Theorem deleteGame_statistics accepted gameId st :
  statistics (deleteGame accepted gameId st)
  = filter (fun r => negb (String.eqb (st_event_id r) gameId)) (statistics st)
  /\ (forall r, In r (statistics (deleteGame accepted gameId st)) <->
                In r (statistics st) /\ st_event_id r <> gameId)
  /\ players (deleteGame accepted gameId st) = players st
  /\ (accepted = true ->
      forall e, In e (events (deleteGame accepted gameId st)) <->
                In e (events st) /\ ev_id e <> gameId)
  /\ (accepted = false -> events (deleteGame accepted gameId st) = events st)
  /\ (forall user_id,
        AveragesPage.statsData user_id (deleteGame accepted gameId st)
        = filter (fun s => negb (String.eqb (Averages.stat_event_id s) gameId))
                 (AveragesPage.statsData user_id st)).
Proof.
  assert (statistics (deleteGame accepted gameId st)
          = filter (fun r => negb (String.eqb (st_event_id r) gameId))
                   (statistics st)) as Hs
    by (unfold deleteGame; destruct accepted; reflexivity).
  split; [exact Hs|]. split; [|split; [|split; [|split]]].
  - intros r. rewrite Hs. apply PlayersPageFacts.in_filter_other.
  - unfold deleteGame. destruct accepted; reflexivity.
  - intros -> e. cbn [deleteGame delete_events delete_statistics events].
    apply PlayersPageFacts.in_filter_other.
  - intros ->. reflexivity.
  - intros user_id. unfold AveragesPage.statsData. rewrite Hs.
    rewrite filter_filter, filter_map_swap. f_equal.
    rewrite filter_filter. apply filter_ext. intros r.
    cbn [AveragesPage.stat_of Averages.stat_event_id]. apply andb_comm.
Qed.

Lemma deleteGame_statistics_witness :
  map st_event_id (statistics Samples.store_saved) = ["e1"; "e1"]
  /\ statistics (deleteGame false "e1" Samples.store_saved) = []
  /\ events (deleteGame false "e1" Samples.store_saved)
     = events Samples.store_saved
  /\ events (deleteGame true "e1" Samples.store_saved) = []
  /\ forall e, In e (events (deleteGame true "e1" Samples.store_saved)) ->
               ev_id e <> "e1".
Proof.
  destruct (deleteGame_statistics false "e1" Samples.store_saved)
    as [Hs [_ [_ [_ [He _]]]]].
  destruct (deleteGame_statistics true "e1" Samples.store_saved)
    as [_ [_ [_ [Ht _]]]].
  split; [reflexivity|]. split; [rewrite Hs; reflexivity|].
  split; [exact (He eq_refl)|]. split; [reflexivity|].
  intros e Hin. exact (proj2 (proj1 (Ht eq_refl e) Hin)).
Defined.

End GamesLaws.

(** ** What every write handler keeps *)

Module SessionLaws.

Import JsObject GameForm Requests Spec Invariants KeyLaws StoreFacts.
Import AttendancePage StatsForm Session.

(** *** The tables a handler does not write *)

Lemma save_loop_frame e u now entries : forall st,
  players (fst (save_loop e u now entries st)) = players st
  /\ events (fst (save_loop e u now entries st)) = events st
  /\ statistics (fst (save_loop e u now entries st)) = statistics st
  /\ (next_id st <= next_id (fst (save_loop e u now entries st)))%nat.
Proof.
  induction entries as [|[k v] entries IH]; intros st; cbn [save_loop].
  - cbn. auto.
  - destruct (save_one e u now k v st) as [st1|] eqn:Hstep; [|cbn; auto].
    destruct (AttendanceFacts.save_one_frame _ _ _ _ _ _ _ Hstep)
      as (H1 & H2 & H3 & H4).
    destruct (IH st1) as (I1 & I2 & I3 & I4).
    rewrite I1, I2, I3, H1, H2, H3. repeat split; lia.
Qed.

Lemma save_loop_issued e u now entries : forall st,
  issued at_id (attendance st) (next_id st) ->
  issued at_id (attendance (fst (save_loop e u now entries st)))
         (next_id (fst (save_loop e u now entries st))).
Proof.
  induction entries as [|[k v] entries IH]; intros st Hiss; cbn [save_loop].
  - exact Hiss.
  - destruct (save_one e u now k v st) as [st1|] eqn:Hstep; [|exact Hiss].
    apply IH.
    now destruct (AttendanceLaws.save_one_recorded _ _ _ _ _ _ _ Hiss Hstep).
Qed.

Lemma save_stat_frame u g now k en st :
  players (save_stat u g now k en st) = players st
  /\ events (save_stat u g now k en st) = events st
  /\ attendance (save_stat u g now k en st) = attendance st
  /\ (next_id st <= next_id (save_stat u g now k en st))%nat.
Proof.
  unfold save_stat. destruct (ps_id en) as [[|c i]|]; cbn; auto.
Qed.

Lemma save_stat_issued u g now k en st :
  issued st_id (statistics st) (next_id st) ->
  Forall (fun r => st_id r <> "") (statistics st) ->
  issued st_id (statistics (save_stat u g now k en st))
         (next_id (save_stat u g now k en st))
  /\ Forall (fun r => st_id r <> "") (statistics (save_stat u g now k en st)).
Proof.
  intros Hiss Hids.
  assert (issued st_id
            (statistics st ++
             [{| st_id := new_id st; st_event_id := g; st_player_id := k;
                 st_points := ps_points en; st_rebounds := ps_rebounds en;
                 st_assists := ps_assists en; st_steals := ps_steals en;
                 st_blocks := ps_blocks en; st_updated_at := now;
                 st_user_id := u |}]) (S (next_id st))
          /\ Forall (fun r => st_id r <> "")
               (statistics st ++
                [{| st_id := new_id st; st_event_id := g; st_player_id := k;
                    st_points := ps_points en; st_rebounds := ps_rebounds en;
                    st_assists := ps_assists en; st_steals := ps_steals en;
                    st_blocks := ps_blocks en; st_updated_at := now;
                    st_user_id := u |}])) as Hins.
  { split.
    - apply issued_insert; [exact Hiss | reflexivity].
    - apply Forall_app. split; [exact Hids|]. repeat constructor.
      apply StatsFormLaws.id_of_nonempty. }
  unfold save_stat. destruct (ps_id en) as [[|c i]|];
    cbn [insert_statistic update_statistic statistics next_id];
    try exact Hins.
  split.
  - now apply issued_update.
  - apply Forall_forall. intros r Hr. apply in_map_iff in Hr.
    destruct Hr as [r1 [<- Hr1]]. rewrite Forall_forall in Hids.
    specialize (Hids r1 Hr1).
    destruct (String.eqb (st_id r1) (String c i)); exact Hids.
Qed.

Lemma issued_mono {A} (id : A -> string) rows next next' :
  (next <= next')%nat -> issued id rows next -> issued id rows next'.
Proof.
  intros Hle [Hnd Hfresh]. split; [exact Hnd|]. intros n Hn. apply Hfresh. lia.
Qed.

Lemma fold_save_stat_keyed u g now form : forall st,
  keyed st ->
  keyed (fold_left (fun st' '(playerId, playerStat) =>
                      save_stat u g now playerId playerStat st') form st).
Proof.
  induction form as [|[k en] form IH]; intros st Hk; cbn [fold_left];
    [exact Hk|].
  apply IH. destruct Hk as (Hp & He & Ha & Hs & Hn).
  destruct (save_stat_frame u g now k en st) as (F1 & F2 & F3 & F4).
  destruct (save_stat_issued u g now k en st Hs Hn) as [Hs' Hn'].
  unfold keyed. rewrite F1, F2, F3.
  split; [|split; [|split; [|split]]]; try assumption;
    eapply issued_mono; eauto.
Qed.

Lemma fold_save_stat_frame u g now form : forall st,
  let st' := fold_left (fun st' '(playerId, playerStat) =>
                          save_stat u g now playerId playerStat st') form st in
  events st' = events st /\ attendance st' = attendance st.
Proof.
  induction form as [|[k en] form IH]; intros st; cbn [fold_left]; [auto|].
  destruct (IH (save_stat u g now k en st)) as [H1 H2].
  destruct (save_stat_frame u g now k en st) as (_ & F2 & F3 & _).
  cbn zeta in *. rewrite H1, H2, F2, F3. auto.
Qed.

Lemma saveAllStats_cases user g now form st :
  saveAllStats user g now form st = st
  \/ exists u,
       saveAllStats user g now form st
       = fold_left (fun st' '(playerId, playerStat) =>
                      save_stat u g now playerId playerStat st') form st.
Proof.
  unfold saveAllStats. destruct user as [[|c u]|]; auto.
  right. now exists (String c u).
Qed.

Lemma Forall_filter {A} (P : A -> Prop) (sel : A -> bool) l :
  Forall P l -> Forall P (filter sel l).
Proof.
  rewrite !Forall_forall. intros H x Hx. apply filter_In in Hx. apply H. tauto.
Qed.

Section Run.

Variable toISOString : string -> string.
Variable toISOString_at : string -> string -> string.

Let perform := Session.perform toISOString toISOString_at.
Let run := Session.run toISOString toISOString_at.

(** *** The results *)

Lemma consistent_blank now id : result_consistent (blank_event now id).
Proof. reflexivity. Qed.

Lemma perform_consistent r st :
  Forall result_consistent (events st) ->
  Forall result_consistent (events (perform r st)).
Proof.
  intros H. destruct r; cbn [perform Session.perform].
  - destruct editingPlayer; exact H.
  - unfold PlayersPage.deletePlayer. destruct playerToDelete as [[|c i]|];
      exact H.
  - destruct user as [user_id|]; [|exact H]. cbn [onSubmit].
    destruct editingGame as [g|].
    + rewrite Forall_forall in *. intros r' Hin.
      apply GameFormFacts.in_update_event in Hin. destruct Hin as [r [Hin ->]].
      destruct (String.eqb (ev_id r) (game_id g)).
      * eapply GameFormFacts.written_consistent, GameFormFacts.written_gameData.
      * now apply H.
    + unfold insert_event. cbn [events]. apply Forall_app. split; [exact H|].
      constructor; [|constructor].
      eapply GameFormFacts.written_consistent, GameFormFacts.written_gameData.
  - unfold GamesPage.deleteGame. destruct accepted; cbn; [|exact H].
    now apply Forall_filter.
  - unfold CalendarPage.onSubmit. destruct editingEvent as [id|].
    + rewrite Forall_forall in *. intros r' Hin.
      apply GameFormFacts.in_update_event in Hin. destruct Hin as [r [Hin ->]].
      destruct (String.eqb (ev_id r) id); [|now apply H].
      exact (H r Hin).
    + unfold insert_event. cbn [events]. apply Forall_app. split; [exact H|].
      repeat constructor.
  - unfold CalendarPage.deleteEvent. destruct accepted; cbn; [|exact H].
    now apply Forall_filter.
  - unfold AttendanceState.createNewEvent.
    destruct (AttendanceState.ef_title data) as [[|c t]|]; try exact H.
    unfold insert_event. cbn [events]. apply Forall_app. split; [exact H|].
    repeat constructor.
  - destruct selectedEvent as [e|]; [|exact H]. cbn [saveAttendance].
    now rewrite (proj1 (proj2 (save_loop_frame e user_id now
                                 (enumerate playerAttendance) st))).
  - destruct (saveAllStats_cases user gameId now playerStats st) as [->|[u ->]];
      [exact H|].
    now rewrite (proj1 (fold_save_stat_frame u gameId now playerStats st)).
  - unfold saveAllStats_refused.
    destruct (saveAllStats_cases user gameId now (firstn k playerStats) st)
      as [->|[u ->]]; [exact H|].
    now rewrite (proj1 (fold_save_stat_frame u gameId now _ st)).
Qed.

(** *** The attendance triples *)

Lemma perform_unique r st :
  unique_attendance st -> unique_attendance (perform r st).
Proof.
  intros H. destruct r; cbn [perform Session.perform].
  - destruct editingPlayer; exact H.
  - unfold PlayersPage.deletePlayer. destruct playerToDelete as [[|c i]|];
      try exact H.
    unfold unique_attendance. cbn. now apply RosterFacts.NoDup_map_filter.
  - destruct user as [user_id|]; [|exact H]. destruct editingGame; exact H.
  - unfold GamesPage.deleteGame. destruct accepted; exact H.
  - destruct editingEvent; exact H.
  - unfold CalendarPage.deleteEvent. destruct accepted; exact H.
  - unfold AttendanceState.createNewEvent.
    destruct (AttendanceState.ef_title data) as [[|c t]|]; exact H.
  - destruct selectedEvent as [e|]; [|exact H]. cbn [saveAttendance].
    apply AttendanceFacts.save_loop_unique. exact H.
  - destruct (saveAllStats_cases user gameId now playerStats st) as [->|[u ->]];
      [exact H|]. unfold unique_attendance.
    now rewrite (proj2 (fold_save_stat_frame u gameId now playerStats st)).
  - unfold saveAllStats_refused.
    destruct (saveAllStats_cases user gameId now (firstn k playerStats) st)
      as [->|[u ->]]; [exact H|]. unfold unique_attendance.
    now rewrite (proj2 (fold_save_stat_frame u gameId now _ st)).
Qed.

(** *** The keys *)

Lemma keyed_insert_event mk st :
  (forall id, ev_id (mk id) = id) -> keyed st -> keyed (insert_event mk st).
Proof.
  intros Hmk (Hp & He & Ha & Hs & Hn). unfold keyed.
  cbn [insert_event players events attendance statistics next_id].
  split; [|split; [|split; [|split]]];
    try (apply issued_later; assumption); try assumption.
  apply issued_insert; [exact He | apply Hmk].
Qed.

Lemma perform_keyed r st : keyed st -> keyed (perform r st).
Proof.
  intros H. destruct r; cbn [perform Session.perform].
  - destruct H as (Hp & He & Ha & Hs & Hn).
    unfold PlayerForm.onSubmit, keyed. destruct editingPlayer as [id|];
      cbn [update_player insert_player players events attendance statistics
           next_id].
    + split; [|split; [|split; [|split]]]; try assumption.
      now apply issued_update.
    + split; [|split; [|split; [|split]]];
        try (apply issued_later; assumption); try assumption.
      apply issued_insert; [exact Hp | reflexivity].
  - destruct H as (Hp & He & Ha & Hs & Hn).
    unfold PlayersPage.deletePlayer, keyed.
    destruct playerToDelete as [[|c i]|];
      try (split; [|split; [|split; [|split]]]; assumption).
    cbn [delete_players delete_attendance delete_statistics players events
         attendance statistics next_id].
    split; [|split; [|split; [|split]]]; try assumption;
      try (apply issued_delete; assumption).
    now apply Forall_filter.
  - destruct user as [user_id|]; [|exact H]. cbn [onSubmit].
    destruct editingGame as [g|].
    + destruct H as (Hp & He & Ha & Hs & Hn). unfold keyed.
      cbn [update_event players events attendance statistics next_id].
      split; [|split; [|split; [|split]]]; try assumption.
      now apply issued_update.
    + apply keyed_insert_event; [reflexivity | exact H].
  - destruct H as (Hp & He & Ha & Hs & Hn).
    unfold GamesPage.deleteGame, keyed. destruct accepted;
      cbn [delete_events delete_statistics players events attendance
           statistics next_id];
      (split; [|split; [|split; [|split]]]); try assumption;
        try (apply issued_delete; assumption); now apply Forall_filter.
  - unfold CalendarPage.onSubmit. destruct editingEvent as [id|].
    + destruct H as (Hp & He & Ha & Hs & Hn). unfold keyed.
      cbn [update_event players events attendance statistics next_id].
      split; [|split; [|split; [|split]]]; try assumption.
      now apply issued_update.
    + apply keyed_insert_event; [reflexivity | exact H].
  - destruct H as (Hp & He & Ha & Hs & Hn).
    unfold CalendarPage.deleteEvent, keyed. destruct accepted;
      cbn [delete_events players events attendance statistics next_id];
      (split; [|split; [|split; [|split]]]); try assumption.
    now apply issued_delete.
  - unfold AttendanceState.createNewEvent.
    destruct (AttendanceState.ef_title data) as [[|c t]|]; try exact H.
    apply keyed_insert_event; [reflexivity | exact H].
  - destruct selectedEvent as [e|]; [|exact H]. cbn [saveAttendance].
    destruct H as (Hp & He & Ha & Hs & Hn).
    destruct (save_loop_frame e user_id now (enumerate playerAttendance) st)
      as (F1 & F2 & F3 & F4).
    pose proof (save_loop_issued e user_id now (enumerate playerAttendance)
                  st Ha) as Ha'.
    unfold keyed. rewrite F1, F2, F3.
    split; [|split; [|split; [|split]]]; try assumption;
      eapply issued_mono; eauto.
  - destruct (saveAllStats_cases user gameId now playerStats st) as [->|[u ->]];
      [exact H|]. now apply fold_save_stat_keyed.
  - unfold saveAllStats_refused.
    destruct (saveAllStats_cases user gameId now (firstn k playerStats) st)
      as [->|[u ->]]; [exact H|]. now apply fold_save_stat_keyed.
Qed.

Lemma sound_empty : sound Session.empty.
Proof.
  unfold sound, keyed, issued, unique_attendance. cbn.
  repeat split; try constructor; intros n _ [].
Qed.

Lemma perform_sound r st : sound st -> sound (perform r st).
Proof.
  intros (Hk & Hc & Hu). split; [|split].
  - now apply perform_keyed.
  - now apply perform_consistent.
  - now apply perform_unique.
Qed.

Lemma run_sound requests : forall st, sound st -> sound (run requests st).
Proof.
  induction requests as [|r requests IH]; intros st H; cbn; [exact H|].
  apply IH. now apply perform_sound.
Qed.

(** What the list of games shows for a game whose result agrees with
    its scores. *)
Lemma cells_of_consistent r :
  result_consistent r ->
  match ev_team_score r, ev_opponent_score r with
  | Some t, Some o =>
      GamesList.result_cell (GamesPage.game_of r)
      = GamesList.Shown (if o <? t then "Victoire"
                         else if t <? o then "Défaite" else "Égalité")
      /\ GamesList.score_cell (GamesPage.game_of r)
         = GamesList.Shown
             (t, o,
              if o <? t then "text-green-600 dark:text-green-400"
              else if t <? o then "text-red-600 dark:text-red-400"
              else "text-amber-600 dark:text-amber-400")
  | _, _ =>
      GamesList.result_cell (GamesPage.game_of r) = GamesList.Dash
      /\ GamesList.score_cell (GamesPage.game_of r) = GamesList.Dash
  end.
Proof.
  unfold result_consistent, GamesList.result_cell, GamesList.score_cell.
  cbn [GamesPage.game_of game_team_score game_opponent_score game_result].
  intros ->. destruct (ev_team_score r) as [t|], (ev_opponent_score r) as [o|];
    cbn [expected_result option_map]; try (split; reflexivity).
  destruct (o <? t); [split; reflexivity|].
  destruct (t <? o); split; reflexivity.
Qed.

(** X13.  The result of every event agrees with its scores in every
    store the write handlers of the pages produce from the empty store,
    whatever they are given: each handler keeps that agreement.  So the
    list of games shows, for each game, a score and a badge together or
    neither, and the badge and the colour of the score say who scored
    more. *)
Theorem results_stay_consistent :
  (forall r st,
      Forall result_consistent (events st) ->
      Forall result_consistent (events (perform r st)))
  /\ (forall requests,
         Forall result_consistent (events (run requests Session.empty)))
  /\ (forall order_by_date_desc : list EventRow -> list EventRow,
         (forall rows, Permutation (order_by_date_desc rows) rows) ->
         forall requests user_id game,
           In game (GamesPage.loadGames order_by_date_desc user_id
                      (run requests Session.empty)) ->
           match game_team_score game, game_opponent_score game with
           | Some t, Some o =>
               GamesList.result_cell game
               = GamesList.Shown (if o <? t then "Victoire"
                                  else if t <? o then "Défaite" else "Égalité")
               /\ GamesList.score_cell game
                  = GamesList.Shown
                      (t, o,
                       if o <? t then "text-green-600 dark:text-green-400"
                       else if t <? o then "text-red-600 dark:text-red-400"
                       else "text-amber-600 dark:text-amber-400")
           | _, _ =>
               GamesList.result_cell game = GamesList.Dash
               /\ GamesList.score_cell game = GamesList.Dash
           end).
Proof.
  assert (forall requests,
             Forall result_consistent (events (run requests Session.empty)))
    as Hrun.
  { intros requests. apply (run_sound requests Session.empty sound_empty). }
  split; [exact perform_consistent|]. split; [exact Hrun|].
  intros order Hperm requests user_id game Hin.
  unfold GamesPage.loadGames in Hin. apply in_map_iff in Hin.
  destruct Hin as [r [<- Hr]].
  apply (Permutation_in _ (Hperm _)) in Hr. apply filter_In in Hr.
  destruct Hr as [Hr _].
  pose proof (Hrun requests) as Hall. rewrite Forall_forall in Hall.
  exact (cells_of_consistent r (Hall r Hr)).
Qed.

(** X14.  In every store the write handlers of the pages produce from
    the empty store, the identifiers of each table are a primary key and
    no two attendance rows have the same (event, player, owner) triple:
    each handler keeps both, however it ends.  So in such a store the
    lookup of [saveAttendance] never finds several rows: a save of the
    attendance of an event of the store, for players of the store, ends
    normally, and a save that ends in its [catch] block was refused a
    row whose event or player the store does not hold. *)
Theorem handlers_keep_keys :
  (forall r st, keyed st -> keyed (perform r st))
  /\ (forall r st, unique_attendance st -> unique_attendance (perform r st))
  /\ (forall requests,
         keyed (run requests Session.empty)
         /\ unique_attendance (run requests Session.empty)
         /\ (forall e user_id now playerAttendance,
               In e (map ev_id (events (run requests Session.empty))) ->
               (forall k, In k (keys playerAttendance) ->
                          In k (map pl_id (players (run requests Session.empty)))) ->
               snd (saveAttendance (Some e) user_id now playerAttendance
                      (run requests Session.empty)) = Done)
         /\ (forall e user_id now playerAttendance,
               snd (saveAttendance (Some e) user_id now playerAttendance
                      (run requests Session.empty)) = Caught ->
               ~ In e (map ev_id (events (run requests Session.empty)))
               \/ exists k,
                    In k (keys playerAttendance)
                    /\ ~ In k (map pl_id (players (run requests Session.empty))))).
Proof.
  split; [exact perform_keyed|]. split; [exact perform_unique|].
  intros requests.
  destruct (run_sound requests Session.empty sound_empty) as (Hk & _ & Hu).
  assert (forall e user_id now playerAttendance,
             In e (map ev_id (events (run requests Session.empty))) ->
             (forall k, In k (keys playerAttendance) ->
                        In k (map pl_id (players (run requests Session.empty)))) ->
             snd (saveAttendance (Some e) user_id now playerAttendance
                    (run requests Session.empty)) = Done) as Hdone.
  { intros e user_id now playerAttendance He Hp. cbn [saveAttendance].
    apply AttendanceFacts.save_loop_done; [exact Hu | exact He|].
    intros k Hin. apply Hp.
    exact (Permutation_in _ (EnumerateFacts.keys_enumerate _) Hin). }
  split; [exact Hk|]. split; [exact Hu|]. split; [exact Hdone|].
  intros e user_id now playerAttendance Hcaught.
  destruct (in_dec string_dec e
              (map ev_id (events (run requests Session.empty)))) as [He|He];
    [|now left].
  right.
  destruct (Exists_dec
              (fun k => ~ In k (map pl_id (players (run requests Session.empty))))
              (keys playerAttendance)) as [Hex|Hall].
  - intros k.
    destruct (in_dec string_dec k
                (map pl_id (players (run requests Session.empty))));
      [right; tauto | now left].
  - apply Exists_exists in Hex. exact Hex.
  - exfalso.
    rewrite (Hdone e user_id now playerAttendance He) in Hcaught;
      [discriminate|].
    intros k Hin.
    destruct (in_dec string_dec k
                (map pl_id (players (run requests Session.empty))))
      as [Hp|Hp]; [exact Hp|].
    exfalso. apply Hall. apply Exists_exists. now exists k.
Qed.

End Run.

Lemma results_stay_consistent_witness :
  Forall result_consistent (events Samples.store0)
  /\ Forall result_consistent
       (events
          (Session.perform (fun d => d) (fun d t => d)
             (SubmitEvent "u1" (Some "e1") "t1"
                {| CalendarPage.cv_title := "Match 1";
                   CalendarPage.cv_type := "training";
                   CalendarPage.cv_date := "2024-03-02T18:00:00Z";
                   CalendarPage.cv_location := Some "";
                   CalendarPage.cv_opponent := Some "" |})
             Samples.store0))
  /\ (forall rows : list EventRow, Permutation ((fun r => r) rows) rows)
  /\ In {| game_id := "0"; game_title := "Match 1";
           game_date := "2024-03-01T18:00:00Z";
           game_location := None; game_opponent := None;
           game_team_score := Some 7; game_opponent_score := Some 10;
           game_result := Some loss |}
        (GamesPage.loadGames (fun r => r) "u1"
           (Session.run (fun d => d) (fun d t => d)
              [SubmitGame (Some "u1") None "t1"
                 (Samples.final_score (Some 7) (Some 10))]
              Session.empty))
  /\ GamesList.result_cell
       {| game_id := "0"; game_title := "Match 1";
          game_date := "2024-03-01T18:00:00Z";
          game_location := None; game_opponent := None;
          game_team_score := Some 7; game_opponent_score := Some 10;
          game_result := Some loss |}
     = GamesList.Shown "Défaite".
Proof.
  destruct (results_stay_consistent (fun d => d) (fun d t => d))
    as [Hstep [_ Hlist]].
  assert (Forall result_consistent (events Samples.store0)) as H0
    by (repeat constructor).
  assert (forall rows : list EventRow, Permutation ((fun r => r) rows) rows)
    as Hperm by (intros; apply Permutation_refl).
  assert (In {| game_id := "0"; game_title := "Match 1";
                game_date := "2024-03-01T18:00:00Z";
                game_location := None; game_opponent := None;
                game_team_score := Some 7; game_opponent_score := Some 10;
                game_result := Some loss |}
             (GamesPage.loadGames (fun r => r) "u1"
                (Session.run (fun d => d) (fun d t => d)
                   [SubmitGame (Some "u1") None "t1"
                      (Samples.final_score (Some 7) (Some 10))]
                   Session.empty))) as Hin by (left; reflexivity).
  split; [exact H0|]. split; [exact (Hstep _ _ H0)|]. split; [exact Hperm|].
  split; [exact Hin|].
  exact (proj1 (Hlist (fun r => r) Hperm _ _ _ Hin)).
Defined.

Lemma handlers_keep_keys_witness :
  keyed Session.empty
  /\ keyed (Session.perform (fun d => d) (fun d t => d)
              (SubmitPlayer "u1" None "t0"
                 {| PlayerForm.pv_name := "A";
                    PlayerForm.pv_position := Some "";
                    PlayerForm.pv_jersey_number := Some 7 |})
              Session.empty)
  /\ unique_attendance Samples.store_saved
  /\ unique_attendance
       (Session.perform (fun d => d) (fun d t => d)
          (SaveAttendance (Some "e1") "u1" "t3" Samples.presence)
          Samples.store_saved)
  /\ In "1"
       (map ev_id
          (events
             (Session.run (fun d => d) (fun d t => d)
                [SubmitPlayer "u1" None "t0"
                   {| PlayerForm.pv_name := "A";
                      PlayerForm.pv_position := Some "";
                      PlayerForm.pv_jersey_number := Some 7 |};
                 SubmitGame (Some "u1") None "t1"
                   (Samples.final_score (Some 7) (Some 10))]
                Session.empty)))
  /\ snd (saveAttendance (Some "1") "u1" "t2" [("0", true)]
            (Session.run (fun d => d) (fun d t => d)
               [SubmitPlayer "u1" None "t0"
                  {| PlayerForm.pv_name := "A";
                     PlayerForm.pv_position := Some "";
                     PlayerForm.pv_jersey_number := Some 7 |};
                SubmitGame (Some "u1") None "t1"
                  (Samples.final_score (Some 7) (Some 10))]
               Session.empty)) = Done.
Proof.
  destruct (handlers_keep_keys (fun d => d) (fun d t => d)) as [Hk [Hu Hrun]].
  assert (keyed Session.empty) as H0 by apply sound_empty.
  assert (unique_attendance Samples.store_saved) as H1 by constructor.
  split; [exact H0|]. split; [exact (Hk _ _ H0)|]. split; [exact H1|].
  split; [exact (Hu _ _ H1)|].
  destruct (Hrun [SubmitPlayer "u1" None "t0"
                    {| PlayerForm.pv_name := "A";
                       PlayerForm.pv_position := Some "";
                       PlayerForm.pv_jersey_number := Some 7 |};
                  SubmitGame (Some "u1") None "t1"
                    (Samples.final_score (Some 7) (Some 10))])
    as (_ & _ & Hdone & _).
  assert (In "1"
            (map ev_id
               (events
                  (Session.run (fun d => d) (fun d t => d)
                     [SubmitPlayer "u1" None "t0"
                        {| PlayerForm.pv_name := "A";
                           PlayerForm.pv_position := Some "";
                           PlayerForm.pv_jersey_number := Some 7 |};
                      SubmitGame (Some "u1") None "t1"
                        (Samples.final_score (Some 7) (Some 10))]
                     Session.empty)))) as He by (left; reflexivity).
  split; [exact He|].
  apply Hdone; [exact He|].
  intros k [<-|[]]. left. reflexivity.
Defined.

End SessionLaws.

(** ** The calendar: events by day *)

Module CalendarLaws.

Import JsObject JsObjectFacts JsObjectLaws CalendarPage.

Section Group.

Variable dateKey : string -> string.

Let day (event : EventRow) : string := dateKey (ev_date event).

Let step (grouped : obj (list EventRow)) (event : EventRow) :=
  match get grouped (day event) with
  | None => set grouped (day event) [event]
  | Some dateEvents => set grouped (day event) (dateEvents ++ [event])
  end.

Lemma nodup_step grouped event :
  NoDup (keys grouped) -> NoDup (keys (step grouped event)).
Proof.
  intros Hnd. unfold step. destruct (get grouped (day event)); now apply nodup_set.
Qed.

Lemma nodup_fold_step events : forall grouped,
  NoDup (keys grouped) -> NoDup (keys (fold_left step events grouped)).
Proof.
  induction events as [|e events IH]; intros grouped Hnd; cbn [fold_left].
  - exact Hnd.
  - apply IH. now apply nodup_step.
Qed.

Lemma get_fold_step events : forall grouped k,
  get (fold_left step events grouped) k
  = match get grouped k with
    | Some dateEvents =>
        Some (dateEvents ++ filter (fun e => String.eqb (day e) k) events)
    | None =>
        match filter (fun e => String.eqb (day e) k) events with
        | [] => None
        | dateEvents => Some dateEvents
        end
    end.
Proof.
  induction events as [|e events IH]; intros grouped k; cbn [fold_left filter].
  - destruct (get grouped k); [now rewrite app_nil_r | reflexivity].
  - rewrite IH. unfold step.
    destruct (String.eqb_spec (day e) k) as [<-|Hne].
    + destruct (get grouped (day e)) as [old|].
      * rewrite get_set_same. now rewrite <- app_assoc.
      * rewrite get_set_same. reflexivity.
    + destruct (get grouped (day e)) as [old|];
        now rewrite get_set_other by exact Hne.
Qed.

Lemma concat_values_set (grouped : obj (list EventRow)) k old event :
  get grouped k = Some old ->
  Permutation (List.concat (values (set grouped k (old ++ [event]))))
              (List.concat (values grouped) ++ [event]).
Proof.
  induction grouped as [|[k0 v0] grouped IH]; cbn [get set]; [discriminate|].
  destruct (String.eqb_spec k0 k) as [->|Hne].
  - intros H. inversion H. subst v0. cbn [values map List.concat snd].
    rewrite <- !app_assoc. apply Permutation_app_head. apply Permutation_app_comm.
  - intros H. cbn [values map List.concat snd]. rewrite <- app_assoc.
    apply Permutation_app_head. exact (IH H).
Qed.

Lemma concat_values_step grouped event :
  Permutation (List.concat (values (step grouped event)))
              (List.concat (values grouped) ++ [event]).
Proof.
  unfold step. destruct (get grouped (day event)) as [old|] eqn:Hget.
  - now apply concat_values_set.
  - rewrite set_absent by now apply get_none_not_in.
    unfold values. rewrite map_app, concat_app. cbn [map List.concat snd].
    now rewrite app_nil_r.
Qed.

Lemma concat_values_fold events : forall grouped,
  Permutation (List.concat (values (fold_left step events grouped)))
              (List.concat (values grouped) ++ events).
Proof.
  induction events as [|e events IH]; intros grouped; cbn [fold_left].
  - now rewrite app_nil_r.
  - rewrite IH, concat_values_step, <- app_assoc. reflexivity.
Qed.

Lemma marked_existsb {A} (test : A -> bool) l :
  match match filter test l with
        | [] => None
        | dateEvents => Some dateEvents
        end with
  | Some dateEvents => (0 <? List.length dateEvents)%nat
  | None => false
  end = existsb test l.
Proof.
  induction l as [|x l IH]; cbn [filter existsb]; [reflexivity|].
  destruct (test x); cbn [orb]; [reflexivity | exact IH].
Qed.

(** X15.  [groupEventsByDate] files every event of the page under its
    day and nowhere else: the group of a day is the list of the events
    of that day, in the order of the page, a day without event has no
    group, the groups taken together are the events, each once, and a
    day cell is marked exactly when an event falls on it. *)
Theorem groupEventsByDate_by_day events :
  let grouped := groupEventsByDate dateKey events in
  (forall k,
      get grouped k
      = match filter (fun e => String.eqb (dateKey (ev_date e)) k) events with
        | [] => None
        | dateEvents => Some dateEvents
        end)
  /\ NoDup (keys grouped)
  /\ Permutation (List.concat (values grouped)) events
  /\ (forall k dateEvents,
         get grouped k = Some dateEvents ->
         dateEvents <> []
         /\ forall e, In e dateEvents <-> In e events /\ dateKey (ev_date e) = k)
  /\ (forall formattedDate,
         hasEvents dateKey events formattedDate
         = existsb (fun e => String.eqb (dateKey (ev_date e)) formattedDate)
                   events).
Proof.
  cbv zeta.
  assert (forall k,
      get (groupEventsByDate dateKey events) k
      = match filter (fun e => String.eqb (dateKey (ev_date e)) k) events with
        | [] => None
        | dateEvents => Some dateEvents
        end) as Hget.
  { intros k. exact (get_fold_step events [] k). }
  split; [exact Hget|]. split; [|split; [|split]].
  - apply (nodup_fold_step events []). constructor.
  - exact (concat_values_fold events []).
  - intros k dateEvents Hk. rewrite Hget in Hk.
    destruct (filter _ events) as [|e0 rest] eqn:Hf; [discriminate|].
    inversion Hk. subst dateEvents. split; [discriminate|].
    intros e. rewrite <- Hf, filter_In.
    destruct (String.eqb_spec (dateKey (ev_date e)) k); intuition congruence.
  - intros d. unfold hasEvents. rewrite Hget. apply marked_existsb.
Qed.

End Group.

End CalendarLaws.

(** ** The statistics page: totals and chart *)

Module StatisticsLaws.

Import JsObject JsObjectFacts JsObjectLaws Averages Spec Invariants.
Import StatisticsPage AveragesFacts.



Section Views.

Variable format_PPP : string -> string.








End Views.


End StatisticsLaws.

(** ** The dashboard *)

Module DashboardLaws.

Import GameForm GamesPage GamesList Dashboard Spec Invariants ListLaws.

Lemma count_map {A B} (g : A -> B) (test : B -> bool) l :
  count test (map g l) = count (fun x => test (g x)) l.
Proof.
  unfold count. f_equal. f_equal.
  induction l as [|x l IH]; cbn [map filter]; [reflexivity|].
  destruct (test (g x)); cbn [List.length]; now rewrite IH.
Qed.

Lemma count_perm {A} (test : A -> bool) l l' :
  Permutation l l' -> count test l = count test l'.
Proof.
  intros H. unfold count. f_equal. apply Permutation_length.
  now apply Permutation_filter.
Qed.

Lemma count_ext_in {A} (f g : A -> bool) l :
  (forall x, In x l -> f x = g x) -> count f l = count g l.
Proof. intros H. unfold count. now rewrite (filter_ext_in f g l H). Qed.

Lemma count_all {A} (l : list A) : count (fun _ => true) l = Z.of_nat (List.length l).
Proof.
  unfold count. f_equal. f_equal. induction l as [|x l IH]; cbn [filter];
    [reflexivity | now rewrite IH].
Qed.

Lemma count_cons {A} (test : A -> bool) x l :
  count test (x :: l) = (if test x then 1 else 0) + count test l.
Proof.
  unfold count. cbn [filter]. destruct (test x); cbn [List.length]; lia.
Qed.

(** The badge of a row says what its result is. *)
Lemma shows_result r :
  shows "Victoire" (game_of r) = result_is win r
  /\ shows "Défaite" (game_of r) = result_is loss r
  /\ shows "Égalité" (game_of r) = result_is draw r
  /\ (match result_cell (game_of r) with Dash => true | _ => false end
      = match ev_result r with None => true | Some _ => false end).
Proof.
  unfold shows, result_cell, result_is.
  cbn [game_of game_result].
  destruct (ev_result r) as [[]|]; repeat split; reflexivity.
Qed.

Lemma result_is_scores r :
  result_consistent r ->
  result_is win r = outscores game_team_score game_opponent_score (game_of r)
  /\ result_is loss r
     = outscores game_opponent_score game_team_score (game_of r).
Proof.
  unfold result_consistent, result_is, outscores.
  cbn [game_of game_team_score game_opponent_score]. intros ->.
  destruct (ev_team_score r) as [t|], (ev_opponent_score r) as [o|];
    cbn [expected_result]; try (split; reflexivity).
  destruct (Z.ltb_spec o t), (Z.ltb_spec t o); try (split; reflexivity); lia.
Qed.

Lemma results_partition rows :
  count (result_is win) rows + count (result_is loss) rows
  + count (fun r => shows "Égalité" (game_of r)) rows
  + count (fun r => match game_result (game_of r) with
                    | None => true
                    | Some _ => false
                    end) rows
  = Z.of_nat (List.length rows).
Proof.
  induction rows as [|r rows IH]; [reflexivity|].
  rewrite !count_cons. cbn [List.length]. rewrite Nat2Z.inj_succ.
  assert ((if result_is win r then 1 else 0)
          + (if result_is loss r then 1 else 0)
          + (if shows "Égalité" (game_of r) then 1 else 0)
          + (if match game_result (game_of r) with
                | None => true
                | Some _ => false
                end then 1 else 0) = 1) as Hone.
  { destruct (shows_result r) as (_ & _ & -> & _).
    unfold result_is. cbn [game_of game_result].
    destruct (ev_result r) as [[]|]; reflexivity. }
  lia.
Qed.

Section Page.

Variable order_attendance : list EventRow -> list EventRow.
Variable order_games : list EventRow -> list EventRow.

(** X17.  The counters of the dashboard agree with the list of games of
    the games page: the number of games is the length of the list, the
    victories and the defeats are the games whose badge reads
    "Victoire" and "Défaite", and together with the draws and the games
    without result they make up all games.  When the result of each
    event agrees with its scores, the victories are the games in which
    the team outscored the opponent and the defeats those in which the
    opponent did.  Without attendance rows the rate is 0 and there is
    no last date. *)
Theorem dashboard_counts_games user_id st :
  (forall rows, Permutation (order_games rows) rows) ->
  let stats := loadDashboardData order_attendance user_id st in
  let games := loadGames order_games user_id st in
  gameCount stats = Z.of_nat (List.length games)
  /\ victories stats = count (shows "Victoire") games
  /\ defeats stats = count (shows "Défaite") games
  /\ victories stats + defeats stats + count (shows "Égalité") games
     + count (fun game => match game_result game with
                          | None => true
                          | Some _ => false
                          end) games
     = gameCount stats
  /\ (Forall result_consistent (events st) ->
      victories stats
      = count (outscores game_team_score game_opponent_score) games
      /\ defeats stats
         = count (outscores game_opponent_score game_team_score) games)
  /\ (filter (fun r => String.eqb (at_user_id r) user_id) (attendance st) = [] ->
      attendanceRate stats = Tenths 0 /\ lastAttendanceDate stats = None).
Proof.
  intros Hperm. cbv zeta.
  set (rows := filter (fun e => String.eqb (ev_user_id e) user_id
                                && String.eqb (ev_type e) "game") (events st)).
  assert (forall test,
             count test (loadGames order_games user_id st)
             = count (fun r => test (game_of r)) rows) as Hcount.
  { intros test. unfold loadGames. rewrite count_map.
    apply count_perm, Hperm. }
  assert (gameCount (loadDashboardData order_attendance user_id st)
          = Z.of_nat (List.length rows)) as Hg by reflexivity.
  assert (victories (loadDashboardData order_attendance user_id st)
          = count (result_is win) rows) as Hv by reflexivity.
  assert (defeats (loadDashboardData order_attendance user_id st)
          = count (result_is loss) rows) as Hd by reflexivity.
  rewrite Hg, Hv, Hd, !Hcount.
  split; [|split; [|split; [|split; [|split]]]].
  - rewrite <- (count_all (loadGames _ _ _)), Hcount. symmetry. apply count_all.
  - apply count_ext_in. intros r _. symmetry. apply shows_result.
  - apply count_ext_in. intros r _. symmetry. apply shows_result.
  - apply results_partition.
  - intros Hall. split; apply count_ext_in; intros r Hr;
      apply result_is_scores;
      apply (proj1 (Forall_forall _ _) Hall); apply filter_In in Hr; tauto.
  - intros Hnone. unfold loadDashboardData.
    cbn [attendanceRate lastAttendanceDate]. rewrite Hnone.
    split; reflexivity.
Qed.

End Page.

Lemma dashboard_counts_games_witness :
  victories (loadDashboardData (fun rows => rows) "u1" Samples.store0) = 0
  /\ gameCount (loadDashboardData (fun rows => rows) "u1" Samples.store0) = 1.
Proof.
  destruct (dashboard_counts_games (fun rows => rows) (fun rows => rows) "u1"
              Samples.store0 (fun rows => Permutation_refl rows))
    as (Hg & Hv & _).
  split; [rewrite Hv | rewrite Hg]; reflexivity.
Defined.

End DashboardLaws.

(** ** The attendance rate of the dashboard *)

Module RateLaws.

Import Dashboard Invariants JsNumberFacts.

(** *** Products of numbers *)

Lemma shr_1_shifted mrs x d :
  0 <= x -> 0 < d -> shifted mrs x d -> shifted (shr_1 mrs) x (2 * d).
Proof.
  intros Hx Hd [Hm Hl].
  assert (x / (2 * d) = x / d / 2) as Hq
    by (rewrite Z.div_div by lia; f_equal; lia).
  assert (x mod (2 * d) = x mod d + d * ((x / d) mod 2)) as Hr
    by (rewrite (Z.mul_comm 2 d); apply Z.rem_mul_r; lia).
  pose proof (Z.mod_pos_bound x d Hd) as Hb.
  assert (0 <= x / d) as Hq0 by (apply Z.div_pos; lia).
  unfold shifted. rewrite Hq, Hr. rewrite <- Hm in *.
  destruct mrs as [m r s]. cbn [shr_m loc_of_shr_record] in *.
  destruct m as [|[p|p|]|p]; try lia.
  - change (0 / 2) with 0. change (0 mod 2) with 0.
    destruct r, s; cbn [shr_1 orb shr_m loc_of_shr_record loc_ok] in *;
      split; lia.
  - assert (Zpos p~1 / 2 = Zpos p) as ->
      by (symmetry; apply Z.div_unique with 1; lia).
    assert (Zpos p~1 mod 2 = 1) as ->
      by (symmetry; apply Z.mod_unique with (Zpos p); lia).
    destruct r, s; cbn [shr_1 orb shr_m loc_of_shr_record loc_ok] in *;
      split; lia.
  - assert (Zpos p~0 / 2 = Zpos p) as ->
      by (symmetry; apply Z.div_unique with 0; lia).
    assert (Zpos p~0 mod 2 = 0) as ->
      by (symmetry; apply Z.mod_unique with (Zpos p); lia).
    destruct r, s; cbn [shr_1 orb shr_m loc_of_shr_record loc_ok] in *;
      split; lia.
  - change (1 / 2) with 0. change (1 mod 2) with 1.
    destruct r, s; cbn [shr_1 orb shr_m loc_of_shr_record loc_ok] in *;
      split; lia.
Qed.

Lemma iter_shr_shifted x p : forall mrs d,
  0 <= x -> 0 < d -> shifted mrs x d ->
  shifted (iter_pos shr_1 p mrs) x (2 ^ Zpos p * d).
Proof.
  induction p as [p IH|p IH|]; intros mrs d Hx Hd H; cbn [iter_pos].
  - replace (2 ^ Zpos p~1 * d) with (2 ^ Zpos p * (2 ^ Zpos p * (2 * d))).
    + assert (0 < 2 ^ Zpos p) by (apply Z.pow_pos_nonneg; lia).
      apply IH; [lia|nia|]. apply IH; [lia|lia|]. now apply shr_1_shifted.
    + replace (Zpos p~1) with (Zpos p + Zpos p + 1) by lia.
      rewrite !Z.pow_add_r by lia. change (2 ^ 1) with 2. lia.
  - replace (2 ^ Zpos p~0 * d) with (2 ^ Zpos p * (2 ^ Zpos p * d)).
    + assert (0 < 2 ^ Zpos p) by (apply Z.pow_pos_nonneg; lia).
      apply IH; [lia|nia|]. now apply IH.
    + replace (Zpos p~0) with (Zpos p + Zpos p) by lia.
      rewrite !Z.pow_add_r by lia. lia.
  - change (2 ^ 1) with 2. now apply shr_1_shifted.
Qed.

Lemma record_of_loc mrs :
  shr_record_of_loc (shr_m mrs) (loc_of_shr_record mrs) = mrs.
Proof. destruct mrs as [m [] []]; reflexivity. Qed.

(** [binary_round_aux] on an integer of [53 + n] bits: the result is a
    normal number within half a unit in the last place of it. *)
Lemma binary_round_aux_long m e n :
  2 ^ (52 + Zpos n) <= Zpos m < 2 ^ (53 + Zpos n) ->
  -1074 <= e -> e + Zpos n <= 800 ->
  exists M k,
    binary_round_aux prec emax false (Zpos m) e loc_Exact
    = S754_finite false M (e + Zpos n + k)
    /\ 2 ^ 52 <= Zpos M < 2 ^ 53
    /\ 0 <= k <= 2
    /\ 2 * Z.abs (Zpos M * 2 ^ (k + Zpos n) - Zpos m) <= 2 ^ (k + Zpos n).
Proof.
  intros Hm He1 He2.
  assert (Zpos (digits2_pos m) = 53 + Zpos n) as Hd.
  { apply digits2_pos_unique.
    replace (53 + Zpos n - 1) with (52 + Zpos n) by lia. exact Hm. }
  set (D := 2 ^ Zpos n).
  assert (0 < D) as HD by (apply Z.pow_pos_nonneg; lia).
  assert (2 ^ (52 + Zpos n) = 2 ^ 52 * D) as H52
    by (unfold D; rewrite Z.pow_add_r by lia; reflexivity).
  assert (2 ^ (53 + Zpos n) = 2 ^ 53 * D) as H53
    by (unfold D; rewrite Z.pow_add_r by lia; reflexivity).
  rewrite H52, H53 in Hm.
  set (mrs := iter_pos shr_1 n (shr_record_of_loc (Zpos m) loc_Exact)).
  assert (shifted mrs (Zpos m) D) as [Hq Hl].
  { unfold mrs, D. rewrite <- (Z.mul_1_r (2 ^ Zpos n)).
    apply iter_shr_shifted; [lia|lia|].
    unfold shifted. cbn [shr_record_of_loc shr_m loc_of_shr_record loc_ok].
    rewrite Z.div_1_r, Z.mod_1_r. split; reflexivity. }
  pose proof (Z.div_mod (Zpos m) D ltac:(lia)) as Hdm.
  pose proof (Z.mod_pos_bound (Zpos m) D HD) as Hmb.
  assert (2 ^ 52 <= Zpos m / D < 2 ^ 53) as Hqb.
  { split.
    - apply Z.div_le_lower_bound; lia.
    - apply Z.div_lt_upper_bound; lia. }
  assert (shr_fexp prec emax (Zpos m) e loc_Exact = (mrs, e + Zpos n)) as Hshr.
  { unfold shr_fexp. cbn [Zdigits2]. rewrite fexp_eq, Hd.
    replace (Z.max (53 + Zpos n + e - 53) (-1074) - e) with (Zpos n) by lia.
    reflexivity. }
  destruct (binary_round_aux_spec (Zpos m / D) (e + Zpos n)
              (loc_of_shr_record mrs) (Zpos m mod D) D)
    as [M [k [Heq [HM [Hk Herr]]]]]; try lia; try assumption.
  exists M, k. split; [|split; [exact HM|split; [exact Hk|]]].
  - rewrite <- Heq. unfold binary_round_aux at 1. rewrite Hshr.
    destruct (Zpos m / D) as [|q|q] eqn:Hqe; try lia.
    unfold binary_round_aux.
    rewrite (shr_fexp_53 q) by (try apply digits2_pos_unique; lia).
    rewrite <- Hq, record_of_loc. reflexivity.
  - replace (2 ^ (k + Zpos n)) with (2 ^ k * D)
      by (unfold D; rewrite Z.pow_add_r by lia; reflexivity).
    replace (Zpos m) with (Zpos m / D * D + Zpos m mod D) at 1 by lia.
    rewrite Z.mul_assoc. exact Herr.
Qed.

(** The product of a normal number not above one and 100. *)
Lemma js_mul_100 M pe :
  2 ^ 52 <= Zpos M < 2 ^ 53 -> 52 <= Zpos pe <= 200 ->
  exists M' P S,
    js_mul (S754_finite false M (Zneg pe)) (of_int 100)
    = S754_finite false M' (Zneg P)
    /\ 52 <= S <= 55
    /\ Zpos P = Zpos pe + 46 - S
    /\ 2 * Z.abs (Zpos M' * 2 ^ S - Zpos M * (100 * 2 ^ 46)) <= 2 ^ S.
Proof.
  intros HM Hpe.
  change (of_int 100) with (S754_finite false 7036874417766400 (-46)).
  unfold js_mul, SFmul. cbn [xorb].
  set (m := (M * 7036874417766400)%positive).
  assert (Zpos m = Zpos M * (100 * 2 ^ 46)) as Hm
    by (unfold m; rewrite Pos2Z.inj_mul; reflexivity).
  change (2 ^ 46) with 70368744177664 in *.
  change (2 ^ 52) with 4503599627370496 in HM.
  change (2 ^ 53) with 9007199254740992 in HM.
  destruct (Z.ltb_spec (Zpos m) (2 ^ 105)) as [Hlt|Hge].
  - destruct (binary_round_aux_long m (Zneg pe + -46) 52)
      as [M' [k [Heq [HM' [Hk Herr]]]]].
    + change (2 ^ (52 + 52)) with 20282409603651670423947251286016.
      change (2 ^ (53 + 52)) with (2 ^ 105). lia.
    + lia.
    + lia.
    + destruct (Zneg pe + -46 + 52 + k) as [|P|P] eqn:HP; try lia.
      exists M', P, (k + 52). rewrite Heq. split; [reflexivity|].
      split; [lia|]. split; [lia|]. rewrite <- Hm. exact Herr.
  - destruct (binary_round_aux_long m (Zneg pe + -46) 53)
      as [M' [k [Heq [HM' [Hk Herr]]]]].
    + change (2 ^ (52 + 53)) with (2 ^ 105).
      change (2 ^ (53 + 53)) with 81129638414606681695789005144064. lia.
    + lia.
    + lia.
    + destruct (Zneg pe + -46 + 53 + k) as [|P|P] eqn:HP; try lia.
      exists M', P, (k + 53). rewrite Heq. split; [reflexivity|].
      split; [lia|]. split; [lia|]. rewrite <- Hm. exact Herr.
Qed.

(** The tenth that [toFixed(1)] picks for the product is a tenth
    nearest to [100 p / n]: the two roundings before it are too fine to
    move it. *)
Lemma rate_bracket M M' n p E C T U t :
  0 < p -> 0 < n < 2 ^ 32 -> 2 ^ 52 <= E -> 0 < C -> 0 < U <= 512 * C ->
  0 < T -> T * U = E * C ->
  2 * Z.abs (M * n - p * E) <= n ->
  2 * Z.abs (M' * U - M * (100 * C)) <= U ->
  t = (20 * M' + T) / (2 * T) ->
  2 * Z.abs (t * n - 1000 * p) <= n.
Proof.
  intros Hp Hn HE HC HU HT HTU Ha Hb Ht.
  change (2 ^ 32) with 4294967296 in Hn.
  change (2 ^ 52) with 4503599627370496 in HE.
  pose proof (Z.div_mod (20 * M' + T) (2 * T) ltac:(lia)) as Hdm.
  pose proof (Z.mod_pos_bound (20 * M' + T) (2 * T) ltac:(lia)) as Hmb.
  rewrite <- Ht in Hdm.
  set (A := M * n - p * E) in *.
  set (B := M' * U - M * (100 * C)) in *.
  assert (- n <= 2 * A <= n) as HA by lia.
  assert (- U <= 2 * B <= U) as HB by lia.
  assert (M * n = p * E + A) as HMn by (unfold A; lia).
  assert (M' * U = 100 * C * M + B) as HMU by (unfold B; lia).
  assert ((2 * t - 1) * T <= 20 * M') as H1 by lia.
  assert (20 * M' < (2 * t + 1) * T) as H2 by lia.
  assert ((2 * t - 1) * (E * C) <= 2000 * C * M + 10 * U) as H3.
  { rewrite <- HTU.
    assert ((2 * t - 1) * T * U <= 20 * M' * U) as H
      by (apply Z.mul_le_mono_nonneg_r; lia).
    lia. }
  assert (2000 * C * M - 10 * U < (2 * t + 1) * (E * C)) as H4.
  { rewrite <- HTU.
    assert (20 * M' * U < (2 * t + 1) * T * U) as H
      by (apply Z.mul_lt_mono_pos_r; lia).
    lia. }
  assert ((2 * t - 1) * (E * C) * n <= (2000 * C * M + 10 * U) * n) as H5
    by (apply Z.mul_le_mono_nonneg_r; lia).
  assert ((2000 * C * M - 10 * U) * n < (2 * t + 1) * (E * C) * n) as H6
    by (apply Z.mul_lt_mono_pos_r; lia).
  assert (2000 * C * M * n = 2000 * C * (p * E) + 2000 * C * A) as H7
    by (rewrite <- Z.mul_assoc, HMn; lia).
  assert (- (1000 * n) * C <= 2000 * C * A <= 1000 * n * C) as H8.
  { assert (1000 * C * (- n) <= 1000 * C * (2 * A))
      by (apply Z.mul_le_mono_nonneg_l; lia).
    assert (1000 * C * (2 * A) <= 1000 * C * n)
      by (apply Z.mul_le_mono_nonneg_l; lia).
    lia. }
  assert (10 * U * n <= 5120 * n * C) as H9.
  { assert (U * n <= 512 * C * n) by (apply Z.mul_le_mono_nonneg_r; lia).
    lia. }
  set (X := (2 * t - 1) * n - 2000 * p).
  set (Y := (2 * t + 1) * n - 2000 * p).
  assert (X * E * C <= 6120 * n * C) as HX by (unfold X; lia).
  assert (- (6120 * n) * C < Y * E * C) as HY by (unfold Y; lia).
  assert (X * E <= 6120 * n) as HX'
    by (apply (Z.mul_le_mono_pos_r _ _ C); [exact HC | exact HX]).
  assert (- (6120 * n) < Y * E) as HY'
    by (apply (Z.mul_lt_mono_pos_r C); [exact HC | exact HY]).
  assert (X <= 0) as HX0.
  { destruct (Z.le_gt_cases X 0) as [|Hc]; [assumption|]. exfalso.
    assert (1 * E <= X * E) by (apply Z.mul_le_mono_nonneg_r; lia). lia. }
  assert (0 <= Y) as HY0.
  { destruct (Z.le_gt_cases 0 Y) as [|Hc]; [assumption|]. exfalso.
    assert (Y * E <= (-1) * E) by (apply Z.mul_le_mono_nonneg_r; lia). lia. }
  unfold X in HX0. unfold Y in HY0. lia.
Qed.

(** [(p / n) * 100] formatted with one decimal, for [p] present rows out
    of [n]. *)
Lemma rate_nearest p n :
  0 < p <= n -> n < 2 ^ 32 ->
  exists t,
    toFixed1 (js_mul (js_div (of_int p) (of_int n)) (of_int 100)) = Tenths t
    /\ 2 * Z.abs (t * n - 1000 * p) <= n.
Proof.
  intros Hp Hn.
  change (2 ^ 32) with 4294967296 in Hn.
  destruct (js_div_int p n) as [M [pe [Hdiv [HM Herr]]]].
  { change (2 ^ 48) with 281474976710656. lia. }
  { change (2 ^ 53) with 9007199254740992. lia. }
  set (E := 2 ^ Zpos pe) in *.
  assert (0 < E) as HE0 by (apply Z.pow_pos_nonneg; lia).
  change (2 ^ 52) with 4503599627370496 in HM.
  change (2 ^ 53) with 9007199254740992 in HM.
  assert (4503599627370496 <= E) as HE by nia.
  assert (E < 2 ^ 86) as HE86.
  { change (2 ^ 86) with 77371252455336267181195264. nia. }
  assert (52 <= Zpos pe <= 200) as Hpe.
  { split.
    - apply (Z.pow_le_mono_r_iff 2); [lia|lia|]. exact HE.
    - assert (Zpos pe < 86); [|lia].
      apply (Z.pow_lt_mono_r_iff 2); [lia|lia|]. exact HE86. }
  destruct (js_mul_100 M pe) as [M' [P [S [Hmul [HS [HP Herr']]]]]].
  { change (2 ^ 52) with 4503599627370496.
    change (2 ^ 53) with 9007199254740992. exact HM. }
  { exact Hpe. }
  rewrite Hdiv, Hmul. cbn [toFixed1 cond_Zopp nearest_tenths].
  eexists. split; [reflexivity|].
  replace (2 ^ (Zpos P + 1)) with (2 * 2 ^ Zpos P)
    by (rewrite Z.pow_add_r by lia; change (2 ^ 1) with 2; lia).
  assert (0 < 2 ^ S <= 512 * 2 ^ 46) as HU.
  { split; [apply Z.pow_pos_nonneg; lia|].
    change 512 with (2 ^ 9). rewrite <- Z.pow_add_r by lia.
    apply Z.pow_le_mono_r; lia. }
  assert (0 < 2 ^ Zpos P) as HT by (apply Z.pow_pos_nonneg; lia).
  assert (2 ^ Zpos P * 2 ^ S = E * 2 ^ 46) as HTU.
  { unfold E. rewrite <- !Z.pow_add_r by lia. f_equal. lia. }
  apply (rate_bracket (Zpos M) (Zpos M') n p E (2 ^ 46) (2 ^ Zpos P) (2 ^ S));
    try assumption; try reflexivity; lia.
Qed.

Lemma rate_zero n :
  0 < n < 2 ^ 53 ->
  toFixed1 (js_mul (js_div (of_int 0) (of_int n)) (of_int 100)) = Tenths 0.
Proof.
  intros Hn. destruct (of_int_pos n Hn) as [my [ey [Hy _]]].
  rewrite Hy. reflexivity.
Qed.

Section Page.

Variable order_by_date_desc : list EventRow -> list EventRow.

(** X18.  The attendance rate of the dashboard.  For fewer than [2^32]
    attendance rows of the user, the rate shown is a decimal with one
    fractional digit that is nearest to the percentage of the rows
    marked present: it differs from it by at most one twentieth of a
    point.  It lies between 0 and 100, it is 0 when no row is marked
    present (also when there is no row at all) and 100 when every row
    is. *)
Theorem attendanceRate_nearest user_id st :
  let attendanceData :=
    filter (fun r => String.eqb (at_user_id r) user_id) (attendance st) in
  let n := Z.of_nat (List.length attendanceData) in
  let p := Z.of_nat (List.length (filter at_present attendanceData)) in
  n < 2 ^ 32 ->
  exists t,
    attendanceRate (loadDashboardData order_by_date_desc user_id st) = Tenths t
    /\ 2 * Z.abs (t * n - 1000 * p) <= n
    /\ 0 <= t <= 1000
    /\ (p = 0 -> t = 0)
    /\ (0 < n -> p = n -> t = 1000).
Proof.
  cbv zeta. intros Hn.
  set (attendanceData :=
         filter (fun r => String.eqb (at_user_id r) user_id) (attendance st))
    in *.
  set (n := Z.of_nat (List.length attendanceData)) in *.
  set (p := Z.of_nat (List.length (filter at_present attendanceData))).
  assert (0 <= p <= n) as Hp.
  { unfold p, n. pose proof (filter_length_le at_present attendanceData). lia. }
  assert (attendanceRate (loadDashboardData order_by_date_desc user_id st)
          = toFixed1
              (if Nat.eqb (List.length attendanceData) 0 then of_int 0
               else js_mul (js_div (of_int p) (of_int n)) (of_int 100)))
    as -> by reflexivity.
  change (2 ^ 32) with 4294967296 in Hn.
  assert (forall t,
             0 < n -> 2 * Z.abs (t * n - 1000 * p) <= n ->
             0 <= t <= 1000 /\ (p = 0 -> t = 0) /\ (0 < n -> p = n -> t = 1000))
    as Hrest.
  { intros t Hn0 Ht.
    assert (- n <= 2 * (t * n - 1000 * p) <= n) as Hb by lia.
    split; [split; nia|]. split.
    - intros Hp0. rewrite Hp0 in Hb. nia.
    - intros _ Hpn. rewrite Hpn in Hb. nia. }
  destruct (Nat.eqb_spec (List.length attendanceData) 0) as [H0|H0].
  - exists 0. split; [reflexivity|].
    assert (n = 0) as Hn0 by (unfold n; rewrite H0; reflexivity).
    split; [lia|]. split; [lia|]. split; [reflexivity | lia].
  - assert (0 < n) as Hn0 by (unfold n; lia).
    destruct (Z.eq_dec p 0) as [Hp0|Hp0].
    + exists 0.
      assert (toFixed1 (js_mul (js_div (of_int p) (of_int n)) (of_int 100))
              = Tenths 0) as ->.
      { rewrite Hp0. apply rate_zero.
        change (2 ^ 53) with 9007199254740992. lia. }
      split; [reflexivity|].
      assert (2 * Z.abs (0 * n - 1000 * p) <= n) as Hb by lia.
      split; [exact Hb | exact (Hrest 0 Hn0 Hb)].
    + destruct (rate_nearest p n) as [t [Heq Hb]]; [lia|exact Hn|].
      exists t. split; [exact Heq|]. split; [exact Hb | exact (Hrest t Hn0 Hb)].
Qed.

End Page.

Lemma attendanceRate_nearest_witness :
  attendanceRate (loadDashboardData (fun rows => rows) "u1" Samples.store3)
  = Tenths 500.
Proof.
  destruct (attendanceRate_nearest (fun rows => rows) "u1" Samples.store3)
    as [t [Heq [Hb _]]].
  - vm_compute. reflexivity.
  - rewrite Heq. f_equal.
    change (2 * Z.abs (t * 2 - 1000 * 1) <= 2) in Hb. lia.
Defined.

End RateLaws.
